(** * CL_guardmail: the mail monitor and its scheduler

    A shallow embedding of [email_monitor.py] (class [EmailMonitor]) and of
    the automatic-check loop of [app.py] ([SpamDetectorApp.run_automatic_checks]),
    with the properties the specification states about them.

    Conventions of the embedding.
    - Python [str] values are Rocq strings whose characters are the code
      points below 256 (Latin-1): texts with other code points are outside
      the model. [lower] and [isupper] follow the Unicode case tables on that
      range only; statements that rest on them are made for ASCII text
      ([Py.isascii]) where the reading matters.
    - Python [float] is IEEE-754 binary64, i.e. Rocq's primitive [float];
      a literal such as [0.2] denotes the nearest binary64 value, as in Python.
    - Python [int] is [Z].
    - The IMAP server is an oracle carried by the connection object: what
      [select], [search], [fetch], [logout] and [close] answer (or that they
      raise) is data of the connection.
    - SQLite is an in-memory record of the three tables a pass touches (the
      catalog tables, written when a database object is built, are left
      out); statements on the declared schema succeed, except that an insert
      whose [account_id] has no row in [email_accounts] violates the foreign
      key ([PRAGMA foreign_keys = ON]) and raises, and that a parameter
      [sqlite3] cannot bind (a [Header] object as the date of a mail) raises
      before the statement runs.
    - Exceptions are values: stateful methods live in a small state-and-error
      monad whose [try_except] and [try_finally] follow Python's. *)

From Stdlib Require Import ZArith QArith Floats Ascii String Bool List Lia.
From stdpp Require Import base option list sorting strings gmap.
Import ListNotations.

#[local] Set Warnings "-inexact-float".
#[local] Open Scope Z_scope.

(** ** Python built-ins used by the monitor *)

Module Py.

(** [l[-n:]] for an integer [n]: the last [n] elements when [0 < n], the
    whole list when [n = 0] (since [-0 = 0]), and [l[k:]] when [n = -k < 0]. *)
Definition slice_last {A} (l : list A) (n : Z) : list A :=
  if 0 <? n then drop (length l - Z.to_nat n) l
  else drop (Z.to_nat (- n)) l.

(** [len(l) > n] for a list and an integer. *)
Definition len_gt {A} (l : list A) (n : Z) : bool :=
  n <? Z.of_nat (length l).

Definition code (c : ascii) : Z := Z.of_nat (nat_of_ascii c).

Definition between (lo hi : Z) (c : ascii) : bool :=
  (lo <=? code c) && (code c <=? hi).

(** [c.isupper()] for a character below U+0100 only: A-Z and the capital
    letters U+00C0..U+00DE (U+00D7, the multiplication sign, is not a
    letter). Uppercase characters above that range, such as the
    mathematical capitals from U+1D400 on, are not characters of the
    model. *)
Definition isupper (c : ascii) : bool :=
  between 65 90 c || (between 192 222 c && negb (code c =? 215)).

(** [c.lower()] for a character below U+0100: every capital letter of that
    range has a lowercase letter 32 places further on. *)
Definition lower_char (c : ascii) : ascii :=
  if isupper c then ascii_of_nat (nat_of_ascii c + 32) else c.

(** [s.lower()] for a text whose code points are all below U+0100, where
    it works character by character and keeps the length. Python's
    [str.lower] is that of full Unicode: U+0130 lowers to two characters, and
    a mathematical capital stays uppercase; such texts are not covered. *)
Fixpoint lower (s : string) : string :=
  match s with
  | EmptyString => EmptyString
  | String c s' => String (lower_char c) (lower s')
  end.

(** [s.isascii()]: every code point is below U+0080. *)
Fixpoint isascii (s : string) : bool :=
  match s with
  | EmptyString => true
  | String c s' => (code c <? 128) && isascii s'
  end.

Definition len (s : string) : Z := Z.of_nat (String.length s).

(** [sum(1 for c in s if p(c))]. *)
Fixpoint count_if (p : ascii -> bool) (s : string) : Z :=
  match s with
  | EmptyString => 0
  | String c s' => (if p c then 1 else 0) + count_if p s'
  end.

(** [s.count(c)] for a one-character needle. *)
Definition count_char (c : ascii) (s : string) : Z :=
  count_if (Ascii.eqb c) s.

(** [w in s]: [w] occurs in [s] as a substring. *)
Fixpoint contains (w s : string) : bool :=
  String.prefix w s ||
  match s with
  | EmptyString => false
  | String _ s' => contains w s'
  end.

(** [sum(1 for w in ws if w in s)]. *)
Definition count_present (ws : list string) (s : string) : Z :=
  Z.of_nat (length (filter (fun w => contains w s = true) ws)).

(** [any(w in s for w in ws)]. *)
Definition any_present (ws : list string) (s : string) : bool :=
  existsb (fun w => contains w s) ws.

(** [s.split(c)[-1]]: what follows the last [c] (all of [s] without one). *)
Fixpoint after_last (c : ascii) (s : string) : string :=
  match s with
  | EmptyString => EmptyString
  | String d s' =>
      if contains (String c EmptyString) s' then after_last c s'
      else if Ascii.eqb c d then s'
      else s
  end.

(** [s.split(c)[0]]: what precedes the first [c] (all of [s] without one). *)
Fixpoint before_first (c : ascii) (s : string) : string :=
  match s with
  | EmptyString => EmptyString
  | String d s' => if Ascii.eqb c d then EmptyString else String d (before_first c s')
  end.

(** [a / b] on integers: [ZeroDivisionError] when [b] is zero (here
    [None]), [0.0] when [a] is zero, otherwise the quotient rounded to
    binary64 (taken from the binary64 images of the operands, which is the
    exact result for operands below 2^53). *)
Definition truediv (a b : Z) : option float :=
  if b =? 0 then None
  else if a =? 0 then Some 0%float
  else Some (PrimFloat.div (PrimFloat.of_uint63 (Uint63.of_Z a))
                           (PrimFloat.of_uint63 (Uint63.of_Z b))).

(** [min(x, y)] on floats: the first argument unless the second is smaller. *)
Definition fmin (x y : float) : float :=
  if PrimFloat.ltb y x then y else x.

(** [x > y] on floats. *)
Definition fgt (x y : float) : bool := PrimFloat.ltb y x.

End Py.

(** ** Data model *)

(** What [email_message.get(name, '')] returns for a message parsed by
    [email.message_from_bytes]: the text of the header ([''] without one),
    or, when the raw header holds bytes outside ASCII, an
    [email.header.Header] object over it. *)
Inductive HeaderValue :=
| HeaderText (s : string)
| HeaderObject (raw : string).

(** A parsed message ([email.message.Message]). [msg_subject], [msg_from]
    and [msg_to] are the headers after [_decode_header], which always
    returns a string; [msg_date] is the Date header as [get] returns it,
    since [_extract_email_info] does not decode it; [msg_parts] is what
    [walk()] yields below the root of a multipart message. *)
Record Part := {
  part_content_type : string;
  part_maintype : string;
  part_payload : string;
  part_disposition : option string
}.

Record Message := {
  msg_subject : string;
  msg_from : string;
  msg_to : string;
  msg_date : HeaderValue;
  msg_is_multipart : bool;
  msg_payload : string;
  msg_parts : list Part
}.

(** The [features] dictionary. *)
Record Features := {
  subject_length : Z;
  content_length : Z;
  total_length : Z;
  caps_ratio : float;
  exclamation_count : Z;
  question_count : Z;
  dollar_count : Z;
  urgent_words : Z;
  spam_words : Z;
  has_suspicious_domain : bool;
  has_many_links : Z;
  has_attachments : bool
}.

(** The [email_info] dictionary of [_extract_email_info]. *)
Record EmailInfo := {
  email_id : string;
  subject : string;
  sender : string;
  to : string;
  date : HeaderValue;
  content : string;
  features : Features;
  size : Z;
  info_has_attachments : bool
}.

(** The dictionary [analyze_email_spam] returns. *)
Record Analysis := {
  is_spam : bool;
  spam_score : float;
  confidence : float;
  features_used : Features
}.

(** ** Feature extraction and scoring *)

#[local] Open Scope string_scope.

Definition urgent_word_list : list string :=
  ["urgente"; "urgent"; "important"; "importante";
   "act" ++ String "250"%char "a"; "actua"].

Definition spam_word_list : list string :=
  ["gratis"; "free"; "gana"; "win"; "dinero"; "money"; "oferta"; "offer"].

Definition suspicious_domains : list string :=
  ["spam.com"; "malware.com"; "virus.com"; "fake.com";
   "suspicious.com"; "scam.com"; "phishing.com"].

(** [_check_suspicious_domain]. *)
Definition _check_suspicious_domain (sender : string) : bool :=
  let sender_lower := Py.lower sender in
  Py.any_present suspicious_domains sender_lower.

(** [_has_attachments]: the first part that is not a multipart container
    and carries a Content-Disposition header decides. *)
Definition _has_attachments (m : Message) : bool :=
  if msg_is_multipart m then
    existsb (fun p => negb (String.eqb (part_maintype p) "multipart")
                      && bool_decide (is_Some (part_disposition p)))
            (msg_parts m)
  else false.

(** [_extract_content]: the text/plain parts of a multipart message in
    order, the payload otherwise. *)
Definition _extract_content (m : Message) : string :=
  if msg_is_multipart m then
    fold_left (fun acc p =>
                 if String.eqb (part_content_type p) "text/plain"
                 then acc ++ part_payload p else acc)
              (msg_parts m) ""
  else msg_payload m.

(** One character of the repeated group of the link pattern
    [(?:[a-zA-Z]|[0-9]|[$-_@.&+]|[!*\\(\\),]|(?:%[0-9a-fA-F][0-9a-fA-F]))+].
    The range [$-_] is U+0024..U+005F; the percent-escape alternative only
    repeats characters the earlier alternatives already accept. *)
Definition url_char (c : ascii) : bool :=
  Py.between 97 122 c || Py.between 65 90 c
  || Py.between 48 57 c
  || Py.between 36 95 c || Ascii.eqb c "@" || Ascii.eqb c "." || Ascii.eqb c "&" || Ascii.eqb c "+"
  || Ascii.eqb c "!" || Ascii.eqb c "*" || Ascii.eqb c "\" || Ascii.eqb c "(" || Ascii.eqb c ")" || Ascii.eqb c ",".

Definition char_at (n : nat) (s : string) : option ascii := String.get n s.

(** A match of [http[s]?://] followed by at least one [url_char] starts at
    the head of [s]. *)
Definition starts_link (s : string) : bool :=
  (String.prefix "https://" s && from_option url_char false (char_at 8 s))
  || (String.prefix "http://" s && from_option url_char false (char_at 7 s)).

(** [len(re.findall(pattern, s))]: matches are taken left to right, each
    one greedy. Every character of the prefix is itself a [url_char], so
    once a match has started it runs to the first character outside the
    class; [inside] records that a match is running. *)
Fixpoint count_links (inside : bool) (s : string) : Z :=
  match s with
  | EmptyString => 0
  | String c s' =>
      if inside then count_links (url_char c) s'
      else if starts_link s then 1 + count_links true s'
      else count_links false s'
  end.

(** [_extract_spam_features]. [email_message] is [None] or a message. *)
Definition _extract_spam_features
    (subject sender content : string) (email_message : option Message) : Features :=
  let full_text := Py.lower (subject ++ " " ++ content) in
  {| subject_length := Py.len subject;
     content_length := Py.len content;
     total_length := Py.len full_text;
     caps_ratio :=
       if negb (String.eqb full_text "")
       then default 0%float (Py.truediv (Py.count_if Py.isupper full_text) (Py.len full_text))
       else 0%float;
     exclamation_count := Py.count_char "!" full_text;
     question_count := Py.count_char "?" full_text;
     dollar_count := Py.count_char "$" full_text;
     urgent_words := Py.count_present urgent_word_list full_text;
     spam_words := Py.count_present spam_word_list full_text;
     has_suspicious_domain := _check_suspicious_domain sender;
     has_many_links := count_links false content;
     has_attachments :=
       match email_message with
       | Some m => _has_attachments m
       | None => false
       end |}.

(** [_extract_email_info]. The date is stored as [get('Date', '')] gave
    it, undecoded. *)
Definition _extract_email_info (m : Message) (email_id : string) : EmailInfo :=
  let subject := msg_subject m in
  let sender := msg_from m in
  let content := _extract_content m in
  {| email_id := email_id;
     subject := subject;
     sender := sender;
     to := msg_to m;
     date := msg_date m;
     content := content;
     features := _extract_spam_features subject sender content (Some m);
     size := Py.len content;
     info_has_attachments := _has_attachments m |}.

#[local] Close Scope string_scope.
#[local] Open Scope float_scope.

(** The [weights] dictionary of [analyze_email_spam]. *)
Module weights.
Definition caps_ratio : float := 0.2.
Definition exclamation_count : float := 0.15.
Definition urgent_words : float := 0.25.
Definition spam_words : float := 0.2.
Definition has_suspicious_domain : float := 0.3.
Definition has_many_links : float := 0.1.
End weights.

(** [if cond: spam_score += w]. *)
Definition add_if (cond : bool) (w : float) (spam_score : float) : float :=
  if cond then spam_score + w else spam_score.

(** [analyze_email_spam]: the six tests in the order of the source. *)
Definition analyze_email_spam (email_info : EmailInfo) : Analysis :=
  let features := features email_info in
  let spam_score := 0.0 in
  let spam_score := add_if (Py.fgt (caps_ratio features) 0.3) weights.caps_ratio spam_score in
  let spam_score := add_if (3 <? exclamation_count features)%Z weights.exclamation_count spam_score in
  let spam_score := add_if (0 <? urgent_words features)%Z weights.urgent_words spam_score in
  let spam_score := add_if (2 <? spam_words features)%Z weights.spam_words spam_score in
  let spam_score := add_if (has_suspicious_domain features) weights.has_suspicious_domain spam_score in
  let spam_score := add_if (5 <? has_many_links features)%Z weights.has_many_links spam_score in
  let is_spam := Py.fgt spam_score 0.6 in
  let confidence := Py.fmin (spam_score * 1.5) 1.0 in
  {| is_spam := is_spam;
     spam_score := spam_score;
     confidence := confidence;
     features_used := features |}.

#[local] Close Scope float_scope.

(** ** The IMAP connection *)

(** The search keys the monitor sends; a date is a day number, the
    granularity of [strftime('%d-%b-%Y')]. *)
Inductive SearchKey :=
| ALL
| SINCE (day : Z)
| UNSEEN
| UNSEEN_SINCE (day : Z)
| SEEN_SINCE (day : Z).

(** What an [imaplib] call does: it returns a status ([true] for ['OK'])
    with its data, or it raises. *)
Inductive Reply (A : Type) : Type :=
| Answer (status_ok : bool) (data : A)
| Failure.
Arguments Answer {A} status_ok data.
Arguments Failure {A}.

(** An [imaplib.IMAP4_SSL] object together with the server behind it.
    [conn_state_attr] is the value of the attribute [_state], [None] when
    the object has no attribute of that name; [conn_seconds] is how long the
    server takes to serve one retrieval. *)
Record Connection := {
  conn_state_attr : option string;
  conn_select : Reply unit;
  conn_search : SearchKey -> Reply (list string);
  conn_fetch : string -> Reply Message;
  conn_logout : Reply unit;
  conn_close : Reply unit;
  conn_seconds : Z
}.

(** ** Exceptions *)

(** [InterfaceError] is what [sqlite3] raises for a parameter of a type it
    cannot bind ([ProgrammingError] in later versions of Python); either is
    caught by [except Exception]. *)
Inductive exn := AttributeError | IMAP4_error | IntegrityError | InterfaceError.

Inductive result (A : Type) : Type :=
| Ok (a : A)
| Raised (e : exn).
Arguments Ok {A} a.
Arguments Raised {A} e.

Definition rbind {A B} (c : result A) (k : A -> result B) : result B :=
  match c with
  | Ok a => k a
  | Raised e => Raised e
  end.

Declare Scope try_scope.
Delimit Scope try_scope with try.
Notation "x <- c ;; k" := (rbind c (fun x => k))
  (at level 100, c at next level, right associativity) : try_scope.

(** An [imaplib] call as a computation that may raise. *)
Definition imap {A} (r : Reply A) : result (bool * A) :=
  match r with
  | Answer ok data => Ok (ok, data)
  | Failure => Raised IMAP4_error
  end.

(** [self.connection.<method>]: an attribute of [None] does not exist. *)
Definition attr (connection : option Connection) : result Connection :=
  match connection with
  | Some conn => Ok conn
  | None => Raised AttributeError
  end.

(** [try: return body  except Exception: return []]. *)
Definition or_empty {A} (body : result (list A)) : list A :=
  match body with
  | Ok emails => emails
  | Raised _ => []
  end.

(** ** Retrieval strategies *)

(** The body of the [for email_id in ...] loops: a fetch whose status is
    not ['OK'] or that raises is skipped ([continue]); otherwise the message
    is parsed and appended. *)
Definition fetch_message (conn : Connection) (email_id : string) : list EmailInfo :=
  match conn_fetch conn email_id with
  | Answer true email_message => [_extract_email_info email_message email_id]
  | Answer false _ => []
  | Failure => []
  end.

Definition fetch_messages (conn : Connection) (email_ids : list string) : list EmailInfo :=
  flat_map (fetch_message conn) email_ids.

(** [messages[0]] is non-empty. *)
Definition nonempty {A} (l : list A) : bool :=
  match l with [] => false | _ => true end.

#[local] Open Scope try_scope.

(** [get_all_emails]. *)
Definition get_all_emails (connection : option Connection) (max_emails : Z) : list EmailInfo :=
  or_empty (
    conn <- attr connection ;;
    _ <- imap (conn_select conn) ;;
    found <- imap (conn_search conn ALL) ;;
    let '(ok, email_ids) := found in
    if negb ok then Ok []
    else if negb (nonempty email_ids) then Ok []
    else
      let email_ids :=
        if Py.len_gt email_ids max_emails then Py.slice_last email_ids max_emails
        else email_ids in
      Ok (fetch_messages conn email_ids)).

(** [get_recent_emails]. *)
Definition get_recent_emails (connection : option Connection) (today : Z)
    (days_back max_emails : Z) : list EmailInfo :=
  or_empty (
    conn <- attr connection ;;
    _ <- imap (conn_select conn) ;;
    let search_date := today - days_back in
    found <- imap (conn_search conn (SINCE search_date)) ;;
    let '(ok, email_ids) := found in
    if negb ok then Ok []
    else if negb (nonempty email_ids) then Ok []
    else
      let email_ids :=
        if Py.len_gt email_ids max_emails then Py.slice_last email_ids max_emails
        else email_ids in
      Ok (fetch_messages conn email_ids)).

(** [get_unread_emails]. *)
Definition get_unread_emails (connection : option Connection) (max_emails : Z) : list EmailInfo :=
  or_empty (
    conn <- attr connection ;;
    _ <- imap (conn_select conn) ;;
    found <- imap (conn_search conn UNSEEN) ;;
    let '(ok, email_ids) := found in
    if negb ok then Ok []
    else
      let email_ids :=
        if Py.len_gt email_ids max_emails then Py.slice_last email_ids max_emails
        else email_ids in
      Ok (fetch_messages conn email_ids)).

(** [get_recent_unread_emails], the default (hybrid) strategy. *)
Definition get_recent_unread_emails (connection : option Connection) (today : Z)
    (days_back max_emails : Z) : list EmailInfo :=
  or_empty (
    conn <- attr connection ;;
    _ <- imap (conn_select conn) ;;
    let unread_limit_date := today - days_back in
    let read_limit_date := today - 2 in
    let emails := [] in
    (* 1. unread messages since [unread_limit_date] *)
    found <- imap (conn_search conn (UNSEEN_SINCE unread_limit_date)) ;;
    let '(ok, unread_email_ids) := found in
    let emails :=
      if ok && nonempty unread_email_ids
      then emails ++ fetch_messages conn unread_email_ids
      else emails in
    (* 2. read messages since [read_limit_date] *)
    found <- imap (conn_search conn (SEEN_SINCE read_limit_date)) ;;
    let '(ok, read_email_ids) := found in
    let emails :=
      if ok && nonempty read_email_ids
      then
        let max_read_emails := max_emails / 2 in
        emails ++ fetch_messages conn (Py.slice_last read_email_ids max_read_emails)
      else emails in
    let emails :=
      if Py.len_gt emails max_emails then Py.slice_last emails max_emails
      else emails in
    Ok emails).

#[local] Close Scope try_scope.

(** ** The database *)

(** A row of [email_accounts]. *)
Record Account := {
  id : Z;
  email : string;
  password : string;
  server : string;
  port : Z;
  protocol : string;
  is_active : bool;
  check_interval : Z;
  max_emails_per_check : Z;
  created_at : Z;
  last_check_at : option Z;
  total_emails_checked : Z;
  total_spam_detected : Z
}.

(** A row of [analyzed_emails]; the columns carry the prefix [ae_]. *)
Record AnalyzedEmail := {
  ae_id : Z;
  ae_account_id : Z;
  ae_email_id : string;
  ae_subject : string;
  ae_sender : string;
  ae_sender_domain : string;
  ae_recipient : string;
  ae_content : string;
  ae_content_length : Z;
  ae_email_size : Z;
  ae_has_attachments : bool;
  ae_attachment_count : Z;
  ae_is_spam : bool;
  ae_confidence : float;
  ae_spam_score : float;
  ae_processed_at : Z;
  ae_received_at : string
}.

(** A row of [email_features]: the key of the analysed mail, the feature
    columns and the extraction time. *)
Record EmailFeatures := {
  ef_email_id : Z;
  ef_columns : Features;
  ef_extracted_at : Z
}.

(** The tables a pass of the monitor reads and writes.
    [analyzed_emails_seq] is the AUTOINCREMENT counter of [analyzed_emails]:
    the largest key handed out. The catalog tables ([spam_categories],
    [spam_features], [spam_patterns], [category_keywords]), which
    [initialize_catalogs] writes whenever a [SpamDatabase] object is built,
    are not part of the record: an equation between two values of it speaks
    of these three tables and the counter only. *)
Record Database := {
  email_accounts : list Account;
  analyzed_emails : list AnalyzedEmail;
  email_features : list EmailFeatures;
  analyzed_emails_seq : Z
}.

(** [SELECT * FROM email_accounts WHERE id = ?] with [fetchone()]. *)
Definition select_account (d : Database) (account_id : Z) : option Account :=
  List.find (fun a => id a =? account_id) (email_accounts d).

(** [SELECT id FROM analyzed_emails WHERE account_id = ? AND email_id = ?]
    with [fetchone()]. *)
Definition select_email (d : Database) (account_id : Z) (eid : string) : option AnalyzedEmail :=
  List.find (fun r => (ae_account_id r =? account_id) && String.eqb (ae_email_id r) eid)
            (analyzed_emails d).

(** Binding a header value to a parameter of a statement: [sqlite3] binds
    a string as it is and raises for a [Header] object, for which it has no
    adapter. *)
Definition bound (v : HeaderValue) : result string :=
  match v with
  | HeaderText s => Ok s
  | HeaderObject _ => Raised InterfaceError
  end.

(** The header value is a string. *)
Definition is_text (v : HeaderValue) : bool :=
  match v with
  | HeaderText _ => true
  | HeaderObject _ => false
  end.

(** The mails of a list whose date can be bound. *)
Definition bindable (emails : list EmailInfo) : list EmailInfo :=
  List.filter (fun e => is_text (date e)) emails.

(** [INSERT INTO analyzed_emails ...] once its parameters are bound: the
    foreign key on [account_id] is enforced; the new row gets the next key,
    returned as [lastrowid]. *)
Definition insert_analyzed_email (d : Database) (row : Z -> AnalyzedEmail)
    (account_id : Z) : result (Database * Z) :=
  match select_account d account_id with
  | None => Raised IntegrityError
  | Some _ =>
      let rowid := analyzed_emails_seq d + 1 in
      Ok ({| email_accounts := email_accounts d;
             analyzed_emails := analyzed_emails d ++ [row rowid];
             email_features := email_features d;
             analyzed_emails_seq := rowid |}, rowid)
  end.

(** [INSERT INTO email_features ...]. *)
Definition insert_email_features (d : Database) (row : EmailFeatures) : Database :=
  {| email_accounts := email_accounts d;
     analyzed_emails := analyzed_emails d;
     email_features := email_features d ++ [row];
     analyzed_emails_seq := analyzed_emails_seq d |}.

(** [UPDATE email_accounts SET last_check_at = CURRENT_TIMESTAMP,
    total_emails_checked = total_emails_checked + ?,
    total_spam_detected = total_spam_detected + ? WHERE id = ?]. *)
Definition checked (now emails_processed spam_detected : Z) (a : Account) : Account :=
  {| id := id a; email := email a; password := password a; server := server a;
     port := port a; protocol := protocol a; is_active := is_active a;
     check_interval := check_interval a;
     max_emails_per_check := max_emails_per_check a;
     created_at := created_at a;
     last_check_at := Some now;
     total_emails_checked := total_emails_checked a + emails_processed;
     total_spam_detected := total_spam_detected a + spam_detected |}.

Definition update_account_row (now emails_processed spam_detected account_id : Z)
    (a : Account) : Account :=
  if id a =? account_id then checked now emails_processed spam_detected a else a.

Definition update_accounts (d : Database) (now emails_processed spam_detected account_id : Z)
    : Database :=
  {| email_accounts :=
       map (update_account_row now emails_processed spam_detected account_id)
           (email_accounts d);
     analyzed_emails := analyzed_emails d;
     email_features := email_features d;
     analyzed_emails_seq := analyzed_emails_seq d |}.

(** ** The monitor and its methods *)

(** An [EmailMonitor] object: [self.db] and [self.connection], together
    with the wall clock (seconds) its calls read. *)
Record EmailMonitor := {
  db : Database;
  connection : option Connection;
  clock : Z
}.

(** The dictionaries of [emails_detail]. *)
Record Detail := {
  detail_subject : string;
  detail_sender : string;
  detail_is_spam : bool;
  detail_confidence : float;
  detail_spam_score : float
}.

(** The report of [process_account_emails]; a key the source leaves out
    of a report is [None] here. *)
Record Report := {
  success : bool;
  error : option string;
  report_account_id : Z;
  emails_processed : Z;
  spam_detected : Z;
  ham_detected : Z;
  processing_time : Z;
  message : option string;
  emails_detail : option (list Detail)
}.

(** What [imaplib.IMAP4_SSL(...)] followed by [login(...)] does for an
    account: the constructor raises, or the object is built and [login]
    raises, or both succeed. *)
Inductive Dial :=
| Unreachable
| Rejected (conn : Connection)
| Accepted (conn : Connection).

(** The network answers by what the monitor passes: the server, the port,
    the address and the password of the account. *)
Definition Network := string -> Z -> string -> string -> Dial.

(** Stateful methods: a state transformer that returns or raises. *)
Definition M (A : Type) : Type := EmailMonitor -> EmailMonitor * result A.

Definition ret {A} (a : A) : M A := fun self => (self, Ok a).

Definition raise {A} (e : exn) : M A := fun self => (self, Raised e).

Definition bind {A B} (c : M A) (k : A -> M B) : M B :=
  fun self =>
    match c self with
    | (self', Ok a) => k a self'
    | (self', Raised e) => (self', Raised e)
    end.

(** [try: body  except Exception as e: handler(e)]. *)
Definition try_except {A} (body : M A) (handler : exn -> M A) : M A :=
  fun self =>
    match body self with
    | (self', Ok a) => (self', Ok a)
    | (self', Raised e) => handler e self'
    end.

(** [try: body  finally: final]: [final] always runs; what it raises
    replaces the outcome of [body]. *)
Definition try_finally {A} (body : M A) (final : M unit) : M A :=
  fun self =>
    match body self with
    | (self', r) =>
        match final self' with
        | (self'', Ok _) => (self'', r)
        | (self'', Raised e) => (self'', Raised e)
        end
    end.

Definition lift {A} (r : result A) : M A := fun self => (self, r).

Definition get {A} (f : EmailMonitor -> A) : M A := fun self => (self, Ok (f self)).

Definition set_db (d : Database) : M unit :=
  fun self => ({| db := d; connection := connection self; clock := clock self |}, Ok tt).

Definition set_connection (c : option Connection) : M unit :=
  fun self => ({| db := db self; connection := c; clock := clock self |}, Ok tt).

(** The server takes [seconds] to answer. *)
Definition wait (seconds : Z) : M unit :=
  fun self => ({| db := db self; connection := connection self;
                  clock := clock self + seconds |}, Ok tt).

Declare Scope monitor_scope.
Delimit Scope monitor_scope with monitor.
Notation "x <- c ;; k" := (bind c (fun x => k))
  (at level 100, c at next level, right associativity) : monitor_scope.
Notation "c ;;; k" := (bind c (fun _ => k))
  (at level 100, right associativity) : monitor_scope.

#[local] Open Scope monitor_scope.

(** The day number of [datetime.now()]. *)
Definition today (self : EmailMonitor) : Z := clock self / 86400.

Section Monitor.

Variable net : Network.

(** [connect_to_server]. *)
Definition connect_to_server (account_id : Z) : M bool :=
  try_except
    (account <- get (fun self => select_account (db self) account_id) ;;
     match account with
     | None => ret false
     | Some account =>
         match net (server account) (port account) (email account) (password account) with
         | Unreachable => raise IMAP4_error
         | Rejected conn => set_connection (Some conn) ;;; raise IMAP4_error
         | Accepted conn => set_connection (Some conn) ;;; ret true
         end
     end)
    (fun _ => ret false).

(** One guarded call of [disconnect]:
    [try: call()  except Exception as e: logger.warning(...)]. *)
Definition guarded (call : Connection -> Reply unit) (conn : Connection) : M unit :=
  try_except
    (_ <- lift (imap (call conn)) ;; ret tt)
    (fun _ => ret tt).

(** [disconnect]. *)
Definition disconnect : M unit :=
  conn <- get connection ;;
  match conn with
  | None => ret tt
  | Some conn =>
      try_finally
        (try_except
           ((match conn_state_attr conn with
             | Some state =>
                 if negb (String.eqb state "LOGOUT")
                 then guarded conn_logout conn
                 else ret tt
             | None => ret tt
             end) ;;;
            guarded conn_close conn)
           (fun _ => ret tt))
        (set_connection None)
  end.

(** [store_email_in_database]. The parameters of the first [INSERT] are
    bound before the statement runs: a date that cannot be bound raises
    there, whether or not the account has a row. Every exception ends in
    [return False]. *)
Definition store_email_in_database (account_id : Z) (email_info : EmailInfo)
    (analysis_result : Analysis) : M bool :=
  try_except
    (existing_email <-
       get (fun self => select_email (db self) account_id (email_id email_info)) ;;
     match existing_email with
     | Some _ => ret false
     | None =>
         let sender_domain :=
           if negb (String.eqb (sender email_info) "")
           then Py.before_first ">" (Py.after_last "@" (sender email_info))
           else ""%string in
         now <- get clock ;;
         d <- get db ;;
         received_at <- lift (bound (date email_info)) ;;
         inserted <-
           lift (insert_analyzed_email d
                   (fun rowid =>
                      {| ae_id := rowid;
                         ae_account_id := account_id;
                         ae_email_id := email_id email_info;
                         ae_subject := subject email_info;
                         ae_sender := sender email_info;
                         ae_sender_domain := sender_domain;
                         ae_recipient := to email_info;
                         ae_content := content email_info;
                         ae_content_length := Py.len (content email_info);
                         ae_email_size := size email_info;
                         ae_has_attachments := info_has_attachments email_info;
                         ae_attachment_count := 0;
                         ae_is_spam := is_spam analysis_result;
                         ae_confidence := confidence analysis_result;
                         ae_spam_score := spam_score analysis_result;
                         ae_processed_at := now;
                         ae_received_at := received_at |})
                   account_id) ;;
         let '(d, email_db_id) := inserted in
         let features := features_used analysis_result in
         set_db (insert_email_features d
                   {| ef_email_id := email_db_id;
                      ef_columns := features;
                      ef_extracted_at := now |}) ;;;
         ret true
     end)
    (fun _ => ret false).

(** [_update_account_statistics]. *)
Definition _update_account_statistics (account_id emails_processed spam_detected : Z)
    : M unit :=
  try_except
    (now <- get clock ;;
     d <- get db ;;
     set_db (update_accounts d now emails_processed spam_detected account_id))
    (fun _ => ret tt).

(** The loop variables of [process_account_emails]. *)
Record Tally := {
  processed_emails : list Detail;
  spam_count : Z;
  ham_count : Z
}.

(** The body of [for email_info in emails]. *)
Definition process_email (account_id : Z) (tally : Tally) (email_info : EmailInfo)
    : M Tally :=
  try_except
    (let analysis_result := analyze_email_spam email_info in
     stored <- store_email_in_database account_id email_info analysis_result ;;
     if stored then
       ret {| spam_count :=
                if is_spam analysis_result then spam_count tally + 1 else spam_count tally;
              ham_count :=
                if is_spam analysis_result then ham_count tally else ham_count tally + 1;
              processed_emails :=
                processed_emails tally ++
                [{| detail_subject := subject email_info;
                    detail_sender := sender email_info;
                    detail_is_spam := is_spam analysis_result;
                    detail_confidence := confidence analysis_result;
                    detail_spam_score := spam_score analysis_result |}] |}
     else ret tally)
    (fun _ => ret tally).

Fixpoint process_emails (account_id : Z) (tally : Tally) (emails : list EmailInfo)
    : M Tally :=
  match emails with
  | [] => ret tally
  | email_info :: emails =>
      tally <- process_email account_id tally email_info ;;
      process_emails account_id tally emails
  end.

(** [str(e)] for the exceptions of the model. A binding error is raised
    inside [store_email_in_database] only, which catches it: its text is
    logged and never reaches a report. *)
Definition str (e : exn) : string :=
  match e with
  | AttributeError => "'NoneType' object has no attribute"
  | IMAP4_error => "imaplib.IMAP4.error"
  | IntegrityError => "FOREIGN KEY constraint failed"
  | InterfaceError => "Error binding parameter 15 - probably unsupported type."
  end.

(** The retrieval the flags select. *)
Definition selected_emails (conn : option Connection) (day max_emails : Z)
    (get_all get_recent : bool) : list EmailInfo :=
  if get_recent then get_recent_emails conn day 7 max_emails
  else if get_all then get_all_emails conn max_emails
  else get_recent_unread_emails conn day 7 max_emails.

(** The retrieval as a step of the pass; the server takes [conn_seconds]
    to serve it. *)
Definition retrieve (max_emails : Z) (get_all get_recent : bool) : M (list EmailInfo) :=
  conn <- get connection ;;
  day <- get today ;;
  let emails := selected_emails conn day max_emails get_all get_recent in
  wait (from_option conn_seconds 0 conn) ;;;
  ret emails.

(** [process_account_emails]. *)
Definition process_account_emails (account_id max_emails : Z) (get_all get_recent : bool)
    : M Report :=
  start_time <- get clock ;;
  try_finally
    (try_except
       (connected <- connect_to_server account_id ;;
        if negb connected then
          ret {| success := false;
                 error := Some "No se pudo conectar al servidor"%string;
                 report_account_id := account_id;
                 emails_processed := 0; spam_detected := 0; ham_detected := 0;
                 processing_time := 0;
                 message := None; emails_detail := None |}
        else
          emails <- retrieve max_emails get_all get_recent ;;
          if negb (nonempty emails) then
            now <- get clock ;;
            ret {| success := true;
                   error := None;
                   report_account_id := account_id;
                   emails_processed := 0; spam_detected := 0; ham_detected := 0;
                   processing_time := now - start_time;
                   message := Some "No hay correos nuevos para procesar"%string;
                   emails_detail := None |}
          else
            tally <- process_emails account_id
                       {| processed_emails := []; spam_count := 0; ham_count := 0 |}
                       emails ;;
            _update_account_statistics account_id
              (Z.of_nat (length (processed_emails tally))) (spam_count tally) ;;;
            now <- get clock ;;
            ret {| success := true;
                   error := None;
                   report_account_id := account_id;
                   emails_processed := Z.of_nat (length (processed_emails tally));
                   spam_detected := spam_count tally;
                   ham_detected := ham_count tally;
                   processing_time := now - start_time;
                   message := None;
                   emails_detail := Some (processed_emails tally) |})
       (fun e =>
          now <- get clock ;;
          ret {| success := false;
                 error := Some (str e);
                 report_account_id := account_id;
                 emails_processed := 0; spam_detected := 0; ham_detected := 0;
                 processing_time := now - start_time;
                 message := None; emails_detail := None |}))
    disconnect.

End Monitor.

#[local] Close Scope monitor_scope.

(** The monitor with [self.connection = None]. *)
Definition cleared (self : EmailMonitor) : EmailMonitor :=
  {| db := db self; connection := None; clock := clock self |}.

(** The account can be reached: it has a row and the server accepts the
    login. *)
Definition reachable (net : Network) (d : Database) (account_id : Z)
    (conn : Connection) : Prop :=
  exists a, select_account d account_id = Some a /\
            net (server a) (port a) (email a) (password a) = Accepted conn.

(** The monitor once the retrieval on [conn] has been served. *)
Definition served (conn : Connection) (self : EmailMonitor) : EmailMonitor :=
  {| db := db self; connection := Some conn; clock := clock self + conn_seconds conn |}.

(** The loop variables before the first mail. *)
Definition empty_tally : Tally :=
  {| processed_emails := []; spam_count := 0; ham_count := 0 |}.

(** The (account, message id) pairs of the stored mails, in row order. *)
Definition keys (d : Database) : list (Z * string) :=
  map (fun r => (ae_account_id r, ae_email_id r)) (analyzed_emails d).

(** How many of the given rows are spam, and how many are not. *)
Definition spam_rows (rows : list AnalyzedEmail) : Z :=
  Z.of_nat (length (List.filter ae_is_spam rows)).

Definition ham_rows (rows : list AnalyzedEmail) : Z :=
  Z.of_nat (length (List.filter (fun r => negb (ae_is_spam r)) rows)).

(** A sequence of calls of [store_email_in_database], whatever they return. *)
Fixpoint store_sequence (calls : list (Z * EmailInfo * Analysis)) (self : EmailMonitor)
    : EmailMonitor :=
  match calls with
  | [] => self
  | (account_id, email_info, analysis_result) :: calls =>
      store_sequence calls
        (fst (store_email_in_database account_id email_info analysis_result self))
  end.

(** The counters of an account, 0 when the account has no row. *)
Definition total_checked (d : Database) (account_id : Z) : Z :=
  from_option total_emails_checked 0 (select_account d account_id).

Definition total_spam (d : Database) (account_id : Z) : Z :=
  from_option total_spam_detected 0 (select_account d account_id).

(** ** The automatic checks of the dashboard ([app.py]) *)

(** The keys of [st.session_state] the scheduler reads. The visual log
    ([auto_check_logs]), to which every enabled cycle appends through
    [add_log_entry], is never read by the scheduler and is not part of the
    record: what is stated about the session is stated about these four
    keys. *)
Record SessionState := {
  auto_check_enabled : bool;
  last_auto_check : gmap Z Z;
  current_checking_account : option string;
  check_start_time : option Z
}.

(** The dashboard process: its session, the database file and the wall
    clock ([time.time()], in seconds). *)
Record App := {
  session_state : SessionState;
  app_db : Database;
  wall_clock : Z
}.

(** [ORDER BY created_at DESC]. *)
Definition newer_first (a b : Account) : Prop := created_at b <= created_at a.

#[local] Instance newer_first_dec a b : Decision (newer_first a b).
Proof. unfold newer_first. apply _. Defined.

(** [get_email_accounts]. *)
Definition get_email_accounts (d : Database) : list Account :=
  merge_sort newer_first (email_accounts d).

(** [run_automatic_check_for_account]: a fresh [EmailMonitor] on the
    shared database runs the default pass; its report, or an exception, is
    only logged. Building the monitor builds a [SpamDatabase], whose
    [initialize_catalogs] writes to the catalog tables only; these and the
    log are outside the model. *)
Definition run_automatic_check_for_account (net : Network) (account_id : Z)
    (account : Account) (app : App) : App :=
  let monitor := {| db := app_db app; connection := None; clock := wall_clock app |} in
  let '(monitor, outcome) :=
    process_account_emails net account_id (max_emails_per_check account) false false monitor in
  let after :=
    {| session_state := session_state app;
       app_db := db monitor;
       wall_clock := clock monitor |} in
  match outcome with
  | Ok result => if success result then after else after
  | Raised _ => after
  end.

Definition set_checking (who : option string) (since : option Z) (app : App) : App :=
  {| session_state :=
       {| auto_check_enabled := auto_check_enabled (session_state app);
          last_auto_check := last_auto_check (session_state app);
          current_checking_account := who;
          check_start_time := since |};
     app_db := app_db app;
     wall_clock := wall_clock app |}.

Definition set_last_auto_check (account_id current_time : Z) (app : App) : App :=
  {| session_state :=
       {| auto_check_enabled := auto_check_enabled (session_state app);
          last_auto_check := <[account_id := current_time]> (last_auto_check (session_state app));
          current_checking_account := current_checking_account (session_state app);
          check_start_time := check_start_time (session_state app) |};
     app_db := app_db app;
     wall_clock := wall_clock app |}.

(** The body of [for account in accounts]. The second component lists
    the accounts for which a check was started, in order; its length is
    [scheduled_checks]. *)
Definition check_account (net : Network) (current_time : Z)
    (st : App * list Z) (account : Account) : App * list Z :=
  let '(app, scheduled) := st in
  if negb (is_active account) then st
  else
    let account_id := id account in
    let check_interval := check_interval account * 60 in
    let last_check := default 0 (last_auto_check (session_state app) !! account_id) in
    let time_since_last_check := current_time - last_check in
    if check_interval <=? time_since_last_check then
      let app := set_checking (Some (email account)) (Some current_time) app in
      let app := run_automatic_check_for_account net account_id account app in
      let app := set_last_auto_check account_id current_time app in
      let app := set_checking None None app in
      (app, scheduled ++ [account_id])
    else st.

(** [run_automatic_checks]. *)
Definition run_automatic_checks (net : Network) (app : App) : App * list Z :=
  if negb (auto_check_enabled (session_state app)) then (app, [])
  else
    let accounts := get_email_accounts (app_db app) in
    let current_time := wall_clock app in
    fold_left (check_account net current_time) accounts (app, []).

(** ** The specification's wording, for comparison with the code *)

Module Spec.

(** The scorer as the ordered rule table of the specification, with
    binary64 increments. *)
Definition rule_table : list ((Features -> bool) * float) :=
  [ (fun f => Py.fgt (caps_ratio f) 0.3%float, 0.2%float);
    (fun f => 3 <? exclamation_count f, 0.15%float);
    (fun f => 0 <? urgent_words f, 0.25%float);
    (fun f => 2 <? spam_words f, 0.2%float);
    (fun f => has_suspicious_domain f, 0.3%float);
    (fun f => 5 <? has_many_links f, 0.1%float) ].

Definition score (f : Features) : float :=
  fold_left (fun (s : float) (rule : (Features -> bool) * float) =>
               if fst rule f then PrimFloat.add s (snd rule) else s)
            rule_table 0%float.

(** The same table read in exact decimal arithmetic. *)
Definition decimal_table : list ((Features -> bool) * Q) :=
  [ (fun f => Py.fgt (caps_ratio f) 0.3%float, 20 # 100);
    (fun f => 3 <? exclamation_count f, 15 # 100);
    (fun f => 0 <? urgent_words f, 25 # 100);
    (fun f => 2 <? spam_words f, 20 # 100);
    (fun f => has_suspicious_domain f, 30 # 100);
    (fun f => 5 <? has_many_links f, 10 # 100) ]%Q.

Definition decimal_score (f : Features) : Q :=
  fold_left (fun (s : Q) (rule : (Features -> bool) * Q) =>
               if fst rule f then Qplus s (snd rule) else s)
            decimal_table 0%Q.

(** [score > 0.6] on the decimal score. *)
Definition decimal_is_spam (f : Features) : bool :=
  negb (Qle_bool (decimal_score f) (6 # 10)).

(** The number of positions of [s] at which [w] occurs. *)
Fixpoint occurrences (w s : string) : Z :=
  (if String.prefix w s then 1 else 0) +
  match s with
  | EmptyString => 0
  | String _ s' => occurrences w s'
  end.

(** Word-count feature as the count of substring occurrences. *)
Definition occurrence_count (ws : list string) (s : string) : Z :=
  fold_right (fun w n => occurrences w s + n) 0 ws.

(** What the code counts: one per listed word that occurs at all. *)
Definition presence_count (ws : list string) (s : string) : Z :=
  fold_right (fun w n => Z.min 1 (occurrences w s) + n) 0 ws.

(** The last [n] entries of a list. *)
Definition last_n {A} (n : nat) (l : list A) : list A := drop (length l - n) l.

(** The text of a message: subject and body. *)
Definition text (subject body : string) : string := (subject ++ body)%string.

(** Number of uppercase characters of the text, and its length. *)
Definition uppercase_count (subject body : string) : Z :=
  Py.count_if Py.isupper (text subject body).

End Spec.

(** ** Sample data *)

Module Sample.

Definition feature_vector (caps : float) (excl urgent spam : Z) (domain : bool) (links : Z)
    : Features :=
  {| subject_length := 0; content_length := 0; total_length := 0;
     caps_ratio := caps;
     exclamation_count := excl; question_count := 0; dollar_count := 0;
     urgent_words := urgent; spam_words := spam;
     has_suspicious_domain := domain;
     has_many_links := links;
     has_attachments := false |}.

Definition info_of (f : Features) : EmailInfo :=
  {| email_id := "1"; subject := ""; sender := ""; to := ""; date := HeaderText "";
     content := ""; features := f; size := 0; info_has_attachments := false |}.

(** All six conditions hold. *)
Definition full_trigger : Features := feature_vector 0.5%float 4 1 3 true 6.

(** Only the uppercase-ratio condition holds. *)
Definition caps_only : Features := feature_vector 0.31%float 0 0 0 false 0.

(** Exclamations, urgent words and spam words, nothing else. *)
Definition three_rules : Features := feature_vector 0%float 4 1 3 false 0.

(** A mailbox with ten unread messages of the last week and twenty read
    messages of the last two days, every one of which can be fetched. *)
Definition message (subject body : string) : Message :=
  {| msg_subject := subject;
     msg_from := "Alice <alice@example.org>";
     msg_to := "bob@example.org";
     msg_date := HeaderText "Wed, 01 Jan 2025 10:00:00 +0000";
     msg_is_multipart := false;
     msg_payload := body;
     msg_parts := [] |}.

Definition unread_ids : list string :=
  ["1"; "2"; "3"; "4"; "5"; "6"; "7"; "8"; "9"; "10"]%string.

Definition read_ids : list string :=
  ["11"; "12"; "13"; "14"; "15"; "16"; "17"; "18"; "19"; "20";
   "21"; "22"; "23"; "24"; "25"; "26"; "27"; "28"; "29"; "30"]%string.

Definition mailbox : Connection :=
  {| conn_state_attr := None;
     conn_select := Answer true tt;
     conn_search := fun key =>
       match key with
       | UNSEEN_SINCE _ | UNSEEN => Answer true unread_ids
       | SEEN_SINCE _ => Answer true read_ids
       | ALL | SINCE _ => Answer true (unread_ids ++ read_ids)
       end;
     conn_fetch := fun email_id => Answer true (message email_id "hello");
     conn_logout := Answer true tt;
     conn_close := Failure;
     conn_seconds := 3 |}.

(** A mailbox in which nothing is found. *)
Definition empty_mailbox : Connection :=
  {| conn_state_attr := Some "AUTH"%string;
     conn_select := Answer true tt;
     conn_search := fun _ => Answer true [];
     conn_fetch := fun _ => Failure;
     conn_logout := Failure;
     conn_close := Failure;
     conn_seconds := 3 |}.

Definition account : Account :=
  {| id := 1; email := "bob@example.org"; password := "secret";
     server := "imap.example.org"; port := 993; protocol := "IMAP";
     is_active := true; check_interval := 15; max_emails_per_check := 12;
     created_at := 0; last_check_at := None;
     total_emails_checked := 0; total_spam_detected := 0 |}.

Definition database : Database :=
  {| email_accounts := [account];
     analyzed_emails := [];
     email_features := [];
     analyzed_emails_seq := 0 |}.

Definition net : Network := fun _ _ _ _ => Accepted mailbox.

Definition empty_net : Network := fun _ _ _ _ => Accepted empty_mailbox.

Definition monitor : EmailMonitor :=
  {| db := database; connection := None; clock := 1000 |}.

(** A dashboard whose only account was last checked [ago] seconds before
    the wall clock. *)
Definition app (ago : Z) : App :=
  {| session_state :=
       {| auto_check_enabled := true;
          last_auto_check := {[ 1 := 100000 - ago ]};
          current_checking_account := None;
          check_start_time := None |};
     app_db := database;
     wall_clock := 100000 |}.

End Sample.

(** ** More sample data *)

Module Cases.

(** A mailbox that accepts the login and then fails to select INBOX. *)
Definition unselectable : Connection :=
  {| conn_state_attr := None;
     conn_select := Failure;
     conn_search := fun _ => Answer true Sample.unread_ids;
     conn_fetch := fun email_id => Answer true (Sample.message email_id "hello");
     conn_logout := Answer true tt;
     conn_close := Answer true tt;
     conn_seconds := 1 |}.

Definition unselectable_net : Network := fun _ _ _ _ => Accepted unselectable.

(** A mailbox whose unread and read searches return the same message:
    message 7 is listed twice in one batch. *)
Definition overlapping : Connection :=
  {| conn_state_attr := None;
     conn_select := Answer true tt;
     conn_search := fun _ => Answer true ["7"%string; "8"%string];
     conn_fetch := fun email_id => Answer true (Sample.message email_id "hello");
     conn_logout := Answer true tt;
     conn_close := Answer true tt;
     conn_seconds := 1 |}.

Definition overlapping_net : Network := fun _ _ _ _ => Accepted overlapping.

(** A server that rejects the login. *)
Definition rejecting_net : Network := fun _ _ _ _ => Rejected Sample.mailbox.

(** A mailbox that does not change: two read messages, 1 and 2, of day 8
    and four unread ones, 3 to 6, of day 9. A search with a date lists the
    messages of that day or later. *)
Definition dated : Connection :=
  {| conn_state_attr := None;
     conn_select := Answer true tt;
     conn_search := fun key =>
       let unread := ["3"; "4"; "5"; "6"]%string in
       let read := ["1"; "2"]%string in
       match key with
       | ALL => Answer true (read ++ unread)
       | UNSEEN => Answer true unread
       | SINCE day =>
           Answer true ((if day <=? 8 then read else []) ++ (if day <=? 9 then unread else []))
       | UNSEEN_SINCE day => Answer true (if day <=? 9 then unread else [])
       | SEEN_SINCE day => Answer true (if day <=? 8 then read else [])
       end;
     conn_fetch := fun email_id => Answer true (Sample.message email_id "hello");
     conn_logout := Answer true tt;
     conn_close := Answer true tt;
     conn_seconds := 1 |}.

Definition dated_net : Network := fun _ _ _ _ => Accepted dated.

(** The sample monitor at the start of day 10. *)
Definition day_ten : EmailMonitor :=
  {| db := Sample.database; connection := None; clock := 10 * 86400 |}.

(** A message whose Date header holds a byte outside ASCII: [get('Date')]
    gives a [Header] object for it. *)
Definition raw_date_message : Message :=
  {| msg_subject := "hola";
     msg_from := "Alice <alice@example.org>";
     msg_to := "bob@example.org";
     msg_date := HeaderObject ("mi" ++ String "233"%char "rcoles, 1 ene 2025 10:00:00");
     msg_is_multipart := false;
     msg_payload := "hola";
     msg_parts := [] |}.

(** A mailbox whose only message, unread, is that one. *)
Definition raw_date : Connection :=
  {| conn_state_attr := None;
     conn_select := Answer true tt;
     conn_search := fun key =>
       match key with
       | SEEN_SINCE _ => Answer true []
       | _ => Answer true ["9"%string]
       end;
     conn_fetch := fun _ => Answer true raw_date_message;
     conn_logout := Answer true tt;
     conn_close := Answer true tt;
     conn_seconds := 1 |}.

Definition raw_date_net : Network := fun _ _ _ _ => Accepted raw_date.

(** The sample account with a check stored 14 minutes before second
    100000. *)
Definition checked_account : Account := checked (100000 - 14 * 60) 0 0 Sample.account.

(** A dashboard session that has just started, at second 100000: no
    automatic check is recorded in it yet. *)
Definition fresh_app : App :=
  {| session_state :=
       {| auto_check_enabled := true;
          last_auto_check := ∅;
          current_checking_account := None;
          check_start_time := None |};
     app_db :=
       {| email_accounts := [checked_account];
          analyzed_emails := [];
          email_features := [];
          analyzed_emails_seq := 0 |};
     wall_clock := 100000 |}.

End Cases.

(** Two account rows agree on everything the configuration owns. *)
Definition same_settings (a a' : Account) : Prop :=
  id a' = id a /\ email a' = email a /\ password a' = password a /\
  server a' = server a /\ port a' = port a /\ protocol a' = protocol a /\
  is_active a' = is_active a /\ check_interval a' = check_interval a /\
  max_emails_per_check a' = max_emails_per_check a /\ created_at a' = created_at a.

(** The [sender_domain] column as [store_email_in_database] computes it:
    [sender.split('@')[-1].split('>')[0]], empty for an empty sender. *)
Definition sender_domain_of (sender : string) : string :=
  if negb (String.eqb sender "")
  then Py.before_first ">" (Py.after_last "@" sender)
  else ""%string.

(** [c in s] for one character. *)
Definition has_char (c : ascii) (s : string) : bool :=
  Py.contains (String c EmptyString) s.

(** Row keys were handed out in order, no two rows share one, and the
    feature rows are, one by one, those of the stored mails. *)
Definition rows_in_step (d : Database) : Prop :=
  Forall (fun r => ae_id r <= analyzed_emails_seq d) (analyzed_emails d) /\
  NoDup (map ae_id (analyzed_emails d)) /\
  map ef_email_id (email_features d) = map ae_id (analyzed_emails d).

(** How many of the six rules of the scorer a feature vector triggers. *)
Definition rules_fired (f : Features) : nat :=
  length (List.filter (fun rule : (Features -> bool) * float => fst rule f) Spec.rule_table).

(** The dashboard at a later rerun: the same session and database, the
    wall clock at [t]. *)
Definition at_time (t : Z) (app : App) : App :=
  {| session_state := session_state app; app_db := app_db app; wall_clock := t |}.

(** ** The dashboard's edits of the tables ([app.py]) *)

(** The dashboard on another state of the database file. *)
Definition with_db (d : Database) (app : App) : App :=
  {| session_state := session_state app; app_db := d; wall_clock := wall_clock app |}.

(** [SET is_spam = ?, confidence = 1.0]. *)
Definition reclassified (is_spam : bool) (r : AnalyzedEmail) : AnalyzedEmail :=
  {| ae_id := ae_id r; ae_account_id := ae_account_id r; ae_email_id := ae_email_id r;
     ae_subject := ae_subject r; ae_sender := ae_sender r;
     ae_sender_domain := ae_sender_domain r; ae_recipient := ae_recipient r;
     ae_content := ae_content r; ae_content_length := ae_content_length r;
     ae_email_size := ae_email_size r; ae_has_attachments := ae_has_attachments r;
     ae_attachment_count := ae_attachment_count r;
     ae_is_spam := is_spam;
     ae_confidence := 1.0;
     ae_spam_score := ae_spam_score r;
     ae_processed_at := ae_processed_at r; ae_received_at := ae_received_at r |}.

(** [update_email_classification]: [UPDATE analyzed_emails SET is_spam = ?,
    confidence = 1.0 WHERE id = ?]; no constraint of the schema can fail. *)
Definition update_email_classification (email_id : Z) (is_spam : bool) (d : Database)
    : Database :=
  {| email_accounts := email_accounts d;
     analyzed_emails :=
       map (fun r => if ae_id r =? email_id then reclassified is_spam r else r)
           (analyzed_emails d);
     email_features := email_features d;
     analyzed_emails_seq := analyzed_emails_seq d |}.

(** [delete_email]: [DELETE FROM analyzed_emails WHERE id = ?]. Foreign
    keys are enforced ([PRAGMA foreign_keys = ON]): [email_features] and
    [email_spam_categories] reference [analyzed_emails(id)] without an
    [ON DELETE] action, so the statement fails while a row of either refers
    to the mail; the exception is caught and only reported. The first
    argument is the [email_id] column of [email_spam_categories]; the rows
    of [user_feedback] (cascade) and [training_examples] (set null) are not
    modelled. The result tells whether the success notice is shown. *)
Definition delete_email (email_spam_categories : list Z) (email_id : Z) (d : Database)
    : Database * bool :=
  let deleted := existsb (fun r => ae_id r =? email_id) (analyzed_emails d) in
  let referenced :=
    existsb (fun f => ef_email_id f =? email_id) (email_features d)
    || existsb (fun i => i =? email_id) email_spam_categories in
  if deleted && referenced then (d, false)
  else
    ({| email_accounts := email_accounts d;
        analyzed_emails := List.filter (fun r => negb (ae_id r =? email_id)) (analyzed_emails d);
        email_features := email_features d;
        analyzed_emails_seq := analyzed_emails_seq d |}, true).

(** [SET is_active = ?, check_interval = ?, max_emails_per_check = ?]. *)
Definition configured (active : bool) (interval max_emails : Z) (a : Account) : Account :=
  {| id := id a; email := email a; password := password a; server := server a;
     port := port a; protocol := protocol a;
     is_active := active;
     check_interval := interval;
     max_emails_per_check := max_emails;
     created_at := created_at a;
     last_check_at := last_check_at a;
     total_emails_checked := total_emails_checked a;
     total_spam_detected := total_spam_detected a |}.

(** [update_email_account]: [UPDATE email_accounts SET ... WHERE id = ?];
    it returns [True]. *)
Definition update_email_account (account_id : Z) (active : bool) (interval max_emails : Z)
    (d : Database) : Database * bool :=
  ({| email_accounts :=
        map (fun a => if id a =? account_id then configured active interval max_emails a
                      else a)
            (email_accounts d);
      analyzed_emails := analyzed_emails d;
      email_features := email_features d;
      analyzed_emails_seq := analyzed_emails_seq d |}, true).

(** [delete_email_account]: [DELETE FROM email_accounts WHERE id = ?].
    [analyzed_emails] and [spam_statistics] reference [email_accounts(id)]
    without an [ON DELETE] action: the statement fails while a row of either
    refers to the account, and the function returns [False]. The first
    argument is the [account_id] column of [spam_statistics]. *)
Definition delete_email_account (spam_statistics : list Z) (account_id : Z) (d : Database)
    : Database * bool :=
  let deleted := existsb (fun a => id a =? account_id) (email_accounts d) in
  let referenced :=
    existsb (fun r => ae_account_id r =? account_id) (analyzed_emails d)
    || existsb (fun i => i =? account_id) spam_statistics in
  if deleted && referenced then (d, false)
  else
    ({| email_accounts := List.filter (fun a => negb (id a =? account_id)) (email_accounts d);
        analyzed_emails := analyzed_emails d;
        email_features := email_features d;
        analyzed_emails_seq := analyzed_emails_seq d |}, true).

(** ** The visual log of the scheduler ([app.py]) *)

(** An entry of [st.session_state.auto_check_logs]. *)
Record LogEntry := {
  log_timestamp : string;
  log_message : string;
  log_level : string
}.

(** [add_log_entry]; [timestamp] is [datetime.now().strftime("%H:%M:%S")].
    [pop(0)] drops the oldest entry. *)
Definition add_log_entry (timestamp message level : string)
    (auto_check_logs : list LogEntry) : list LogEntry :=
  let log_entry :=
    {| log_timestamp := timestamp; log_message := message; log_level := level |} in
  let auto_check_logs := auto_check_logs ++ [log_entry] in
  if Py.len_gt auto_check_logs 20 then tail auto_check_logs else auto_check_logs.

(** Entries logged one after the other. *)
Definition add_log_entries (entries : list LogEntry) (auto_check_logs : list LogEntry)
    : list LogEntry :=
  fold_left (fun logs e => add_log_entry (log_timestamp e) (log_message e) (log_level e) logs)
            entries auto_check_logs.

(** ** The diagnosis ([email_monitor.py]) *)

(** The dictionary [diagnose_email_processing] returns on success. *)
Record Diagnosis := {
  diag_account_email : string;
  diag_last_check : option Z;
  diag_total_processed : Z;
  diag_total_spam : Z;
  unread_emails : Z;
  recent_read_emails : Z;
  total_recent_emails : Z;
  diag_check_interval : Z;
  diag_max_emails_per_check : Z;
  diag_is_active : bool
}.

(** [{'success': True, ...}] or [{'success': False, 'error': ...}]. *)
Inductive DiagnosisResult :=
| Diagnosed (diagnosis : Diagnosis)
| NotDiagnosed (error : string).

#[local] Open Scope monitor_scope.

(** [diagnose_email_processing]. The status of [select] is not looked at;
    a search counts when its status is OK and it lists a message. Reading
    [account['email']] of a missing row raises a [TypeError], which the
    handler turns into the error text. *)
Definition diagnose_email_processing (net : Network) (account_id : Z) : M DiagnosisResult :=
  try_finally
    (try_except
       (connected <- connect_to_server net account_id ;;
        if negb connected then ret (NotDiagnosed "No se pudo conectar al servidor")
        else
          account <- get (fun self => select_account (db self) account_id) ;;
          match account with
          | None => ret (NotDiagnosed "'NoneType' object is not subscriptable")
          | Some account =>
              conn <- get connection ;;
              conn <- lift (attr conn) ;;
              _ <- lift (imap (conn_select conn)) ;;
              day <- get today ;;
              found <- lift (imap (conn_search conn (UNSEEN_SINCE (day - 7)))) ;;
              let '(ok, unread_ids) := found in
              let unread :=
                if ok && nonempty unread_ids then Z.of_nat (length unread_ids) else 0 in
              found <- lift (imap (conn_search conn (SEEN_SINCE (day - 2)))) ;;
              let '(ok, read_ids) := found in
              let recent_read :=
                if ok && nonempty read_ids then Z.of_nat (length read_ids) else 0 in
              wait (conn_seconds conn) ;;;
              ret (Diagnosed
                     {| diag_account_email := email account;
                        diag_last_check := last_check_at account;
                        diag_total_processed := total_emails_checked account;
                        diag_total_spam := total_spam_detected account;
                        unread_emails := unread;
                        recent_read_emails := recent_read;
                        total_recent_emails := unread + recent_read;
                        diag_check_interval := check_interval account;
                        diag_max_emails_per_check := max_emails_per_check account;
                        diag_is_active := is_active account |})
          end)
       (fun e => ret (NotDiagnosed (str e))))
    disconnect.

#[local] Close Scope monitor_scope.

(** ** Removing duplicate mails ([app.py]) *)

(** The three messages of a successful cleanup: "No hay correos en la
    base de datos", "No hay duplicados para eliminar" and
    "Limpieza completada: n duplicados eliminados". *)
Inductive CleanMessage :=
| NoMails
| NoDuplicates
| Completed (duplicates_removed : Z).

(** The dictionary of a successful cleanup; the early returns carry no
    [details]. *)
Record CleanReport := {
  total_before : Z;
  total_after : Z;
  duplicates_removed : Z;
  details : option (list (string * Z));
  clean_message : CleanMessage
}.

(** [{"success": True, ...}] or [{"success": False, "error": str(e)}]. *)
Inductive CleanResult :=
| Cleaned (report : CleanReport)
| CleanFailed (error : string).

(** [MAX(id)] of a group; a group without rows yields no row. *)
Fixpoint max_id (ids : list Z) : option Z :=
  match ids with
  | [] => None
  | i :: ids => Some (match max_id ids with Some m => Z.max i m | None => i end)
  end.

(** The rows of the group [(account_id, email_id)]. *)
Definition has_key (k : Z * string) (r : AnalyzedEmail) : bool :=
  (ae_account_id r =? fst k) && String.eqb (ae_email_id r) (snd k).

(** [SELECT MAX(id) as keep_id FROM analyzed_emails GROUP BY account_id,
    email_id]: one id per group. *)
Definition keep_ids_of (rows : list AnalyzedEmail) : list Z :=
  omap (fun k => max_id (map ae_id (List.filter (has_key k) rows)))
       (remove_dups (map (fun r => (ae_account_id r, ae_email_id r)) rows)).

(** [id IN (?, ?, ...)]. *)
Definition in_ids (ids : list Z) (i : Z) : bool := existsb (Z.eqb i) ids.

(** [SELECT id FROM analyzed_emails WHERE id NOT IN (keep_ids)]. *)
Definition delete_ids_of (rows : list AnalyzedEmail) : list Z :=
  map ae_id (List.filter (fun r => negb (in_ids (keep_ids_of rows) (ae_id r))) rows).

(** [ORDER BY ea.email]. *)
Definition by_email (x y : string * Z) : Prop := String.leb (fst x) (fst y) = true.

#[local] Instance by_email_dec x y : Decision (by_email x y).
Proof. unfold by_email. apply _. Defined.

(** [SELECT ea.email, COUNT( * ) FROM analyzed_emails ae JOIN email_accounts
    ea ON ae.account_id = ea.id GROUP BY ae.account_id, ea.email ORDER BY
    ea.email]. *)
Definition account_details (d : Database) : list (string * Z) :=
  let joined :=
    flat_map (fun r => map (fun a => (ae_account_id r, email a))
                           (List.filter (fun a => id a =? ae_account_id r) (email_accounts d)))
             (analyzed_emails d) in
  merge_sort by_email
    (map (fun g => (snd g,
                    Z.of_nat (length (List.filter (fun j => bool_decide (j = g)) joined))))
         (remove_dups joined)).

(** [clean_duplicate_emails]. A statement with more than [max_variables]
    parameters ([SQLITE_MAX_VARIABLE_NUMBER] of the SQLite library in use:
    999 before 3.32, 32766 since) fails with "too many SQL variables"; the
    four [DELETE] statements carry the same parameters, so the first one
    decides. The rows of [email_spam_categories] and [user_feedback] that
    are deleted with the mails are not modelled; the references of
    [training_examples] are set to NULL by the schema. *)
Definition clean_duplicate_emails (max_variables : Z) (d : Database)
    : Database * CleanResult :=
  let total_before := Z.of_nat (length (analyzed_emails d)) in
  if total_before =? 0 then
    (d, Cleaned {| total_before := 0; total_after := 0; duplicates_removed := 0;
                   details := None; clean_message := NoMails |})
  else
    let keep_ids := keep_ids_of (analyzed_emails d) in
    if Py.len_gt keep_ids max_variables then (d, CleanFailed "too many SQL variables")
    else
      let delete_ids := delete_ids_of (analyzed_emails d) in
      if negb (nonempty delete_ids) then
        (d, Cleaned {| total_before := total_before; total_after := total_before;
                       duplicates_removed := 0;
                       details := None; clean_message := NoDuplicates |})
      else if Py.len_gt delete_ids max_variables then
        (d, CleanFailed "too many SQL variables")
      else
        let d :=
          {| email_accounts := email_accounts d;
             analyzed_emails :=
               List.filter (fun r => negb (in_ids delete_ids (ae_id r))) (analyzed_emails d);
             email_features :=
               List.filter (fun f => negb (in_ids delete_ids (ef_email_id f)))
                           (email_features d);
             analyzed_emails_seq := analyzed_emails_seq d |} in
        let total_after := Z.of_nat (length (analyzed_emails d)) in
        let duplicates_removed := total_before - total_after in
        (d, Cleaned {| total_before := total_before; total_after := total_after;
                       duplicates_removed := duplicates_removed;
                       details := Some (account_details d);
                       clean_message := Completed duplicates_removed |}).

(** A row is the newest of its mail: no row of the same account and
    message has a larger key. *)
Definition newest (rows : list AnalyzedEmail) (r : AnalyzedEmail) : Prop :=
  forall r', r' ∈ rows ->
    ae_account_id r' = ae_account_id r -> ae_email_id r' = ae_email_id r ->
    ae_id r' <= ae_id r.

(** A table with a duplicate: message 7 of account 1 is stored under the
    keys 1 and 3. *)
Module Duplicates.

Definition row (key : Z) (email_id : string) : AnalyzedEmail :=
  {| ae_id := key; ae_account_id := 1; ae_email_id := email_id;
     ae_subject := "hello"; ae_sender := "bob@example.org";
     ae_sender_domain := "example.org"; ae_recipient := "me@example.org";
     ae_content := "hello"; ae_content_length := 5; ae_email_size := 5;
     ae_has_attachments := false; ae_attachment_count := 0;
     ae_is_spam := false; ae_confidence := 0%float; ae_spam_score := 0%float;
     ae_processed_at := 1000; ae_received_at := "" |}.

Definition database : Database :=
  {| email_accounts := [Sample.account];
     analyzed_emails := [row 1 "7"; row 2 "8"; row 3 "7"];
     email_features :=
       map (fun key =>
              {| ef_email_id := key;
                 ef_columns := _extract_spam_features "hello" "bob@example.org" "hello" None;
                 ef_extracted_at := 1000 |})
           [1; 2; 3];
     analyzed_emails_seq := 3 |}.

End Duplicates.

(** ** The mail servers of the configuration ([config.py]) *)

(** An entry of [Config.EMAIL_SERVERS]. *)
Record ServerConfig := {
  imap_server : string;
  imap_port : Z;
  smtp_server : string;
  smtp_port : Z;
  requires_ssl : bool
}.

Definition email_server_table : list (string * ServerConfig) :=
  [("gmail.com"%string,
    {| imap_server := "imap.gmail.com"; imap_port := 993;
       smtp_server := "smtp.gmail.com"; smtp_port := 587; requires_ssl := true |});
   ("outlook.com"%string,
    {| imap_server := "outlook.office365.com"; imap_port := 993;
       smtp_server := "smtp-mail.outlook.com"; smtp_port := 587; requires_ssl := true |});
   ("yahoo.com"%string,
    {| imap_server := "imap.mail.yahoo.com"; imap_port := 993;
       smtp_server := "smtp.mail.yahoo.com"; smtp_port := 587; requires_ssl := true |});
   ("hotmail.com"%string,
    {| imap_server := "outlook.office365.com"; imap_port := 993;
       smtp_server := "smtp-mail.outlook.com"; smtp_port := 587; requires_ssl := true |})].

(** [Config.EMAIL_SERVERS]. *)
Definition EMAIL_SERVERS : gmap string ServerConfig := list_to_map email_server_table.

(** [Config.get_email_server_config]. *)
Definition get_email_server_config (email_domain : string) : ServerConfig :=
  let domain := Py.lower (Py.after_last "@" email_domain) in
  match EMAIL_SERVERS !! domain with
  | Some server => server
  | None =>
      {| imap_server := "imap." ++ domain; imap_port := 993;
         smtp_server := "smtp." ++ domain; smtp_port := 587; requires_ssl := true |}
  end.

(** ** A check forced from the dashboard ([app.py]) *)

(** The dictionary [force_email_check] returns. *)
Inductive ForcedCheck :=
| CheckDone (account_email : string)
    (emails_found spam_detected ham_detected processing_time : Z)
    (emails_detail : list Detail)
| CheckFailed (error : string).

(** [force_email_check]: the row of the account is read, then a fresh
    monitor runs the pass with the batch size of the account. As in
    [run_automatic_check_for_account], building the monitor writes to the
    catalog tables, which are outside the model; for an id without a row no
    monitor is built. *)
Definition force_email_check (net : Network) (account_id : Z) (get_all get_recent : bool)
    (app : App) : App * ForcedCheck :=
  match select_account (app_db app) account_id with
  | None => (app, CheckFailed "Cuenta no encontrada")
  | Some account =>
      let monitor := {| db := app_db app; connection := None; clock := wall_clock app |} in
      let '(monitor, outcome) :=
        process_account_emails net account_id (max_emails_per_check account)
          get_all get_recent monitor in
      let after :=
        {| session_state := session_state app;
           app_db := db monitor;
           wall_clock := clock monitor |} in
      match outcome with
      | Ok result =>
          if success result then
            (after, CheckDone (email account) (emails_processed result)
                      (spam_detected result) (ham_detected result)
                      (processing_time result)
                      (default [] (emails_detail result)))
          else (after, CheckFailed (default "Error desconocido"%string (error result)))
      | Raised e => (after, CheckFailed (str e))
      end
  end.

(** ** Models and training examples ([database.py]) *)

(** A row of [ml_models]. *)
Record MlModel := {
  ml_id : Z;
  ml_name : string;
  ml_description : string;
  ml_model_type : string;
  ml_algorithm : string;
  ml_is_active : bool;
  ml_accuracy : float;
  total_examples : Z;
  ml_created_at : Z;
  ml_last_trained_at : option Z;
  ml_model_config : option string;
  ml_model_file_path : option string
}.

(** A row of [training_examples]. *)
Record TrainingExample := {
  te_id : Z;
  te_model_id : Z;
  te_title : string;
  te_content : string;
  te_classification : bool;
  te_source_type : string;
  te_email_id : option Z;
  te_features_extracted : option string;
  te_created_at : Z;
  te_created_by : string;
  te_is_validated : bool
}.

(** The two tables with their AUTOINCREMENT counters. *)
Record TrainingStore := {
  ml_models : list MlModel;
  ml_models_seq : Z;
  training_examples : list TrainingExample;
  training_examples_seq : Z
}.

(** [create_ml_model]: [name] is UNIQUE; the exception is raised again.
    [model_config] is the JSON text of a dictionary that is not empty. *)
Definition create_ml_model (now : Z) (name description model_type algorithm : string)
    (model_config : option string) (s : TrainingStore) : result (TrainingStore * Z) :=
  if existsb (fun m => String.eqb (ml_name m) name) (ml_models s) then Raised IntegrityError
  else
    let model_id := ml_models_seq s + 1 in
    Ok ({| ml_models :=
             ml_models s ++
             [{| ml_id := model_id; ml_name := name; ml_description := description;
                 ml_model_type := model_type; ml_algorithm := algorithm;
                 ml_is_active := true; ml_accuracy := 0.0; total_examples := 0;
                 ml_created_at := now; ml_last_trained_at := None;
                 ml_model_config := model_config; ml_model_file_path := None |}];
           ml_models_seq := model_id;
           training_examples := training_examples s;
           training_examples_seq := training_examples_seq s |}, model_id).

(** The keyword arguments [update_ml_model] accepts; other names are
    ignored. *)
Record ModelUpdate := {
  set_name : option string;
  set_description : option string;
  set_model_type : option string;
  set_algorithm : option string;
  set_is_active : option bool;
  set_accuracy : option float;
  set_total_examples : option Z;
  set_model_config : option string;
  set_model_file_path : option string
}.

(** [if not fields]. *)
Definition no_fields (u : ModelUpdate) : bool :=
  match u with
  | {| set_name := None; set_description := None; set_model_type := None;
       set_algorithm := None; set_is_active := None; set_accuracy := None;
       set_total_examples := None; set_model_config := None;
       set_model_file_path := None |} => true
  | _ => false
  end.

(** [UPDATE ml_models SET field = ?, ...] on one row. *)
Definition updated (u : ModelUpdate) (m : MlModel) : MlModel :=
  {| ml_id := ml_id m;
     ml_name := default (ml_name m) (set_name u);
     ml_description := default (ml_description m) (set_description u);
     ml_model_type := default (ml_model_type m) (set_model_type u);
     ml_algorithm := default (ml_algorithm m) (set_algorithm u);
     ml_is_active := default (ml_is_active m) (set_is_active u);
     ml_accuracy := default (ml_accuracy m) (set_accuracy u);
     total_examples := default (total_examples m) (set_total_examples u);
     ml_created_at := ml_created_at m;
     ml_last_trained_at := ml_last_trained_at m;
     ml_model_config :=
       match set_model_config u with Some c => Some c | None => ml_model_config m end;
     ml_model_file_path :=
       match set_model_file_path u with Some p => Some p | None => ml_model_file_path m end |}.

(** [update_ml_model]: a name another model carries violates UNIQUE; the
    exception is caught and [False] returned. *)
Definition update_ml_model (model_id : Z) (u : ModelUpdate) (s : TrainingStore)
    : TrainingStore * bool :=
  if no_fields u then (s, false)
  else
    let name_taken :=
      match set_name u with
      | Some name =>
          existsb (fun m => ml_id m =? model_id) (ml_models s)
          && existsb (fun m => negb (ml_id m =? model_id) && String.eqb (ml_name m) name)
                     (ml_models s)
      | None => false
      end in
    if name_taken then (s, false)
    else
      ({| ml_models := map (fun m => if ml_id m =? model_id then updated u m else m)
                           (ml_models s);
          ml_models_seq := ml_models_seq s;
          training_examples := training_examples s;
          training_examples_seq := training_examples_seq s |}, true).

(** [delete_ml_model]: the examples of a deleted model go with it
    ([ON DELETE CASCADE]). *)
Definition delete_ml_model (model_id : Z) (s : TrainingStore) : TrainingStore * bool :=
  ({| ml_models := List.filter (fun m => negb (ml_id m =? model_id)) (ml_models s);
      ml_models_seq := ml_models_seq s;
      training_examples :=
        if existsb (fun m => ml_id m =? model_id) (ml_models s)
        then List.filter (fun e => negb (te_model_id e =? model_id)) (training_examples s)
        else training_examples s;
      training_examples_seq := training_examples_seq s |}, true).

(** [SET total_examples = total_examples + n WHERE id = ?]. *)
Definition count_examples (n model_id : Z) (m : MlModel) : MlModel :=
  if ml_id m =? model_id then
    {| ml_id := ml_id m; ml_name := ml_name m; ml_description := ml_description m;
       ml_model_type := ml_model_type m; ml_algorithm := ml_algorithm m;
       ml_is_active := ml_is_active m; ml_accuracy := ml_accuracy m;
       total_examples := total_examples m + n;
       ml_created_at := ml_created_at m; ml_last_trained_at := ml_last_trained_at m;
       ml_model_config := ml_model_config m;
       ml_model_file_path := ml_model_file_path m |}
  else m.

(** [add_training_example]: the model must exist and so must the mail, if
    one is given ([analyzed_ids] are the keys of [analyzed_emails]); the
    exception is raised again. [features_extracted] is the JSON text of a
    dictionary that is not empty. *)
Definition add_training_example (now : Z) (analyzed_ids : list Z) (model_id : Z)
    (title content : string) (classification : bool) (source_type : string)
    (email_id : option Z) (features_extracted : option string) (s : TrainingStore)
    : result (TrainingStore * Z) :=
  let model_exists := existsb (fun m => ml_id m =? model_id) (ml_models s) in
  let email_exists :=
    match email_id with Some i => in_ids analyzed_ids i | None => true end in
  if negb (model_exists && email_exists) then Raised IntegrityError
  else
    let example_id := training_examples_seq s + 1 in
    Ok ({| ml_models := map (count_examples 1 model_id) (ml_models s);
           ml_models_seq := ml_models_seq s;
           training_examples :=
             training_examples s ++
             [{| te_id := example_id; te_model_id := model_id; te_title := title;
                 te_content := content; te_classification := classification;
                 te_source_type := source_type; te_email_id := email_id;
                 te_features_extracted := features_extracted;
                 te_created_at := now; te_created_by := "system";
                 te_is_validated := false |}];
           training_examples_seq := example_id |}, example_id).

(** [delete_training_example]. *)
Definition delete_training_example (example_id : Z) (s : TrainingStore)
    : TrainingStore * bool :=
  match List.find (fun e => te_id e =? example_id) (training_examples s) with
  | Some row =>
      let model_id := te_model_id row in
      ({| ml_models := map (count_examples (-1) model_id) (ml_models s);
          ml_models_seq := ml_models_seq s;
          training_examples :=
            List.filter (fun e => negb (te_id e =? example_id)) (training_examples s);
          training_examples_seq := training_examples_seq s |}, true)
  | None => (s, false)
  end.

(** The calls of the dashboard on the two tables, and their effect on the
    store (an exception leaves it as it was). *)
Inductive TrainingCall :=
| CreateModel (now : Z) (name description model_type algorithm : string)
    (model_config : option string)
| UpdateModel (model_id : Z) (u : ModelUpdate)
| DeleteModel (model_id : Z)
| AddExample (now : Z) (analyzed_ids : list Z) (model_id : Z) (title content : string)
    (classification : bool) (source_type : string) (email_id : option Z)
    (features_extracted : option string)
| DeleteExample (example_id : Z).

Definition training_call (s : TrainingStore) (c : TrainingCall) : TrainingStore :=
  match c with
  | CreateModel now name description model_type algorithm model_config =>
      match create_ml_model now name description model_type algorithm model_config s with
      | Ok (s', _) => s'
      | Raised _ => s
      end
  | UpdateModel model_id u => fst (update_ml_model model_id u s)
  | DeleteModel model_id => fst (delete_ml_model model_id s)
  | AddExample now analyzed_ids model_id title content classification source_type
      email_id features_extracted =>
      match add_training_example now analyzed_ids model_id title content classification
              source_type email_id features_extracted s with
      | Ok (s', _) => s'
      | Raised _ => s
      end
  | DeleteExample example_id => fst (delete_training_example example_id s)
  end.

(** The call does not write the counter itself. *)
Definition leaves_counter (c : TrainingCall) : Prop :=
  match c with
  | UpdateModel _ u => set_total_examples u = None
  | _ => True
  end.

(** The tables of a new database. *)
Definition empty_store : TrainingStore :=
  {| ml_models := []; ml_models_seq := 0;
     training_examples := []; training_examples_seq := 0 |}.

(** [SELECT COUNT( * ) FROM training_examples WHERE model_id = ?]. *)
Definition count_of_examples (model_id : Z) (s : TrainingStore) : Z :=
  Z.of_nat (length (List.filter (fun e => te_model_id e =? model_id) (training_examples s))).

(** The counters agree with the examples, the keys were handed out in
    order, and every example belongs to a model. *)
Definition counted (s : TrainingStore) : Prop :=
  Forall (fun m => total_examples m = count_of_examples (ml_id m) s) (ml_models s) /\
  Forall (fun m => ml_id m <= ml_models_seq s) (ml_models s) /\
  NoDup (map te_id (training_examples s)) /\
  Forall (fun e => te_id e <= training_examples_seq s) (training_examples s) /\
  Forall (fun e => te_model_id e ∈ map ml_id (ml_models s)) (training_examples s).

(** * Properties *)

(** ** Strings *)

Lemma isupper_lower_char (c : ascii) : Py.isupper (Py.lower_char c) = false.
Proof.
  destruct c as [[] [] [] [] [] [] [] []]; vm_compute; reflexivity.
Qed.

Lemma count_isupper_lower (s : string) : Py.count_if Py.isupper (Py.lower s) = 0.
Proof.
  induction s as [|c s IH]; [reflexivity|].
  cbn [Py.lower Py.count_if]. rewrite isupper_lower_char, IH. reflexivity.
Qed.

Lemma length_lower (s : string) : String.length (Py.lower s) = String.length s.
Proof.
  induction s as [|c s IH]; [reflexivity|]. cbn [Py.lower String.length]. now rewrite IH.
Qed.

Lemma length_append (s t : string) :
  String.length (s ++ t)%string = (String.length s + String.length t)%nat.
Proof.
  induction s as [|c s IH]; [reflexivity|].
  change (S (String.length (s ++ t)%string) = S (String.length s + String.length t)).
  now rewrite IH.
Qed.

Lemma len_full_text (subject content : string) :
  Py.len (Py.lower (subject ++ " " ++ content)) = Py.len subject + Py.len content + 1.
Proof.
  unfold Py.len. rewrite length_lower, !length_append. cbn [String.length]. lia.
Qed.

Lemma full_text_nonempty (subject content : string) :
  String.eqb (Py.lower (subject ++ " " ++ content)) "" = false.
Proof.
  destruct subject; reflexivity.
Qed.

Lemma occurrences_nonneg (w s : string) : 0 <= Spec.occurrences w s.
Proof.
  induction s as [|c s IH]; cbn [Spec.occurrences]; destruct (String.prefix w _); lia.
Qed.

Lemma contains_occurrences (w s : string) :
  Py.contains w s = true <-> 1 <= Spec.occurrences w s.
Proof.
  induction s as [|c s IH]; cbn [Py.contains Spec.occurrences].
  - destruct (String.prefix w ""); cbn; split; intros; try lia; congruence.
  - pose proof (occurrences_nonneg w s).
    destruct (String.prefix w (String c s)); cbn [orb].
    + split; intros; [lia | reflexivity].
    + rewrite IH. lia.
Qed.

Lemma count_present_presence (ws : list string) (s : string) :
  Py.count_present ws s = Spec.presence_count ws s.
Proof.
  unfold Py.count_present.
  induction ws as [|w ws IH]; [reflexivity|].
  cbn [Spec.presence_count fold_right]. fold (Spec.presence_count ws s).
  rewrite <- IH, filter_cons.
  pose proof (occurrences_nonneg w s). pose proof (contains_occurrences w s) as Hc.
  destruct (decide (Py.contains w s = true)) as [Hy|Hn].
  - apply Hc in Hy. cbn [length]. lia.
  - assert (Spec.occurrences w s = 0) by (destruct (Z.le_gt_cases 1 (Spec.occurrences w s)); [tauto | lia]).
    lia.
Qed.

Lemma presence_count_bounds (ws : list string) (s : string) :
  0 <= Spec.presence_count ws s <= Z.of_nat (length ws).
Proof.
  induction ws as [|w ws IH]; cbn [Spec.presence_count fold_right length]; [lia|].
  fold (Spec.presence_count ws s). pose proof (occurrences_nonneg w s). lia.
Qed.

(** ** Feature extraction *)

(** C4 (the code departs from the claim). The uppercase ratio is computed
    on the text after [lower()]: for a subject and a body of ASCII text,
    whatever their capital letters, [caps_ratio] is 0.0, not the share of
    uppercase characters of subject and body. *)
Theorem caps_ratio_of_lowered_text (subject sender content : string)
    (email_message : option Message) :
  Py.isascii subject = true ->
  Py.isascii content = true ->
  caps_ratio (_extract_spam_features subject sender content email_message) = 0%float.
Proof.
  intros _ _. unfold _extract_spam_features. cbn [caps_ratio].
  rewrite full_text_nonempty. cbn [negb].
  rewrite count_isupper_lower, len_full_text.
  unfold Py.truediv.
  assert (0 <= Py.len subject) by (unfold Py.len; lia).
  assert (0 <= Py.len content) by (unfold Py.len; lia).
  destruct (Z.eqb_spec (Py.len subject + Py.len content + 1) 0); [lia | reflexivity].
Qed.

(** The failing input of C4: for the subject "HELLO" and an empty body
    all five characters of the text are uppercase, and the feature is 0.0. *)
Lemma caps_ratio_of_lowered_text_HELLO :
  Spec.uppercase_count "HELLO" "" = 5 /\
  Py.len (Spec.text "HELLO" "") = 5 /\
  caps_ratio (_extract_spam_features "HELLO" "" "" None) = 0%float.
Proof.
  split; [reflexivity|]. split; [reflexivity|].
  apply (caps_ratio_of_lowered_text "HELLO" "" "" None); reflexivity.
Defined.

(** C5, as stated, fails: on empty input [total_length] is 1, not 0. *)
Lemma empty_input_total_length_not_zero :
  total_length (_extract_spam_features "" "" "" None) <> 0.
Proof. vm_compute. discriminate. Qed.

(** C5 (amended). Feature extraction always yields a feature vector; on
    empty input every field is zero or false except [total_length], which is
    1: the analysed text is subject + " " + content, and the separating
    space is counted. *)
Theorem extract_spam_features_empty_input :
  _extract_spam_features "" "" "" None =
    {| subject_length := 0; content_length := 0; total_length := 1;
       caps_ratio := 0%float;
       exclamation_count := 0; question_count := 0; dollar_count := 0;
       urgent_words := 0; spam_words := 0;
       has_suspicious_domain := false;
       has_many_links := 0;
       has_attachments := false |}.
Proof. vm_compute. reflexivity. Qed.

(** C6, as stated, fails: a text with the word "free" three times has
    three occurrences of a listed word, and [spam_words] is 1. *)
Lemma free_three_times_counts_once :
  let text := Py.lower ("" ++ " " ++ "free free free") in
  Spec.occurrence_count spam_word_list text = 3 /\
  spam_words (_extract_spam_features "" "" "free free free" None) = 1.
Proof. split; vm_compute; reflexivity. Qed.

(** C6 (amended). The urgent-word and spam-word features are taken on the
    lower-cased text subject + " " + content, by substring search and not by
    tokens; each listed word adds 1 when it occurs at least once, however
    often it occurs, so the features are at most 6 and 8. *)
Theorem word_features_count_words_present (subject sender content : string)
    (email_message : option Message) :
  let f := _extract_spam_features subject sender content email_message in
  let text := Py.lower (subject ++ " " ++ content) in
  urgent_words f = Spec.presence_count urgent_word_list text /\
  spam_words f = Spec.presence_count spam_word_list text /\
  0 <= urgent_words f <= 6 /\
  0 <= spam_words f <= 8.
Proof.
  cbn zeta. cbn [_extract_spam_features urgent_words spam_words].
  rewrite !count_present_presence.
  pose proof (presence_count_bounds urgent_word_list
                (Py.lower (subject ++ " " ++ content))) as Hu.
  pose proof (presence_count_bounds spam_word_list
                (Py.lower (subject ++ " " ++ content))) as Hs.
  cbn [length urgent_word_list spam_word_list] in Hu, Hs.
  repeat split; lia.
Qed.

(** ** Scoring *)

(** C3, as stated, fails. Read in exact decimals the vector that triggers
    the exclamation, urgent-word and spam-word rules scores 0.60 and is not
    spam; the code adds binary64 numbers, reaches 0.6000000000000001 and
    reports spam. Likewise the full-trigger score is not the float 1.2 and
    the confidence of the uppercase-only vector is not the float 0.3. *)
Lemma three_rules_spam_only_in_binary64 :
  Qeq_bool (Spec.decimal_score Sample.three_rules) (60 # 100) = true /\
  Spec.decimal_is_spam Sample.three_rules = false /\
  is_spam (analyze_email_spam (Sample.info_of Sample.three_rules)) = true /\
  PrimFloat.eqb (spam_score (analyze_email_spam (Sample.info_of Sample.full_trigger)))
                1.2%float = false /\
  PrimFloat.eqb (confidence (analyze_email_spam (Sample.info_of Sample.caps_only)))
                0.3%float = false.
Proof. repeat split; vm_compute; reflexivity. Qed.

(** C3 (amended). The scorer is the additive rule table evaluated in
    binary64, in the order of the table, from 0.0; [is_spam] is
    [score > 0.6] and [confidence] is [min(score * 1.5, 1.0)] on that
    binary64 score. A vector triggering all six rules scores
    1.2000000000000002 (1.20 to within 1e-15), is spam with confidence 1.0;
    a vector triggering only the uppercase rule scores 0.2, is not spam and
    has confidence 0.30000000000000004 (0.30 to within 1e-15). *)
Theorem analyze_email_spam_rule_table (email_info : EmailInfo) :
  let f := features email_info in
  let a := analyze_email_spam email_info in
  spam_score a = Spec.score f /\
  is_spam a = Py.fgt (spam_score a) 0.6%float /\
  confidence a = Py.fmin (PrimFloat.mul (spam_score a) 1.5%float) 1%float /\
  features_used a = f /\
  (Py.fgt (caps_ratio f) 0.3%float = true -> 3 < exclamation_count f ->
   0 < urgent_words f -> 2 < spam_words f ->
   has_suspicious_domain f = true -> 5 < has_many_links f ->
   spam_score a = 1.2000000000000002%float /\
   PrimFloat.leb (PrimFloat.abs (PrimFloat.sub (spam_score a) 1.2%float)) 1e-15%float = true /\
   is_spam a = true /\ confidence a = 1%float) /\
  (Py.fgt (caps_ratio f) 0.3%float = true -> exclamation_count f <= 3 ->
   urgent_words f <= 0 -> spam_words f <= 2 ->
   has_suspicious_domain f = false -> has_many_links f <= 5 ->
   spam_score a = 0.2%float /\ is_spam a = false /\
   confidence a = 0.30000000000000004%float /\
   PrimFloat.leb (PrimFloat.abs (PrimFloat.sub (confidence a) 0.3%float)) 1e-15%float = true).
Proof.
  cbn zeta. unfold analyze_email_spam. cbn [spam_score is_spam confidence features_used].
  do 4 (split; [reflexivity|]).
  split.
  - intros Hc He Hu Hs Hd Hl.
    apply Z.ltb_lt in He, Hu, Hs, Hl. rewrite Hc, He, Hu, Hs, Hd, Hl.
    repeat split; vm_compute; reflexivity.
  - intros Hc He Hu Hs Hd Hl.
    apply Z.ltb_ge in He, Hu, Hs, Hl. rewrite Hc, He, Hu, Hs, Hd, Hl.
    repeat split; vm_compute; reflexivity.
Qed.

(** The full-trigger vector meets the six conditions. *)
Lemma analyze_full_trigger :
  let a := analyze_email_spam (Sample.info_of Sample.full_trigger) in
  spam_score a = 1.2000000000000002%float /\ is_spam a = true /\ confidence a = 1%float.
Proof.
  pose proof (analyze_email_spam_rule_table (Sample.info_of Sample.full_trigger)) as H.
  cbn zeta in H. destruct H as (_ & _ & _ & _ & Hfull & _).
  destruct Hfull as (Hs & _ & Hi & Hc);
    [reflexivity | cbn; lia | cbn; lia | cbn; lia | reflexivity | cbn; lia |].
  cbn zeta. auto.
Defined.

(** The two sample vectors of the specification, scored. *)
Example analyze_samples :
  analyze_email_spam (Sample.info_of Sample.full_trigger) =
    {| is_spam := true; spam_score := 1.2000000000000002%float;
       confidence := 1%float; features_used := Sample.full_trigger |} /\
  analyze_email_spam (Sample.info_of Sample.caps_only) =
    {| is_spam := false; spam_score := 0.2%float;
       confidence := 0.30000000000000004%float; features_used := Sample.caps_only |}.
Proof. split; vm_compute; reflexivity. Qed.

(** ** Closing the connection *)

Lemma guarded_returns (call : Connection -> Reply unit) (conn : Connection)
    (self : EmailMonitor) :
  guarded call conn self = (self, Ok tt).
Proof.
  unfold guarded, try_except, bind, lift, ret, imap.
  destruct (call conn); reflexivity.
Qed.

Lemma disconnect_connected (self : EmailMonitor) (conn : Connection) :
  connection self = Some conn -> disconnect self = (cleared self, Ok tt).
Proof.
  intros Hc. unfold disconnect, bind, get. rewrite Hc.
  unfold try_finally, try_except, bind.
  destruct (conn_state_attr conn) as [state|];
    [destruct (negb (String.eqb state "LOGOUT"))|];
    rewrite ?guarded_returns; cbn; rewrite ?guarded_returns; reflexivity.
Qed.

Lemma disconnect_closed (self : EmailMonitor) :
  connection self = None -> disconnect self = (self, Ok tt).
Proof.
  intros Hc. unfold disconnect, bind, get. rewrite Hc. reflexivity.
Qed.

Lemma disconnect_returns (self : EmailMonitor) :
  exists self', disconnect self = (self', Ok tt) /\
                connection self' = None /\ db self' = db self /\ clock self' = clock self.
Proof.
  destruct (connection self) as [conn|] eqn:Hc.
  - exists (cleared self). rewrite (disconnect_connected _ _ Hc). auto.
  - exists self. rewrite (disconnect_closed _ Hc). auto.
Qed.

(** C9. Whatever the state of the connection, and whether or not
    [logout] and [close] raise, [disconnect] returns without raising and
    leaves [self.connection] cleared; a second call returns as well and
    changes nothing. *)
Theorem disconnect_never_raises_and_is_idempotent (self : EmailMonitor) :
  let '(self1, r1) := disconnect self in
  let '(self2, r2) := disconnect self1 in
  r1 = Ok tt /\ connection self1 = None /\
  db self1 = db self /\ clock self1 = clock self /\
  r2 = Ok tt /\ self2 = self1.
Proof.
  destruct (disconnect_returns self) as (self1 & H1 & Hc & Hd & Ht).
  rewrite H1, (disconnect_closed _ Hc). auto 6.
Qed.

(** A double close after a failed logout and a failed close. *)
Example disconnect_twice_after_failures :
  let self := {| db := Sample.database; connection := Some Sample.empty_mailbox;
                 clock := 0 |} in
  disconnect self = (cleared self, Ok tt) /\
  disconnect (cleared self) = (cleared self, Ok tt).
Proof. split; reflexivity. Qed.

(** ** The hybrid retrieval *)

Lemma slice_last_positive {A} (l : list A) (n : Z) :
  0 < n -> Py.slice_last l n = Spec.last_n (Z.to_nat n) l.
Proof.
  intros Hn. unfold Py.slice_last. apply Z.ltb_lt in Hn. now rewrite Hn.
Qed.

Lemma slice_last_nil {A} (n : Z) : Py.slice_last (@nil A) n = [].
Proof.
  unfold Py.slice_last. destruct (0 <? n); apply drop_nil.
Qed.

Lemma last_n_short {A} (l : list A) (n : nat) :
  (length l <= n)%nat -> Spec.last_n n l = l.
Proof.
  intros Hl. unfold Spec.last_n. replace (length l - n)%nat with 0%nat by lia.
  reflexivity.
Qed.

Lemma truncate_last {A} (l : list A) (n : Z) :
  0 < n ->
  (if Py.len_gt l n then Py.slice_last l n else l) = Spec.last_n (Z.to_nat n) l.
Proof.
  intros Hn. unfold Py.len_gt. destruct (Z.ltb_spec n (Z.of_nat (length l))).
  - now apply slice_last_positive.
  - symmetry. apply last_n_short. lia.
Qed.

Lemma fetch_if_nonempty (conn : Connection) (ok : bool) (ids : list string)
    (pick : list string -> list string) (emails : list EmailInfo) :
  ok = true -> pick [] = [] ->
  (if ok && nonempty ids then emails ++ fetch_messages conn (pick ids) else emails)
  = emails ++ fetch_messages conn (pick ids).
Proof.
  intros -> Hp. destruct ids as [|i ids]; cbn [andb nonempty]; [|reflexivity].
  rewrite Hp. cbn. now rewrite app_nil_r.
Qed.

Lemma fetch_messages_all (conn : Connection) (ids : list string) :
  (forall i, exists m, conn_fetch conn i = Answer true m) ->
  map email_id (fetch_messages conn ids) = ids.
Proof.
  intros Hall. unfold fetch_messages.
  induction ids as [|i ids IH]; [reflexivity|].
  cbn [flat_map]. rewrite map_app, IH. unfold fetch_message.
  destruct (Hall i) as [m ->]. reflexivity.
Qed.

(** C2, as stated, fails: with ten unread and twenty read candidates and
    [max_emails = 12] the pass returns the last six unread and the last six
    read messages, not the ten unread and two read ones. *)
Lemma hybrid_ten_unread_twenty_read_limit_twelve :
  map email_id (get_recent_unread_emails (Some Sample.mailbox) 20000 7 12)
  = ["5"; "6"; "7"; "8"; "9"; "10"; "25"; "26"; "27"; "28"; "29"; "30"]%string
  /\ map email_id (get_recent_unread_emails (Some Sample.mailbox) 20000 7 12)
     <> (Sample.unread_ids ++ ["29"; "30"]%string).
Proof.
  split; [vm_compute; reflexivity | vm_compute; discriminate].
Qed.

(** With a limit of 1 the cap [max_emails // 2] is 0 and the slice
    [read_email_ids[-0:]] keeps every read message: the one message returned
    is the last read one. *)
Example hybrid_limit_one :
  map email_id (get_recent_unread_emails (Some Sample.mailbox) 20000 7 1) = ["30"%string].
Proof. vm_compute. reflexivity. Qed.

(** C2 (amended). For a limit of at least 2, when the mailbox can be
    selected and both searches answer OK, the hybrid strategy returns the
    last [max_emails] entries of: the fetched unread messages since
    [today - 7], followed by the fetched ones among the last
    [max_emails // 2] read messages since [today - 2]; messages whose fetch
    fails are skipped. The cap is applied to the read messages before they
    are appended and the truncation drops from the front, that is, unread
    messages first. With ten unread, twenty read and a limit of 12 this is
    the last six unread followed by the last six read. *)
Theorem hybrid_retrieval (conn : Connection) (today max_emails : Z)
    (unread read : list string) :
  conn_select conn <> Failure ->
  conn_search conn (UNSEEN_SINCE (today - 7)) = Answer true unread ->
  conn_search conn (SEEN_SINCE (today - 2)) = Answer true read ->
  2 <= max_emails ->
  let cap := Z.to_nat (max_emails / 2) in
  let limit := Z.to_nat max_emails in
  get_recent_unread_emails (Some conn) today 7 max_emails
  = Spec.last_n limit
      (fetch_messages conn unread ++ fetch_messages conn (Spec.last_n cap read))
  /\ ((forall i, exists m, conn_fetch conn i = Answer true m) ->
      map email_id (get_recent_unread_emails (Some conn) today 7 max_emails)
      = Spec.last_n limit (unread ++ Spec.last_n cap read)).
Proof.
  intros Hsel Hu Hr Hmax cap limit.
  assert (Hhalf : 0 < max_emails / 2) by (apply Z.div_str_pos; lia).
  assert (Heq : get_recent_unread_emails (Some conn) today 7 max_emails
                = Spec.last_n limit
                    (fetch_messages conn unread ++
                     fetch_messages conn (Spec.last_n cap read))).
  { unfold get_recent_unread_emails, or_empty, rbind, attr.
    destruct (conn_select conn) as [ok []|]; [|congruence]. cbn [imap].
    rewrite Hu, Hr. cbn [imap].
    rewrite (fetch_if_nonempty conn true unread (fun l => l)) by reflexivity.
    rewrite (fetch_if_nonempty conn true read
               (fun l => Py.slice_last l (max_emails / 2)))
      by (reflexivity || apply slice_last_nil).
    rewrite truncate_last by lia.
    rewrite slice_last_positive by assumption. reflexivity. }
  split; [exact Heq|].
  intros Hall. rewrite Heq. unfold Spec.last_n.
  rewrite <- List.skipn_map.
  rewrite <- (List.length_map email_id (fetch_messages conn unread ++ _)).
  rewrite List.map_app, !fetch_messages_all by assumption.
  reflexivity.
Qed.

(** The sample mailbox: ten unread, twenty read, a limit of 12. *)
Lemma hybrid_retrieval_sample :
  get_recent_unread_emails (Some Sample.mailbox) 20000 7 12
  = Spec.last_n 12
      (fetch_messages Sample.mailbox Sample.unread_ids ++
       fetch_messages Sample.mailbox (Spec.last_n 6 Sample.read_ids)).
Proof.
  apply (hybrid_retrieval Sample.mailbox 20000 12 Sample.unread_ids Sample.read_ids).
  - discriminate.
  - reflexivity.
  - reflexivity.
  - lia.
Defined.

(** ** Storing a mail *)

Lemma select_email_found (d : Database) (account_id : Z) (eid : string) :
  is_Some (select_email d account_id eid) <-> (account_id, eid) ∈ keys d.
Proof.
  unfold select_email, keys. induction (analyzed_emails d) as [|r rows IH].
  - cbn. split; [intros [? [=]] | intros H; inversion H].
  - cbn [List.find map]. rewrite elem_of_cons.
    destruct (Z.eqb_spec (ae_account_id r) account_id) as [Ha|Ha];
      destruct (String.eqb_spec (ae_email_id r) eid) as [He|He]; cbn [andb].
    + split; [left; congruence | eauto].
    + rewrite IH. split; [tauto | intros [[=]|]; [congruence | assumption]].
    + rewrite IH. split; [tauto | intros [[=]|]; [congruence | assumption]].
    + rewrite IH. split; [tauto | intros [[=]|]; [congruence | assumption]].
Qed.

Lemma select_email_missing (d : Database) (account_id : Z) (eid : string) :
  select_email d account_id eid = None <-> (account_id, eid) ∉ keys d.
Proof.
  rewrite <- select_email_found, <- eq_None_not_Some. reflexivity.
Qed.

(** What one call of [store_email_in_database] does: it never raises and
    touches nothing but the two mail tables; it returns [False] and leaves
    the monitor as it is when the pair is already stored, the date cannot
    be bound or the account has no row, and otherwise appends one row for
    the pair and returns [True]. *)
Lemma store_email_cases (account_id : Z) (email_info : EmailInfo) (a : Analysis)
    (self : EmailMonitor) :
  exists self' stored,
    store_email_in_database account_id email_info a self = (self', Ok stored) /\
    connection self' = connection self /\ clock self' = clock self /\
    email_accounts (db self') = email_accounts (db self) /\
    ((stored = false /\ self' = self /\
      (is_Some (select_email (db self) account_id (email_id email_info)) \/
       is_text (date email_info) = false \/
       select_account (db self) account_id = None))
     \/
     (stored = true /\
      select_email (db self) account_id (email_id email_info) = None /\
      is_text (date email_info) = true /\
      is_Some (select_account (db self) account_id) /\
      exists row,
        analyzed_emails (db self') = analyzed_emails (db self) ++ [row] /\
        ae_account_id row = account_id /\
        ae_email_id row = email_id email_info /\
        ae_is_spam row = is_spam a)).
Proof.
  unfold store_email_in_database, try_except, bind, get, lift, ret,
    insert_analyzed_email.
  destruct (select_email (db self) account_id (email_id email_info)) as [r|] eqn:Hsel.
  - exists self, false. repeat split; try reflexivity. left. repeat split; eauto.
  - destruct (date email_info) as [received_at|raw] eqn:Hdate; cbn [bound is_text].
    2:{ exists self, false. repeat split. left. repeat split; auto. }
    destruct (select_account (db self) account_id) as [acct|] eqn:Hacc.
    + eexists _, true. cbn. repeat split. right. repeat split; eauto.
    + exists self, false. cbn. repeat split. left. repeat split; auto.
Qed.

Lemma store_email_existing (account_id : Z) (email_info : EmailInfo) (a : Analysis)
    (self : EmailMonitor) :
  is_Some (select_email (db self) account_id (email_id email_info)) ->
  store_email_in_database account_id email_info a self = (self, Ok false).
Proof.
  intros [r Hr].
  unfold store_email_in_database, try_except, bind, get, ret. now rewrite Hr.
Qed.

Lemma keys_app_row (d d' : Database) (row : AnalyzedEmail) :
  analyzed_emails d' = analyzed_emails d ++ [row] ->
  keys d' = keys d ++ [(ae_account_id row, ae_email_id row)].
Proof.
  intros H. unfold keys. rewrite H, List.map_app. reflexivity.
Qed.

Lemma store_email_keeps_keys_unique (account_id : Z) (email_info : EmailInfo)
    (a : Analysis) (self : EmailMonitor) :
  NoDup (keys (db self)) ->
  NoDup (keys (db (fst (store_email_in_database account_id email_info a self)))).
Proof.
  intros Hnd.
  destruct (store_email_cases account_id email_info a self)
    as (self' & stored & -> & _ & _ & _ &
        [(_ & -> & _) | (_ & Hnone & _ & _ & row & Hrows & Ha & He & _)]);
    cbn [fst]; [assumption|].
  rewrite (keys_app_row _ _ _ Hrows), Ha, He.
  apply select_email_missing in Hnone.
  apply NoDup_app. split; [assumption|]. split.
  - intros k Hk Hin. apply list_elem_of_singleton in Hin. congruence.
  - apply NoDup_singleton.
Qed.

Lemma store_sequence_keeps_keys_unique (calls : list (Z * EmailInfo * Analysis))
    (self : EmailMonitor) :
  NoDup (keys (db self)) -> NoDup (keys (db (store_sequence calls self))).
Proof.
  revert self. induction calls as [|[[account_id email_info] a] calls IH];
    intros self Hnd; cbn [store_sequence]; [assumption|].
  apply IH. now apply store_email_keeps_keys_unique.
Qed.

(** ** The loop over the fetched mails *)

Lemma select_email_kept (d d' : Database) (new : list AnalyzedEmail)
    (account_id : Z) (eid : string) :
  analyzed_emails d' = analyzed_emails d ++ new ->
  is_Some (select_email d account_id eid) ->
  is_Some (select_email d' account_id eid).
Proof.
  intros Hrows. rewrite !select_email_found. unfold keys. rewrite Hrows, List.map_app.
  intros H. apply elem_of_app. now left.
Qed.

Lemma select_account_same (d d' : Database) (account_id : Z) :
  email_accounts d' = email_accounts d ->
  select_account d' account_id = select_account d account_id.
Proof. unfold select_account. now intros ->. Qed.

Lemma process_email_step (account_id : Z) (tally : Tally) (email_info : EmailInfo)
    (self : EmailMonitor) :
  exists self' tally' new,
    process_email account_id tally email_info self = (self', Ok tally') /\
    connection self' = connection self /\ clock self' = clock self /\
    email_accounts (db self') = email_accounts (db self) /\
    analyzed_emails (db self') = analyzed_emails (db self) ++ new /\
    length (processed_emails tally') = (length (processed_emails tally) + length new)%nat /\
    spam_count tally' = spam_count tally + spam_rows new /\
    ham_count tally' = ham_count tally + ham_rows new /\
    (is_Some (select_account (db self) account_id) ->
     is_text (date email_info) = true ->
     is_Some (select_email (db self') account_id (email_id email_info))) /\
    (is_Some (select_email (db self) account_id (email_id email_info))
     \/ is_text (date email_info) = false ->
     self' = self /\ tally' = tally).
Proof.
  unfold process_email, try_except, bind.
  destruct (store_email_cases account_id email_info (analyze_email_spam email_info) self)
    as (self' & stored & -> & Hc & Ht & Hacc &
        [(-> & -> & Hwhy) | (-> & Hnone & Htext & Hsome & row & Hrows & Ha & He & Hs)]).
  - exists self, tally, []. cbn [ret length].
    rewrite app_nil_r, Nat.add_0_r. unfold spam_rows, ham_rows. cbn.
    rewrite !Z.add_0_r. repeat split; auto.
    intros Hex Htext. destruct Hwhy as [Hf|[Hb|Hn]]; [assumption|congruence|].
    rewrite Hn in Hex. now destruct Hex.
  - eexists self', _, [row]. cbn [ret]. split; [reflexivity|].
    cbn [processed_emails spam_count ham_count].
    rewrite List.length_app. unfold spam_rows, ham_rows. cbn [List.filter length].
    rewrite Hs.
    assert (Hnew : is_Some (select_email (db self') account_id (email_id email_info))).
    { apply select_email_found. unfold keys. rewrite Hrows, List.map_app.
      apply elem_of_app. right. cbn. rewrite Ha, He. apply list_elem_of_here. }
    assert (Hold : ~ (is_Some (select_email (db self) account_id (email_id email_info))
                      \/ is_text (date email_info) = false)).
    { rewrite Hnone, Htext. intros [[? ?]|?]; discriminate. }
    repeat split; auto; try tauto; destruct (is_spam _); cbn; lia.
Qed.

Lemma process_emails_spec (account_id : Z) (emails : list EmailInfo) :
  forall (tally : Tally) (self : EmailMonitor),
  exists self' tally' new,
    process_emails account_id tally emails self = (self', Ok tally') /\
    connection self' = connection self /\ clock self' = clock self /\
    email_accounts (db self') = email_accounts (db self) /\
    analyzed_emails (db self') = analyzed_emails (db self) ++ new /\
    length (processed_emails tally') = (length (processed_emails tally) + length new)%nat /\
    spam_count tally' = spam_count tally + spam_rows new /\
    ham_count tally' = ham_count tally + ham_rows new /\
    (is_Some (select_account (db self) account_id) ->
     forall e, e ∈ emails -> is_text (date e) = true ->
               is_Some (select_email (db self') account_id (email_id e))) /\
    ((forall e, e ∈ emails -> is_Some (select_email (db self) account_id (email_id e))
                              \/ is_text (date e) = false) ->
     self' = self /\ tally' = tally).
Proof.
  induction emails as [|email_info emails IH]; intros tally self.
  - exists self, tally, []. cbn [process_emails ret length].
    rewrite app_nil_r, Nat.add_0_r. unfold spam_rows, ham_rows. cbn.
    rewrite !Z.add_0_r. repeat split; auto.
    intros _ e He. inversion He.
  - cbn [process_emails]. unfold bind.
    destruct (process_email_step account_id tally email_info self)
      as (self1 & tally1 & new1 & -> & Hc1 & Ht1 & Ha1 & Hr1 & Hp1 & Hs1 & Hh1 & Hst1 & Hid1).
    destruct (IH tally1 self1)
      as (self2 & tally2 & new2 & -> & Hc2 & Ht2 & Ha2 & Hr2 & Hp2 & Hs2 & Hh2 & Hst2 & Hid2).
    exists self2, tally2, (new1 ++ new2).
    unfold spam_rows, ham_rows in *.
    rewrite !List.filter_app, !List.length_app.
    repeat split.
    + congruence.
    + congruence.
    + congruence.
    + rewrite Hr2, Hr1. now rewrite <- app_assoc.
    + lia.
    + lia.
    + lia.
    + intros Hacc e He Htext.
      assert (Hacc1 : is_Some (select_account (db self1) account_id))
        by now rewrite (select_account_same _ _ _ Ha1).
      apply elem_of_cons in He as [->|He].
      * eapply select_email_kept; [exact Hr2 | now apply Hst1].
      * now apply Hst2.
    + assert (Hhead : is_Some (select_email (db self) account_id (email_id email_info))
                      \/ is_text (date email_info) = false)
        by (apply H; apply list_elem_of_here).
      destruct (Hid1 Hhead) as [-> ->].
      apply Hid2. intros e He. apply H. now apply list_elem_of_further.
    + assert (Hhead : is_Some (select_email (db self) account_id (email_id email_info))
                      \/ is_text (date email_info) = false)
        by (apply H; apply list_elem_of_here).
      destruct (Hid1 Hhead) as [-> ->].
      apply Hid2. intros e He. apply H. now apply list_elem_of_further.
Qed.

(** ** One pass over an account *)

Lemma connect_to_server_cases (net : Network) (account_id : Z) (self : EmailMonitor) :
  connect_to_server net account_id self =
  match select_account (db self) account_id with
  | None => (self, Ok false)
  | Some a =>
      match net (server a) (port a) (email a) (password a) with
      | Unreachable => (self, Ok false)
      | Rejected conn =>
          ({| db := db self; connection := Some conn; clock := clock self |}, Ok false)
      | Accepted conn =>
          ({| db := db self; connection := Some conn; clock := clock self |}, Ok true)
      end
  end.
Proof.
  unfold connect_to_server, try_except, bind, get.
  destruct (select_account (db self) account_id) as [a|]; [|reflexivity].
  destruct (net _ _ _ _); reflexivity.
Qed.

Lemma pass_spec (net : Network) (account_id max_emails : Z) (get_all get_recent : bool)
    (self : EmailMonitor) :
  exists self' rep,
    process_account_emails net account_id max_emails get_all get_recent self
    = (self', Ok rep) /\
    connection self' = None /\
    ((~ (exists conn, reachable net (db self) account_id conn) /\
      success rep = false /\ db self' = db self /\ clock self' = clock self /\
      emails_processed rep = 0 /\ spam_detected rep = 0 /\ emails_detail rep = None)
     \/
     exists conn,
       reachable net (db self) account_id conn /\
       success rep = true /\
       clock self' = clock self + conn_seconds conn /\
       processing_time rep = conn_seconds conn /\
       let emails := selected_emails (Some conn) (today self) max_emails get_all get_recent in
       ((emails = [] /\ db self' = db self /\
         emails_processed rep = 0 /\ spam_detected rep = 0 /\ emails_detail rep = None)
        \/
        (emails <> [] /\
         exists self2 tally,
           process_emails account_id empty_tally emails (served conn self)
           = (self2, Ok tally) /\
           db self' = update_accounts (db self2) (clock self + conn_seconds conn)
                        (Z.of_nat (length (processed_emails tally)))
                        (spam_count tally) account_id /\
           emails_processed rep = Z.of_nat (length (processed_emails tally)) /\
           spam_detected rep = spam_count tally /\
           emails_detail rep = Some (processed_emails tally)))).
Proof.
  unfold process_account_emails, bind at 1, get at 1.
  unfold try_finally, try_except at 1, bind at 1.
  rewrite connect_to_server_cases.
  destruct (select_account (db self) account_id) as [a|] eqn:Hacc.
  2:{ cbn [negb ret].
      destruct (disconnect_returns self) as (self' & -> & Hc & Hd & Ht).
      eexists _, _. split; [reflexivity|]. split; [assumption|]. left.
      cbn. repeat split; auto. intros (conn & a' & Ha' & _). congruence. }
  destruct (net (server a) (port a) (email a) (password a)) as [|conn|conn] eqn:Hnet.
  - cbn [negb ret].
    destruct (disconnect_returns self) as (self' & -> & Hc & Hd & Ht).
    eexists _, _. split; [reflexivity|]. split; [assumption|]. left.
    cbn. repeat split; auto. intros (conn0 & a' & Ha' & Hn). congruence.
  - cbn [negb ret].
    rewrite (disconnect_connected _ conn) by reflexivity.
    eexists _, _. split; [reflexivity|]. split; [reflexivity|]. left.
    cbn. repeat split; auto. intros (conn' & a' & Ha' & Hn). congruence.
  - cbn [negb]. unfold retrieve, bind, get, wait, ret. cbn [connection clock db from_option].
    fold (served conn self).
    change (today _) with (today self).
    destruct (selected_emails (Some conn) (today self) max_emails get_all get_recent)
      as [|e emails] eqn:Hsel.
    + cbn [nonempty negb].
      rewrite (disconnect_connected _ conn) by reflexivity.
      eexists _, _. split; [reflexivity|]. split; [reflexivity|]. right.
      exists conn. split; [exists a; auto|]. cbn zeta. rewrite Hsel.
      cbn. repeat split; auto; try lia. left. auto 6.
    + cbn [nonempty negb]. fold empty_tally.
      destruct (process_emails_spec account_id (e :: emails) empty_tally (served conn self))
        as (self2 & tally & new & Hrun & Hc2 & Ht2 & _).
      rewrite Hrun.
      unfold _update_account_statistics, try_except, bind, get, set_db.
      cbn [connection clock db].
      rewrite (disconnect_connected _ conn) by (cbn; rewrite Hc2; reflexivity).
      eexists _, _. split; [reflexivity|]. split; [reflexivity|]. right.
      exists conn. split; [exists a; auto|]. cbn zeta. rewrite Hsel.
      cbn [success clock cleared processing_time db emails_processed spam_detected emails_detail].
      rewrite Ht2. cbn [served clock].
      repeat split; try lia.
      right. split; [discriminate|].
      exists self2, tally. repeat split; auto.
Qed.

Lemma select_account_id (d : Database) (account_id : Z) (a : Account) :
  select_account d account_id = Some a -> id a = account_id.
Proof.
  unfold select_account. intros H. apply List.find_some in H as [_ H].
  now apply Z.eqb_eq.
Qed.

Lemma select_account_update (d : Database) (now n s updated account_id : Z) :
  select_account (update_accounts d now n s updated) account_id
  = option_map (update_account_row now n s updated) (select_account d account_id).
Proof.
  unfold select_account, update_accounts. cbn [email_accounts].
  induction (email_accounts d) as [|a accounts IH]; [reflexivity|].
  cbn [map List.find].
  assert (Hid : id (update_account_row now n s updated a) = id a)
    by (unfold update_account_row; destruct (id a =? updated); reflexivity).
  rewrite Hid. destruct (id a =? account_id); [reflexivity | exact IH].
Qed.

Lemma reachable_update (net : Network) (d : Database) (now n s updated account_id : Z)
    (conn : Connection) :
  reachable net (update_accounts d now n s updated) account_id conn
  <-> reachable net d account_id conn.
Proof.
  unfold reachable. setoid_rewrite select_account_update.
  split.
  - intros (a' & Ha & Hnet).
    destruct (select_account d account_id) as [a|]; [|discriminate].
    injection Ha as <-. exists a. split; [reflexivity|].
    unfold update_account_row in Hnet. now destruct (id a =? updated).
  - intros (a & -> & Hnet). eexists. split; [reflexivity|].
    unfold update_account_row. now destruct (id a =? updated).
Qed.

Lemma reachable_same_accounts (net : Network) (d d' : Database) (account_id : Z)
    (conn : Connection) :
  email_accounts d' = email_accounts d ->
  reachable net d' account_id conn <-> reachable net d account_id conn.
Proof.
  intros H. unfold reachable. now rewrite (select_account_same _ _ _ H).
Qed.

Lemma reachable_unique (net : Network) (d : Database) (account_id : Z)
    (c1 c2 : Connection) :
  reachable net d account_id c1 -> reachable net d account_id c2 -> c1 = c2.
Proof.
  intros (a1 & H1 & N1) (a2 & H2 & N2). congruence.
Qed.

Lemma select_email_same_rows (d d' : Database) (account_id : Z) (eid : string) :
  analyzed_emails d' = analyzed_emails d ->
  select_email d' account_id eid = select_email d account_id eid.
Proof. unfold select_email. now intros ->. Qed.

(** What a pass leaves stored: when the account is reachable, every mail
    the retrieval returned whose date can be bound has a row afterwards, and the account can be
    reached afterwards exactly when it could before. *)
Lemma pass_stores_what_it_fetched (net : Network) (account_id max_emails : Z)
    (get_all get_recent : bool) (self : EmailMonitor) :
  let self1 :=
    fst (process_account_emails net account_id max_emails get_all get_recent self) in
  forall conn,
    reachable net (db self1) account_id conn ->
    reachable net (db self) account_id conn /\
    forall e,
      e ∈ selected_emails (Some conn) (today self) max_emails get_all get_recent ->
      is_text (date e) = true ->
      is_Some (select_email (db self1) account_id (email_id e)).
Proof.
  destruct (pass_spec net account_id max_emails get_all get_recent self)
    as (self1 & rep & -> & _ & Hcase).
  cbn [fst]. intros conn Hreach.
  destruct Hcase as [(Hnot & _ & Hdb & _) | (conn1 & Hr1 & _ & _ & _ & Hcase)].
  - exfalso. apply Hnot. exists conn. now rewrite Hdb in Hreach.
  - cbn zeta in Hcase.
    destruct Hcase as [(Hnil & Hdb & _) | (_ & self2 & tally & Hrun & Hdb & _)].
    + rewrite Hdb in Hreach |- *.
      rewrite (reachable_unique _ _ _ _ _ Hreach Hr1) in *.
      split; [assumption|]. rewrite Hnil. intros e He. inversion He.
    + destruct (process_emails_spec account_id
                  (selected_emails (Some conn1) (today self) max_emails get_all get_recent)
                  empty_tally (served conn1 self))
        as (self2' & tally' & new & Hrun' & _ & _ & Hacc & _ & _ & _ & _ & Hall & _).
      rewrite Hrun in Hrun'. injection Hrun' as <- <-.
      rewrite Hdb in Hreach. apply reachable_update in Hreach.
      apply (reachable_same_accounts _ _ _ _ _ Hacc) in Hreach. cbn [served db] in Hreach.
      rewrite (reachable_unique _ _ _ _ _ Hreach Hr1) in *.
      split; [assumption|]. intros e He Htext.
      rewrite (select_email_same_rows (db self2)) by (rewrite Hdb; reflexivity).
      apply Hall; [|assumption|assumption].
      cbn [served db]. destruct Hr1 as (a & Ha & _). rewrite Ha. eauto.
Qed.

(** A second pass on the same day finds every mail it fetches already
    stored, or with a date that still cannot be bound, and appends
    nothing. *)
Lemma second_pass_no_new_rows (net : Network) (account_id max_emails : Z)
    (get_all get_recent : bool) (self : EmailMonitor) :
  let self1 :=
    fst (process_account_emails net account_id max_emails get_all get_recent self) in
  let self2 :=
    fst (process_account_emails net account_id max_emails get_all get_recent self1) in
  today self1 = today self ->
  analyzed_emails (db self2) = analyzed_emails (db self1).
Proof.
  cbn zeta. intros Hday.
  pose proof (pass_stores_what_it_fetched net account_id max_emails get_all get_recent self)
    as Hfirst. cbn zeta in Hfirst.
  set (self1 := fst (process_account_emails net account_id max_emails
                       get_all get_recent self)) in *.
  destruct (pass_spec net account_id max_emails get_all get_recent self1)
    as (self2 & rep & -> & _ & Hcase).
  cbn [fst].
  destruct Hcase as [(_ & _ & Hdb & _) | (conn & Hr & _ & _ & _ & Hcase)];
    [now rewrite Hdb|].
  cbn zeta in Hcase.
  destruct Hcase as [(_ & Hdb & _) | (_ & self3 & tally & Hrun & Hdb & _)];
    [now rewrite Hdb|].
  destruct (Hfirst conn Hr) as [_ Hstored].
  destruct (process_emails_spec account_id
              (selected_emails (Some conn) (today self1) max_emails get_all get_recent)
              empty_tally (served conn self1))
    as (self3' & tally' & new & Hrun' & _ & _ & _ & _ & _ & _ & _ & _ & Hsame).
  rewrite Hrun in Hrun'. injection Hrun' as <- <-.
  destruct Hsame as [-> _].
  - rewrite Hday. intros e He.
    destruct (is_text (date e)) eqn:Htext; [left; now apply Hstored | now right].
  - rewrite Hdb. reflexivity.
Qed.

Lemma pass_counts (net : Network) (account_id max_emails : Z)
    (get_all get_recent : bool) (self : EmailMonitor) :
  exists self1 rep new,
    process_account_emails net account_id max_emails get_all get_recent self
    = (self1, Ok rep) /\
    analyzed_emails (db self1) = analyzed_emails (db self) ++ new /\
    emails_processed rep = Z.of_nat (length new) /\
    spam_detected rep = spam_rows new /\
    total_checked (db self1) account_id
    = total_checked (db self) account_id + emails_processed rep /\
    total_spam (db self1) account_id
    = total_spam (db self) account_id + spam_detected rep.
Proof.
  destruct (pass_spec net account_id max_emails get_all get_recent self)
    as (self1 & rep & Hrun & _ & Hcase).
  exists self1, rep.
  assert (Hnone : db self1 = db self -> emails_processed rep = 0 ->
                  spam_detected rep = 0 ->
                  exists new,
                    process_account_emails net account_id max_emails get_all get_recent self
                    = (self1, Ok rep) /\
                    analyzed_emails (db self1) = analyzed_emails (db self) ++ new /\
                    emails_processed rep = Z.of_nat (length new) /\
                    spam_detected rep = spam_rows new /\
                    total_checked (db self1) account_id
                    = total_checked (db self) account_id + emails_processed rep /\
                    total_spam (db self1) account_id
                    = total_spam (db self) account_id + spam_detected rep).
  { intros -> -> ->. exists []. rewrite app_nil_r, !Z.add_0_r. auto 6. }
  destruct Hcase as [(_ & _ & Hdb & _ & Hp & Hs & _) | (conn & Hr & _ & _ & _ & Hcase)];
    [now apply Hnone|].
  cbn zeta in Hcase.
  destruct Hcase as [(_ & Hdb & Hp & Hs & _) | (_ & self2 & tally & Hloop & Hdb & Hp & Hs & _)];
    [now apply Hnone|].
  destruct (process_emails_spec account_id
              (selected_emails (Some conn) (today self) max_emails get_all get_recent)
              empty_tally (served conn self))
    as (self2' & tally' & new & Hloop' & _ & _ & Hacc & Hrows & Hlen & Hspam & _).
  rewrite Hloop in Hloop'. injection Hloop' as <- <-.
  cbn [served db empty_tally processed_emails spam_count length] in Hacc, Hrows, Hlen, Hspam.
  exists new. split; [assumption|].
  rewrite Hp, Hs, Hlen, Hspam, Z.add_0_l, Nat.add_0_l.
  split; [rewrite Hdb; exact Hrows|]. split; [reflexivity|]. split; [reflexivity|].
  destruct Hr as (a & Ha & _).
  unfold total_checked, total_spam.
  rewrite Hdb, select_account_update, (select_account_same _ _ _ Hacc), Ha.
  cbn [option_map from_option]. unfold update_account_row.
  rewrite (select_account_id _ _ _ Ha), Z.eqb_refl. cbn. rewrite Hlen, Hspam. auto.
Qed.

(** ** The store holds each mail once *)

(** C1, as stated, fails for a second pass on a later day: with a batch
    size of 4 the pass of day 10 fetches the unread messages 3 to 6 and the
    read messages 1 and 2 of the last two days, keeps the last four and
    stores 5, 6, 1 and 2; the pass of day 11 against the unchanged mailbox no
    longer finds the read messages, fetches 3 to 6 and stores 3 and 4. *)
Lemma second_pass_on_the_next_day_stores_more :
  let self1 := fst (process_account_emails Cases.dated_net 1 4 false false Cases.day_ten) in
  let next_day := fst (wait 86400 self1) in
  let self2 := fst (process_account_emails Cases.dated_net 1 4 false false next_day) in
  today Cases.day_ten = 10 /\ today next_day = 11 /\
  map ae_email_id (analyzed_emails (db self1)) = ["5"; "6"; "1"; "2"]%string /\
  map ae_email_id (analyzed_emails (db self2)) = ["5"; "6"; "1"; "2"; "3"; "4"]%string /\
  analyzed_emails (db self2) <> analyzed_emails (db next_day).
Proof.
  cbn zeta. split; [reflexivity|]. split; [reflexivity|].
  split; [vm_compute; reflexivity|]. split; [vm_compute; reflexivity|].
  intros H. apply (f_equal (@length AnalyzedEmail)) in H. vm_compute in H. discriminate.
Qed.

(** C1 (amended). When a row with the pair (account_id, email_id) exists,
    [store_email_in_database] inserts nothing and returns [False]; whatever
    sequence of store calls is made, the stored pairs stay pairwise
    distinct; and a second pass of the same account against the same
    mailbox on the same day (the same network, so the same answers to the
    same dated searches) appends no row. *)
Theorem stored_at_most_once :
  (forall (account_id : Z) (email_info : EmailInfo) (a : Analysis) (self : EmailMonitor),
     is_Some (select_email (db self) account_id (email_id email_info)) ->
     store_email_in_database account_id email_info a self = (self, Ok false))
  /\
  (forall (calls : list (Z * EmailInfo * Analysis)) (self : EmailMonitor),
     NoDup (keys (db self)) -> NoDup (keys (db (store_sequence calls self))))
  /\
  (forall (net : Network) (account_id max_emails : Z) (get_all get_recent : bool)
          (self : EmailMonitor),
     let self1 :=
       fst (process_account_emails net account_id max_emails get_all get_recent self) in
     let self2 :=
       fst (process_account_emails net account_id max_emails get_all get_recent self1) in
     today self1 = today self ->
     analyzed_emails (db self2) = analyzed_emails (db self1)).
Proof.
  split; [exact store_email_existing|].
  split; [exact store_sequence_keeps_keys_unique|].
  exact second_pass_no_new_rows.
Qed.

(** The sample account polled twice: twelve rows after the first pass,
    the same twelve after the second. *)
Lemma stored_at_most_once_sample :
  let self1 := fst (process_account_emails Sample.net 1 12 false false Sample.monitor) in
  let self2 := fst (process_account_emails Sample.net 1 12 false false self1) in
  length (analyzed_emails (db self1)) = 12%nat /\
  NoDup (keys (db self1)) /\
  analyzed_emails (db self2) = analyzed_emails (db self1).
Proof.
  cbn zeta. split; [vm_compute; reflexivity|]. split.
  - apply (bool_decide_unpack _). vm_compute. reflexivity.
  - apply (proj2 (proj2 stored_at_most_once) Sample.net 1 12 false false Sample.monitor).
    vm_compute. reflexivity.
Defined.

(** ** Counters *)

(** C10. A pass counts a fetched mail only when its row was newly
    inserted: the report's [emails_processed] and [spam_detected] are the
    number of rows the pass appended and the number of those that are spam,
    and the account's cumulative counters grow by exactly these two amounts;
    a second pass on the same day, which finds every mail already stored,
    reports 0 and 0 and leaves both cumulative counters as they were. *)
Theorem counters_count_only_new_rows (net : Network) (account_id max_emails : Z)
    (get_all get_recent : bool) (self : EmailMonitor) :
  let '(self1, r1) :=
    process_account_emails net account_id max_emails get_all get_recent self in
  let '(self2, r2) :=
    process_account_emails net account_id max_emails get_all get_recent self1 in
  exists rep1 new,
    r1 = Ok rep1 /\
    analyzed_emails (db self1) = analyzed_emails (db self) ++ new /\
    emails_processed rep1 = Z.of_nat (length new) /\
    spam_detected rep1 = spam_rows new /\
    total_checked (db self1) account_id
    = total_checked (db self) account_id + Z.of_nat (length new) /\
    total_spam (db self1) account_id
    = total_spam (db self) account_id + spam_rows new /\
    (today self1 = today self ->
     exists rep2,
       r2 = Ok rep2 /\
       emails_processed rep2 = 0 /\ spam_detected rep2 = 0 /\
       total_checked (db self2) account_id = total_checked (db self1) account_id /\
       total_spam (db self2) account_id = total_spam (db self1) account_id).
Proof.
  pose proof (second_pass_no_new_rows net account_id max_emails get_all get_recent self)
    as Hsecond. cbn zeta in Hsecond.
  destruct (pass_counts net account_id max_emails get_all get_recent self)
    as (self1 & rep1 & new1 & Hrun1 & Hrows1 & Hp1 & Hs1 & Hc1 & Ht1).
  rewrite Hrun1 in Hsecond |- *. cbn [fst] in Hsecond.
  destruct (pass_counts net account_id max_emails get_all get_recent self1)
    as (self2 & rep2 & new2 & Hrun2 & Hrows2 & Hp2 & Hs2 & Hc2 & Ht2).
  rewrite Hrun2 in Hsecond |- *. cbn [fst] in Hsecond.
  exists rep1, new1. rewrite <- Hp1, <- Hs1. repeat split; try assumption.
  intros Hday. specialize (Hsecond Hday).
  assert (new2 = []) as ->.
  { rewrite Hsecond in Hrows2.
    apply (f_equal (@length _)) in Hrows2. rewrite List.length_app in Hrows2.
    destruct new2; [reflexivity | cbn in Hrows2; lia]. }
  exists rep2. cbn in Hp2, Hs2. rewrite Hp2 in Hc2. rewrite Hs2 in Ht2.
  rewrite Z.add_0_r in Hc2, Ht2. auto.
Qed.

(** The sample account: twelve new rows, twelve counted; polled again,
    nothing is counted. *)
Example counters_sample :
  let '(self1, r1) := process_account_emails Sample.net 1 12 false false Sample.monitor in
  let '(self2, r2) := process_account_emails Sample.net 1 12 false false self1 in
  total_checked (db Sample.monitor) 1 = 0 /\
  total_checked (db self1) 1 = 12 /\
  total_checked (db self2) 1 = 12 /\
  total_spam (db self2) 1 = 0.
Proof. vm_compute. auto. Qed.

(** ** The time of the last check *)

(** C7, as stated, fails on success: the sample pass starts at second
    1000 and takes 3 seconds, and it records 1003 as [last_check_at], the
    time of the statistics update; and a pass on a mailbox in which nothing
    is found succeeds without touching [last_check_at]. *)
Lemma last_check_at_is_not_the_start_time :
  (let '(self1, r) := process_account_emails Sample.net 1 12 false false Sample.monitor in
   option_map success (match r with Ok rep => Some rep | Raised _ => None end) = Some true /\
   clock Sample.monitor = 1000 /\
   option_map last_check_at (select_account (db self1) 1) = Some (Some 1003))
  /\
  (let '(self1, r) :=
     process_account_emails Sample.empty_net 1 12 false false Sample.monitor in
   option_map success (match r with Ok rep => Some rep | Raised _ => None end) = Some true /\
   option_map last_check_at (select_account (db self1) 1) = Some None).
Proof. vm_compute. auto. Qed.

(** C7 (amended). A pass that fails (the account has no row, or the
    server cannot be reached or rejects the login) leaves every account row,
    so [last_check_at] and both counters, as it was. A successful pass that
    fetched no mail leaves them unchanged as well. A successful pass that
    fetched at least one mail sets [last_check_at] to the time at which the
    statistics update runs, which is the start of the pass plus the reported
    processing time, and adds the reported [emails_processed] and
    [spam_detected] to the two counters. *)
Theorem pass_updates_account_when_mail_was_fetched (net : Network)
    (account_id max_emails : Z) (get_all get_recent : bool) (self : EmailMonitor) :
  let '(self1, r) :=
    process_account_emails net account_id max_emails get_all get_recent self in
  exists rep,
    r = Ok rep /\
    (success rep = false -> email_accounts (db self1) = email_accounts (db self)) /\
    (success rep = true -> emails_detail rep = None ->
     email_accounts (db self1) = email_accounts (db self)) /\
    (forall detail, emails_detail rep = Some detail ->
       success rep = true /\
       email_accounts (db self1) =
         map (update_account_row (clock self + processing_time rep)
                (emails_processed rep) (spam_detected rep) account_id)
             (email_accounts (db self))) /\
    (success rep = true <-> exists conn, reachable net (db self) account_id conn) /\
    (forall conn, reachable net (db self) account_id conn ->
       processing_time rep = conn_seconds conn /\
       (emails_detail rep = None <->
        selected_emails (Some conn) (today self) max_emails get_all get_recent = [])).
Proof.
  destruct (pass_spec net account_id max_emails get_all get_recent self)
    as (self1 & rep & -> & _ & Hcase).
  exists rep. split; [reflexivity|].
  destruct Hcase as [(Hnot & Hf & Hdb & _ & _ & _ & Hd) | (conn & Hr & Hok & _ & Htime & Hcase)].
  - rewrite Hf, Hd, Hdb.
    split; [reflexivity|]. split; [reflexivity|]. split; [discriminate|].
    split; [split; [discriminate | intros Hex; now destruct Hnot]|].
    intros conn Hr. exfalso. apply Hnot. eauto.
  - cbn zeta in Hcase. rewrite Hok.
    assert (Hconn : forall conn', reachable net (db self) account_id conn' -> conn' = conn)
      by (intros conn' Hr'; exact (reachable_unique _ _ _ _ _ Hr' Hr)).
    split; [discriminate|].
    destruct Hcase as [(Hnil & Hdb & _ & _ & Hd) | (Hsome & self2 & tally & Hloop & Hdb & Hp & Hs & Hd)].
    + rewrite Hd, Hdb.
      split; [reflexivity|]. split; [discriminate|].
      split; [split; eauto|].
      intros conn' Hr'. rewrite (Hconn _ Hr'). tauto.
    + destruct (process_emails_spec account_id
                  (selected_emails (Some conn) (today self) max_emails get_all get_recent)
                  empty_tally (served conn self))
        as (self2' & tally' & new & Hloop' & _ & _ & Hacc & _).
      rewrite Hloop in Hloop'. injection Hloop' as <- <-.
      rewrite Hd, Hp, Hs, Htime, Hdb. cbn [update_accounts email_accounts].
      rewrite Hacc. cbn [served db].
      split; [discriminate|].
      split; [intros detail _; split; reflexivity|].
      split; [split; eauto|].
      intros conn' Hr'. rewrite (Hconn _ Hr').
      split; [reflexivity|]. split; [discriminate | intros; contradiction].
Qed.

(** ** The scheduler *)

Lemma run_automatic_check_keeps_session (net : Network) (account_id : Z) (a : Account)
    (app : App) :
  session_state (run_automatic_check_for_account net account_id a app) = session_state app.
Proof.
  unfold run_automatic_check_for_account.
  destruct (process_account_emails _ _ _ _ _ _) as [monitor [rep|e]];
    [destruct (success rep)|]; reflexivity.
Qed.

(** One turn of the loop: the check is started exactly for an active
    account whose interval has elapsed, and only then is the time of its
    last check replaced by the current time. *)
Lemma check_account_spec (net : Network) (current_time : Z) (app : App)
    (scheduled : list Z) (a : Account) :
  let last_check := default 0 (last_auto_check (session_state app) !! id a) in
  let st := check_account net current_time (app, scheduled) a in
  if is_active a && (check_interval a * 60 <=? current_time - last_check)
  then snd st = scheduled ++ [id a] /\
       last_auto_check (session_state (fst st))
       = <[id a := current_time]> (last_auto_check (session_state app))
  else st = (app, scheduled).
Proof.
  cbn zeta. unfold check_account.
  destruct (is_active a); cbn [negb andb]; [|reflexivity].
  destruct (_ <=? _); [|reflexivity].
  cbn [fst snd]. split; [reflexivity|].
  cbn [set_checking set_last_auto_check session_state last_auto_check].
  rewrite run_automatic_check_keeps_session. reflexivity.
Qed.

Lemma check_accounts_fold (net : Network) (current_time : Z) (accounts : list Account) :
  forall (app : App) (scheduled : list Z),
  NoDup (map id accounts) ->
  let st := fold_left (check_account net current_time) accounts (app, scheduled) in
  (forall i, i ∉ map id accounts ->
     (i ∈ snd st <-> i ∈ scheduled) /\
     last_auto_check (session_state (fst st)) !! i
     = last_auto_check (session_state app) !! i) /\
  (forall a, a ∈ accounts -> is_active a = true -> id a ∉ scheduled ->
     (id a ∈ snd st <->
      check_interval a * 60
      <= current_time - default 0 (last_auto_check (session_state app) !! id a))).
Proof.
  induction accounts as [|b accounts IH]; intros app scheduled Hnd; cbn zeta.
  - cbn [fold_left fst snd]. split; [tauto|]. intros a Ha. inversion Ha.
  - cbn [map] in Hnd. apply NoDup_cons in Hnd as [Hb Hnd].
    cbn [fold_left].
    pose proof (check_account_spec net current_time app scheduled b) as Hstep.
    cbn zeta in Hstep.
    destruct (check_account net current_time (app, scheduled) b) as [app1 scheduled1] eqn:E.
    cbn [fst snd] in Hstep.
    specialize (IH app1 scheduled1 Hnd). cbn zeta in IH. destruct IH as [IHout IHin].
    assert (Hsched : forall i, i <> id b -> (i ∈ scheduled1 <-> i ∈ scheduled)).
    { intros i Hi. destruct (is_active b && _).
      - destruct Hstep as [-> _]. rewrite elem_of_app, list_elem_of_singleton. tauto.
      - injection Hstep as _ ->. reflexivity. }
    assert (Hlast : forall i, i <> id b ->
              last_auto_check (session_state app1) !! i
              = last_auto_check (session_state app) !! i).
    { intros i Hi. destruct (is_active b && _).
      - destruct Hstep as [_ ->]. now apply lookup_insert_ne.
      - injection Hstep as -> _. reflexivity. }
    split.
    + intros i Hi. cbn [map] in Hi. apply not_elem_of_cons in Hi as [Hib Hi].
      destruct (IHout i Hi) as [H1 H2]. rewrite H1, H2. split; auto.
    + intros a Ha Hact Hfresh. apply elem_of_cons in Ha as [->|Ha].
      * destruct (IHout (id b) Hb) as [-> _]. rewrite Hact in Hstep. cbn [andb] in Hstep.
        destruct (Z.leb_spec (check_interval b * 60)
                    (current_time - default 0 (last_auto_check (session_state app) !! id b))).
        -- destruct Hstep as [-> _]. rewrite elem_of_app, list_elem_of_singleton. tauto.
        -- injection Hstep as _ ->. split; [contradiction | lia].
      * assert (Hne : id a <> id b).
        { intros Heq. apply Hb. rewrite <- Heq.
          apply list_elem_of_In, List.in_map. now apply list_elem_of_In. }
        rewrite <- (Hlast _ Hne). apply IHin; try assumption.
        now rewrite Hsched.
Qed.

(** C8, as stated for the stored [last_check_at], fails: the scheduler
    reads the time of the last check from the session, not from the account
    row. An account with a 15-minute interval whose row says it was checked
    14 minutes ago is started by the first cycle of a new session. *)
Lemma fresh_session_ignores_last_check_at :
  option_map last_check_at (select_account (app_db Cases.fresh_app) 1)
  = Some (Some (wall_clock Cases.fresh_app - 14 * 60)) /\
  option_map check_interval (select_account (app_db Cases.fresh_app) 1) = Some 15 /\
  snd (run_automatic_checks Sample.net Cases.fresh_app) = [1].
Proof. vm_compute. auto. Qed.

(** C8 (amended). When automatic checks are enabled, the scheduler starts a
    pass for an active account exactly when the time since its last
    automatic check in this session is at least its check interval (minutes,
    compared in seconds); an account not yet checked in this session counts
    as last checked at time 0, whatever its stored [last_check_at]. Account
    ids are the primary key of [email_accounts], hence distinct. *)
Theorem automatic_check_started_iff_due (net : Network) (app : App) (a : Account) :
  auto_check_enabled (session_state app) = true ->
  NoDup (map id (email_accounts (app_db app))) ->
  a ∈ email_accounts (app_db app) ->
  is_active a = true ->
  let now := wall_clock app in
  let last_check := default 0 (last_auto_check (session_state app) !! id a) in
  id a ∈ snd (run_automatic_checks net app) <-> check_interval a * 60 <= now - last_check.
Proof.
  intros Hon Hnd Ha Hact. cbn zeta.
  unfold run_automatic_checks. rewrite Hon. cbn [negb].
  assert (Hperm : Permutation (get_email_accounts (app_db app)) (email_accounts (app_db app)))
    by apply merge_sort_Permutation.
  pose proof (check_accounts_fold net (wall_clock app) (get_email_accounts (app_db app))
                app []) as Hfold.
  cbn zeta in Hfold. destruct Hfold as [_ Hin].
  - assert (Hids : Permutation (map id (get_email_accounts (app_db app)))
                               (map id (email_accounts (app_db app))))
      by now apply Permutation_map.
    now rewrite Hids.
  - apply Hin; [|assumption|].
    + now rewrite Hperm.
    + intros H. inversion H.
Qed.

(** The boundary: with a 15-minute interval, a check made in this session
    15 minutes ago is due and one made 14 minutes ago is not. *)
Lemma automatic_check_boundary :
  1 ∈ snd (run_automatic_checks Sample.net (Sample.app (15 * 60))) /\
  1 ∉ snd (run_automatic_checks Sample.net (Sample.app (14 * 60))).
Proof.
  split.
  - apply (automatic_check_started_iff_due Sample.net (Sample.app (15 * 60)) Sample.account).
    + reflexivity.
    + apply NoDup_singleton.
    + apply list_elem_of_here.
    + reflexivity.
    + cbn [Sample.app session_state last_auto_check Sample.account id check_interval
             wall_clock].
      rewrite lookup_singleton_eq. cbn. lia.
  - intros Hin.
    apply (automatic_check_started_iff_due Sample.net (Sample.app (14 * 60)) Sample.account)
      in Hin.
    + cbn [Sample.app session_state last_auto_check Sample.account id check_interval
             wall_clock] in Hin.
      rewrite lookup_singleton_eq in Hin. cbn in Hin. lia.
    + reflexivity.
    + apply NoDup_singleton.
    + apply list_elem_of_here.
    + reflexivity.
Defined.

(** * Further properties of the monitor *)

(** ** How many mails a retrieval returns *)

Lemma length_last_n {A} (n : nat) (l : list A) : (length (Spec.last_n n l) <= n)%nat.
Proof. unfold Spec.last_n. rewrite length_drop. lia. Qed.

Lemma length_fetch_messages (conn : Connection) (ids : list string) :
  (length (fetch_messages conn ids) <= length ids)%nat.
Proof.
  unfold fetch_messages. induction ids as [|i ids IH]; [reflexivity|].
  cbn [flat_map]. rewrite List.length_app. unfold fetch_message at 1.
  destruct (conn_fetch conn i) as [[] ?|]; cbn [length]; lia.
Qed.

Lemma length_truncated_fetch (conn : Connection) (ids : list string) (n : Z) :
  0 < n ->
  (length (fetch_messages conn (if Py.len_gt ids n then Py.slice_last ids n else ids))
   <= Z.to_nat n)%nat.
Proof.
  intros Hn. rewrite truncate_last by assumption.
  etransitivity; [apply length_fetch_messages | apply length_last_n].
Qed.

Lemma selected_emails_bound (conn : option Connection)
    (day max_emails : Z) (get_all get_recent : bool) :
  0 < max_emails ->
  (length (selected_emails conn day max_emails get_all get_recent)
   <= Z.to_nat max_emails)%nat.
Proof.
  intros Hmax.
  assert (Hnil : (@length EmailInfo [] <= Z.to_nat max_emails)%nat) by (cbn; lia).
  unfold selected_emails.
  destruct get_recent; [|destruct get_all].
  - unfold get_recent_emails, or_empty, rbind, attr.
    destruct conn as [conn|]; [|exact Hnil].
    destruct (conn_select conn) as [ok []|]; [|exact Hnil]. cbn [imap].
    destruct (conn_search conn _) as [[] ids|]; cbn [imap negb]; try exact Hnil.
    destruct (nonempty ids); cbn [negb]; [|exact Hnil].
    now apply length_truncated_fetch.
  - unfold get_all_emails, or_empty, rbind, attr.
    destruct conn as [conn|]; [|exact Hnil].
    destruct (conn_select conn) as [ok []|]; [|exact Hnil]. cbn [imap].
    destruct (conn_search conn _) as [[] ids|]; cbn [imap negb]; try exact Hnil.
    destruct (nonempty ids); cbn [negb]; [|exact Hnil].
    now apply length_truncated_fetch.
  - unfold get_recent_unread_emails, or_empty, rbind, attr.
    destruct conn as [conn|]; [|exact Hnil].
    destruct (conn_select conn) as [ok []|]; [|exact Hnil]. cbn [imap].
    destruct (conn_search conn (UNSEEN_SINCE _)) as [ok1 unread|]; [|exact Hnil].
    cbn [imap].
    destruct (conn_search conn (SEEN_SINCE _)) as [ok2 read|]; [|exact Hnil].
    cbn [imap].
    rewrite truncate_last by assumption. apply length_last_n.
Qed.

Lemma get_unread_emails_bound (conn : option Connection) (max_emails : Z) :
  0 < max_emails ->
  (length (get_unread_emails conn max_emails) <= Z.to_nat max_emails)%nat.
Proof.
  intros Hmax.
  assert (Hnil : (@length EmailInfo [] <= Z.to_nat max_emails)%nat) by (cbn; lia).
  unfold get_unread_emails, or_empty, rbind, attr.
  destruct conn as [conn|]; [|exact Hnil].
  destruct (conn_select conn) as [ok []|]; [|exact Hnil]. cbn [imap].
  destruct (conn_search conn _) as [[] ids|]; cbn [imap negb]; try exact Hnil.
  now apply length_truncated_fetch.
Qed.

(** Whatever the server answers and whichever strategy is selected, a
    positive limit bounds the batch: no retrieval (all, recent, hybrid, or
    unread only) returns more than [max_emails] mails. *)
Theorem retrieval_returns_at_most_max_emails (conn : option Connection)
    (day max_emails : Z) (get_all get_recent : bool) :
  0 < max_emails ->
  (length (selected_emails conn day max_emails get_all get_recent)
   <= Z.to_nat max_emails)%nat /\
  (length (get_unread_emails conn max_emails) <= Z.to_nat max_emails)%nat.
Proof.
  intros Hmax. split.
  - now apply selected_emails_bound.
  - now apply get_unread_emails_bound.
Qed.

(** The sample mailbox holds thirty messages; a limit of 12 yields at most
    12 under each strategy. *)
Lemma retrieval_returns_at_most_max_emails_sample :
  (length (selected_emails (Some Sample.mailbox) 20000 12 true false) <= 12)%nat /\
  (length (selected_emails (Some Sample.mailbox) 20000 12 false true) <= 12)%nat /\
  (length (selected_emails (Some Sample.mailbox) 20000 12 false false) <= 12)%nat /\
  (length (get_unread_emails (Some Sample.mailbox) 12) <= 12)%nat.
Proof.
  split; [|split; [|split]].
  - apply (retrieval_returns_at_most_max_emails (Some Sample.mailbox) 20000 12 true false).
    lia.
  - apply (retrieval_returns_at_most_max_emails (Some Sample.mailbox) 20000 12 false true).
    lia.
  - apply (retrieval_returns_at_most_max_emails (Some Sample.mailbox) 20000 12 false false).
    lia.
  - apply (retrieval_returns_at_most_max_emails (Some Sample.mailbox) 20000 12 false false).
    lia.
Defined.

(** With a limit of 0 the slice [email_ids[-0:]] keeps every id: nothing
    is cut. *)
Example get_all_emails_limit_zero :
  length (get_all_emails (Some Sample.mailbox) 0) = 30%nat.
Proof. vm_compute. reflexivity. Qed.

(** ** The rows a pass appends *)

Lemma keys_app (d d' : Database) (new : list AnalyzedEmail) :
  analyzed_emails d' = analyzed_emails d ++ new ->
  keys d' = keys d ++ map (fun r => (ae_account_id r, ae_email_id r)) new.
Proof. intros H. unfold keys. now rewrite H, List.map_app. Qed.

Lemma key_in_new_rows (account_id : Z) (eid : string) (new : list AnalyzedEmail) :
  Forall (fun r => ae_account_id r = account_id) new ->
  (account_id, eid) ∈ map (fun r => (ae_account_id r, ae_email_id r)) new
  <-> eid ∈ map ae_email_id new.
Proof.
  induction 1 as [|r new Hr _ IH]; cbn [map].
  - split; intros H; inversion H.
  - rewrite !elem_of_cons, IH, Hr. split; intros [H|H]; auto; left; congruence.
Qed.

Lemma process_email_rows (account_id : Z) (tally : Tally) (email_info : EmailInfo)
    (self : EmailMonitor) :
  exists self' tally' new,
    process_email account_id tally email_info self = (self', Ok tally') /\
    analyzed_emails (db self') = analyzed_emails (db self) ++ new /\
    email_accounts (db self') = email_accounts (db self) /\
    Forall (fun r => ae_account_id r = account_id) new /\
    NoDup (map ae_email_id new) /\
    (forall eid, eid ∈ map ae_email_id new <->
       is_Some (select_account (db self) account_id) /\
       (eid = email_id email_info /\ is_text (date email_info) = true) /\
       (account_id, eid) ∉ keys (db self)).
Proof.
  unfold process_email, try_except, bind.
  destruct (store_email_cases account_id email_info (analyze_email_spam email_info) self)
    as (self' & stored & -> & _ & _ & Hacc &
        [(-> & -> & Hwhy) | (-> & Hnone & Htext & Hsome & row & Hrows & Ha & He & _)]).
  - exists self, tally, []. cbn [ret map]. rewrite app_nil_r.
    split; [reflexivity|]. split; [reflexivity|]. split; [reflexivity|].
    split; [constructor|]. split; [constructor|].
    intros eid. split; [intros H; inversion H|].
    intros (Hex & [-> Htext] & Hk). exfalso. destruct Hwhy as [Hf|[Hb|Hn]].
    + now apply select_email_found in Hf.
    + congruence.
    + rewrite Hn in Hex. now destruct Hex.
  - eexists self', _, [row]. cbn [ret map]. split; [reflexivity|].
    apply select_email_missing in Hnone.
    split; [assumption|]. split; [assumption|].
    split; [repeat constructor; assumption|]. split; [apply NoDup_singleton|].
    intros eid. rewrite list_elem_of_singleton, He. split.
    + intros ->. auto.
    + tauto.
Qed.

Lemma elem_of_bindable_cons (eid : string) (e : EmailInfo) (emails : list EmailInfo) :
  eid ∈ map email_id (bindable (e :: emails)) <->
  (eid = email_id e /\ is_text (date e) = true) \/ eid ∈ map email_id (bindable emails).
Proof.
  unfold bindable. cbn [List.filter].
  destruct (is_text (date e)); cbn [map].
  - rewrite elem_of_cons. tauto.
  - split; [tauto | intros [[_ [=]]|H]; assumption].
Qed.

Lemma bindable_ids (eid : string) (emails : list EmailInfo) :
  eid ∈ map email_id (bindable emails) -> eid ∈ map email_id emails.
Proof.
  induction emails as [|e emails IH]; [auto|].
  rewrite elem_of_bindable_cons. cbn [map]. rewrite elem_of_cons. tauto.
Qed.

(** The rows the loop appends: all for this account, one per distinct
    fetched message id that was not stored before and comes with a date
    that can be bound. *)
Lemma process_emails_rows (account_id : Z) (emails : list EmailInfo) :
  forall (tally : Tally) (self : EmailMonitor),
  exists self' tally' new,
    process_emails account_id tally emails self = (self', Ok tally') /\
    analyzed_emails (db self') = analyzed_emails (db self) ++ new /\
    email_accounts (db self') = email_accounts (db self) /\
    Forall (fun r => ae_account_id r = account_id) new /\
    NoDup (map ae_email_id new) /\
    (forall eid, eid ∈ map ae_email_id new <->
       is_Some (select_account (db self) account_id) /\
       eid ∈ map email_id (bindable emails) /\
       (account_id, eid) ∉ keys (db self)).
Proof.
  induction emails as [|email_info emails IH]; intros tally self.
  - exists self, tally, []. cbn [process_emails ret map]. rewrite app_nil_r.
    split; [reflexivity|]. split; [reflexivity|]. split; [reflexivity|].
    split; [constructor|]. split; [constructor|].
    intros eid. split; [intros H; inversion H | intros (_ & H & _); inversion H].
  - cbn [process_emails]. unfold bind.
    destruct (process_email_rows account_id tally email_info self)
      as (self1 & tally1 & new1 & -> & Hr1 & Ha1 & Hf1 & Hn1 & Hi1).
    destruct (IH tally1 self1)
      as (self2 & tally2 & new2 & -> & Hr2 & Ha2 & Hf2 & Hn2 & Hi2).
    exists self2, tally2, (new1 ++ new2).
    pose proof (keys_app _ _ _ Hr1) as Hk1.
    assert (Hin1 : forall eid, (account_id, eid) ∈ keys (db self1) <->
                     (account_id, eid) ∈ keys (db self) \/ eid ∈ map ae_email_id new1).
    { intros eid. rewrite Hk1, elem_of_app, (key_in_new_rows _ _ _ Hf1). reflexivity. }
    split; [reflexivity|].
    split; [rewrite Hr2, Hr1; now rewrite <- app_assoc|].
    split; [congruence|].
    split; [now apply Forall_app|].
    rewrite List.map_app.
    split.
    + apply NoDup_app. split; [assumption|]. split; [|assumption].
      intros eid H1 H2. apply Hi2 in H2 as (_ & _ & Hnot). apply Hnot, Hin1. now right.
    + intros eid. rewrite elem_of_app, Hi1, Hi2, (select_account_same _ _ _ Ha1).
      rewrite elem_of_bindable_cons, Hin1, Hi1. split.
      * intros [(Hs & [-> Ht] & Hk) | (Hs & He & Hk)]; [tauto|].
        split; [assumption|]. split; [now right|]. tauto.
      * intros (Hs & [[-> Ht]|He] & Hk); [tauto|].
        destruct (decide (eid = email_id email_info)) as [->|Hne];
          [destruct (is_text (date email_info)) eqn:Ht; [tauto|] |];
          right; (split; [assumption|]); (split; [assumption|]);
          intros [?|(_ & [? ?] & _)]; congruence.
Qed.

(** ** The report of a pass *)

Lemma pass_report (net : Network) (account_id max_emails : Z) (get_all get_recent : bool)
    (self : EmailMonitor) :
  exists self' rep,
    process_account_emails net account_id max_emails get_all get_recent self
    = (self', Ok rep) /\
    connection self' = None /\
    report_account_id rep = account_id /\
    ((~ (exists conn, reachable net (db self) account_id conn) /\
      db self' = db self /\ clock self' = clock self /\
      success rep = false /\
      error rep = Some "No se pudo conectar al servidor"%string /\
      emails_processed rep = 0 /\ spam_detected rep = 0 /\ ham_detected rep = 0 /\
      processing_time rep = 0 /\ message rep = None /\ emails_detail rep = None)
     \/
     exists conn,
       reachable net (db self) account_id conn /\
       success rep = true /\ error rep = None /\
       clock self' = clock self + conn_seconds conn /\
       processing_time rep = conn_seconds conn /\
       let emails := selected_emails (Some conn) (today self) max_emails get_all get_recent in
       ((emails = [] /\ db self' = db self /\
         emails_processed rep = 0 /\ spam_detected rep = 0 /\ ham_detected rep = 0 /\
         message rep = Some "No hay correos nuevos para procesar"%string /\
         emails_detail rep = None)
        \/
        (emails <> [] /\
         exists self2 tally,
           process_emails account_id empty_tally emails (served conn self)
           = (self2, Ok tally) /\
           db self' = update_accounts (db self2) (clock self + conn_seconds conn)
                        (Z.of_nat (length (processed_emails tally)))
                        (spam_count tally) account_id /\
           emails_processed rep = Z.of_nat (length (processed_emails tally)) /\
           spam_detected rep = spam_count tally /\
           ham_detected rep = ham_count tally /\
           message rep = None /\
           emails_detail rep = Some (processed_emails tally)))).
Proof.
  unfold process_account_emails, bind at 1, get at 1.
  unfold try_finally, try_except at 1, bind at 1.
  rewrite connect_to_server_cases.
  destruct (select_account (db self) account_id) as [a|] eqn:Hacc.
  2:{ cbn [negb ret].
      destruct (disconnect_returns self) as (self' & -> & Hc & Hd & Ht).
      eexists _, _. split; [reflexivity|]. split; [assumption|].
      split; [reflexivity|]. left.
      cbn. split; [|auto 12]. intros (conn & a' & Ha' & _). congruence. }
  destruct (net (server a) (port a) (email a) (password a)) as [|conn|conn] eqn:Hnet.
  - cbn [negb ret].
    destruct (disconnect_returns self) as (self' & -> & Hc & Hd & Ht).
    eexists _, _. split; [reflexivity|]. split; [assumption|].
    split; [reflexivity|]. left.
    cbn. split; [|auto 12]. intros (conn0 & a' & Ha' & Hn). congruence.
  - cbn [negb ret].
    rewrite (disconnect_connected _ conn) by reflexivity.
    eexists _, _. split; [reflexivity|]. split; [reflexivity|].
    split; [reflexivity|]. left.
    cbn. split; [|auto 12]. intros (conn' & a' & Ha' & Hn). congruence.
  - cbn [negb]. unfold retrieve, bind, get, wait, ret. cbn [connection clock db from_option].
    fold (served conn self).
    change (today _) with (today self).
    destruct (selected_emails (Some conn) (today self) max_emails get_all get_recent)
      as [|e emails] eqn:Hsel.
    + cbn [nonempty negb].
      rewrite (disconnect_connected _ conn) by reflexivity.
      eexists _, _. split; [reflexivity|]. split; [reflexivity|].
      split; [reflexivity|]. right.
      exists conn. split; [exists a; auto|]. cbn zeta. rewrite Hsel.
      cbn. split; [reflexivity|]. split; [reflexivity|]. split; [reflexivity|].
      split; [lia|]. left. auto 8.
    + cbn [nonempty negb]. fold empty_tally.
      destruct (process_emails_spec account_id (e :: emails) empty_tally (served conn self))
        as (self2 & tally & new & Hrun & Hc2 & Ht2 & _).
      rewrite Hrun.
      unfold _update_account_statistics, try_except, bind, get, set_db.
      cbn [connection clock db].
      rewrite (disconnect_connected _ conn) by (cbn; rewrite Hc2; reflexivity).
      eexists _, _. split; [reflexivity|]. split; [reflexivity|].
      split; [reflexivity|]. right.
      exists conn. split; [exists a; auto|]. cbn zeta. rewrite Hsel.
      cbn [success error clock cleared processing_time db emails_processed spam_detected
             ham_detected message emails_detail].
      rewrite Ht2. cbn [served clock].
      split; [reflexivity|]. split; [reflexivity|]. split; [reflexivity|].
      split; [lia|].
      right. split; [discriminate|].
      exists self2, tally. auto 8.
Qed.

Lemma retrieval_fails_empty (conn : Connection) (day max_emails : Z)
    (get_all get_recent : bool) :
  conn_select conn = Failure \/ (forall key, conn_search conn key = Failure) ->
  selected_emails (Some conn) day max_emails get_all get_recent = [].
Proof.
  intros Hfail. unfold selected_emails, get_recent_emails, get_all_emails,
    get_recent_unread_emails, or_empty, rbind, attr.
  destruct Hfail as [Hs|Hs].
  - rewrite Hs. now destruct get_recent, get_all.
  - rewrite !Hs. destruct (conn_select conn) as [? []|]; now destruct get_recent, get_all.
Qed.

(** A retrieval that fails (INBOX cannot be selected, or the searches
    raise) does not fail the pass: the pass reports success with no mail and
    the message that there is nothing new, and leaves the database, with
    the account's [last_check_at], as it was. *)
Theorem failed_retrieval_is_reported_as_empty_success (net : Network)
    (account_id max_emails : Z) (get_all get_recent : bool) (self : EmailMonitor)
    (conn : Connection) :
  reachable net (db self) account_id conn ->
  conn_select conn = Failure \/ (forall key, conn_search conn key = Failure) ->
  let '(self1, r) :=
    process_account_emails net account_id max_emails get_all get_recent self in
  exists rep,
    r = Ok rep /\ success rep = true /\ error rep = None /\
    emails_processed rep = 0 /\
    message rep = Some "No hay correos nuevos para procesar"%string /\
    db self1 = db self /\ connection self1 = None.
Proof.
  intros Hreach Hfail.
  destruct (pass_report net account_id max_emails get_all get_recent self)
    as (self1 & rep & -> & Hc & _ & Hcase).
  exists rep. split; [reflexivity|].
  destruct Hcase as [(Hnot & _) | (conn' & Hr & Hok & Herr & _ & _ & Hcase)].
  - exfalso. apply Hnot. eauto.
  - rewrite (reachable_unique _ _ _ _ _ Hr Hreach) in *. cbn zeta in Hcase.
    rewrite (retrieval_fails_empty conn _ _ _ _ Hfail) in Hcase.
    destruct Hcase as [(_ & Hdb & Hp & _ & _ & Hm & _) | (Hne & _)]; [auto 8|].
    now destruct Hne.
Qed.

(** A mailbox that cannot be selected: the pass still reports success. *)
Lemma failed_retrieval_sample :
  let '(self1, r) :=
    process_account_emails Cases.unselectable_net 1 12 false false Sample.monitor in
  exists rep,
    r = Ok rep /\ success rep = true /\ error rep = None /\
    emails_processed rep = 0 /\
    message rep = Some "No hay correos nuevos para procesar"%string /\
    db self1 = db Sample.monitor /\ connection self1 = None.
Proof.
  apply (failed_retrieval_is_reported_as_empty_success Cases.unselectable_net 1 12
           false false Sample.monitor Cases.unselectable).
  - exists Sample.account. split; reflexivity.
  - left. reflexivity.
Defined.

Lemma spam_and_ham_rows (rows : list AnalyzedEmail) :
  spam_rows rows + ham_rows rows = Z.of_nat (length rows) /\
  0 <= spam_rows rows /\ 0 <= ham_rows rows.
Proof.
  unfold spam_rows, ham_rows. induction rows as [|r rows IH]; cbn [List.filter length].
  - lia.
  - destruct (ae_is_spam r); cbn [negb length]; lia.
Qed.

Lemma new_rows_at_most_fetched (new : list AnalyzedEmail) (emails : list EmailInfo) :
  NoDup (map ae_email_id new) ->
  (forall eid, eid ∈ map ae_email_id new -> eid ∈ map email_id emails) ->
  (length new <= length emails)%nat.
Proof.
  intros Hnd Hsub.
  rewrite <- (List.length_map ae_email_id new), <- (List.length_map email_id emails).
  apply submseteq_length, NoDup_submseteq; assumption.
Qed.

(** The figures of a report agree with each other: the mails processed
    are the spam and the ham ones, the detail list has one entry per
    processed mail, a positive limit bounds the number processed, and a
    failed pass reports an error and no mail. *)
Theorem report_figures_agree (net : Network) (account_id max_emails : Z)
    (get_all get_recent : bool) (self : EmailMonitor) :
  let '(self1, r) :=
    process_account_emails net account_id max_emails get_all get_recent self in
  exists rep,
    r = Ok rep /\
    report_account_id rep = account_id /\
    emails_processed rep = spam_detected rep + ham_detected rep /\
    0 <= spam_detected rep /\ 0 <= ham_detected rep /\
    (forall detail, emails_detail rep = Some detail ->
       Z.of_nat (length detail) = emails_processed rep) /\
    (0 < max_emails -> emails_processed rep <= max_emails) /\
    (success rep = false ->
       is_Some (error rep) /\ emails_processed rep = 0 /\ emails_detail rep = None).
Proof.
  destruct (pass_report net account_id max_emails get_all get_recent self)
    as (self1 & rep & -> & _ & Hid & Hcase).
  exists rep. split; [reflexivity|]. split; [assumption|].
  destruct Hcase as [(_ & _ & _ & Hf & He & Hp & Hs & Hh & _ & _ & Hd) |
                     (conn & _ & Hok & _ & _ & _ & Hcase)].
  - rewrite Hp, Hs, Hh, Hd, He. repeat split; try lia; try discriminate; eauto.
  - cbn zeta in Hcase. rewrite Hok.
    destruct Hcase as [(_ & _ & Hp & Hs & Hh & _ & Hd) |
                       (_ & self2 & tally & Hloop & _ & Hp & Hs & Hh & _ & Hd)].
    + rewrite Hp, Hs, Hh, Hd. repeat split; try lia; discriminate.
    + destruct (process_emails_spec account_id
                  (selected_emails (Some conn) (today self) max_emails get_all get_recent)
                  empty_tally (served conn self))
        as (self2' & tally' & new & Hloop' & _ & _ & _ & Hrows & Hlen & Hspam & Hham & _).
      rewrite Hloop in Hloop'. injection Hloop' as <- <-.
      destruct (process_emails_rows account_id
                  (selected_emails (Some conn) (today self) max_emails get_all get_recent)
                  empty_tally (served conn self))
        as (self2' & tally' & new' & Hloop' & Hrows' & _ & _ & Hnd & Hin).
      rewrite Hloop in Hloop'. injection Hloop' as <- <-.
      rewrite Hrows in Hrows'. apply app_inv_head in Hrows'. subst new'.
      cbn [empty_tally processed_emails spam_count ham_count length] in Hlen, Hspam, Hham.
      destruct (spam_and_ham_rows new) as (Hsum & Hs0 & Hh0).
      rewrite Hp, Hs, Hh, Hd, Hlen, Hspam, Hham, Nat.add_0_l, !Z.add_0_l.
      split; [lia|]. split; [lia|]. split; [lia|].
      split; [intros detail [= <-]; now rewrite Hlen|].
      split; [|discriminate].
      intros Hmax.
      pose proof (selected_emails_bound (Some conn) (today self)
                    max_emails get_all get_recent Hmax) as Hbound.
      assert (length new <=
              length (selected_emails (Some conn) (today self) max_emails
                        get_all get_recent))%nat
        by (apply new_rows_at_most_fetched;
            [assumption | intros eid H; apply Hin in H; now apply bindable_ids]).
      lia.
Qed.

(** ** What a pass stores, keeps and leaves alone *)

Lemma pass_rows_fresh (net : Network)
    (account_id max_emails : Z) (get_all get_recent : bool) (self : EmailMonitor) :
  let self1 :=
    fst (process_account_emails net account_id max_emails get_all get_recent self) in
  exists new,
    analyzed_emails (db self1) = analyzed_emails (db self) ++ new /\
    Forall (fun r => ae_account_id r = account_id) new /\
    NoDup (map ae_email_id new) /\
    (forall eid, eid ∈ map ae_email_id new -> (account_id, eid) ∉ keys (db self)).
Proof.
  destruct (pass_report net account_id max_emails get_all get_recent self)
    as (self1 & rep & -> & _ & _ & Hcase).
  cbn [fst].
  assert (Hnone : db self1 = db self ->
            exists new : list AnalyzedEmail,
              analyzed_emails (db self1) = analyzed_emails (db self) ++ new /\
              Forall (fun r => ae_account_id r = account_id) new /\
              NoDup (map ae_email_id new) /\
              (forall eid, eid ∈ map ae_email_id new ->
                 (account_id, eid) ∉ keys (db self))).
  { intros ->. exists []. rewrite app_nil_r.
    split; [reflexivity|]. split; [constructor|]. split; [constructor|].
    intros eid H. inversion H. }
  destruct Hcase as [(_ & Hdb & _) | (conn & Hr & _ & _ & _ & _ & Hcase)]; [auto|].
  cbn zeta in Hcase.
  destruct Hcase as [(_ & Hdb & _) | (_ & self2 & tally & Hloop & Hdb & _)]; [auto|].
  destruct (process_emails_rows account_id
              (selected_emails (Some conn) (today self) max_emails get_all get_recent)
              empty_tally (served conn self))
    as (self2' & tally' & new & Hloop' & Hrows & _ & Hf & Hnd & Hin).
  rewrite Hloop in Hloop'. injection Hloop' as <- <-.
  exists new. rewrite Hdb. cbn [update_accounts analyzed_emails].
  split; [exact Hrows|]. split; [assumption|]. split; [assumption|].
  intros eid Heid. apply Hin in Heid. cbn [served db keys] in Heid. tauto.
Qed.


(** Messages 7 and 8 are returned by both searches of the hybrid strategy:
    four mails are fetched, two rows are stored. *)
Example overlapping_batch_is_stored_once :
  let '(self1, r) :=
    process_account_emails Cases.overlapping_net 1 12 false false Sample.monitor in
  map email_id (selected_emails (Some Cases.overlapping) 0 12 false false)
  = ["7"; "8"; "7"; "8"]%string /\
  map ae_email_id (analyzed_emails (db self1)) = ["7"; "8"]%string /\
  total_checked (db self1) 1 = 2.
Proof. vm_compute. auto. Qed.

Lemma new_keys_unique (account_id : Z) (new : list AnalyzedEmail) :
  Forall (fun r => ae_account_id r = account_id) new ->
  NoDup (map ae_email_id new) ->
  NoDup (map (fun r => (ae_account_id r, ae_email_id r)) new).
Proof.
  induction 1 as [|r new Hr Hf IH]; cbn [map]; intros Hnd; [constructor|].
  apply NoDup_cons in Hnd as [Hfresh Hnd]. apply NoDup_cons. split; [|auto].
  rewrite Hr, (key_in_new_rows _ _ _ Hf). assumption.
Qed.

Lemma reachable_or_not (net : Network) (d : Database) (account_id : Z) :
  (exists conn, reachable net d account_id conn) \/
  ~ (exists conn, reachable net d account_id conn).
Proof.
  unfold reachable. destruct (select_account d account_id) as [a|].
  - destruct (net (server a) (port a) (email a) (password a)) as [|conn|conn] eqn:Hnet.
    + right. intros (conn & a' & [= <-] & Hn). congruence.
    + right. intros (conn' & a' & [= <-] & Hn). congruence.
    + left. eauto.
  - right. intros (conn & a' & [=] & _).
Qed.

(** A pass never raises and always ends with the connection closed, also
    when the login was rejected after the socket was opened; it never
    removes or rewrites a stored mail, and it keeps the stored pairs
    distinct. *)
Theorem pass_closes_connection_and_keeps_rows (net : Network)
    (account_id max_emails : Z) (get_all get_recent : bool) (self : EmailMonitor) :
  let '(self1, r) :=
    process_account_emails net account_id max_emails get_all get_recent self in
  (exists rep, r = Ok rep) /\
  connection self1 = None /\
  (exists new, analyzed_emails (db self1) = analyzed_emails (db self) ++ new) /\
  (NoDup (keys (db self)) -> NoDup (keys (db self1))).
Proof.
  pose proof (pass_rows_fresh net account_id max_emails
                get_all get_recent self) as Hrows.
  cbn zeta in Hrows.
  destruct (pass_report net account_id max_emails get_all get_recent self)
    as (self1 & rep & Hrun & Hc & _ & _).
  rewrite Hrun in Hrows |- *. cbn [fst] in Hrows.
  destruct Hrows as (new & Hnew & Hf & Hnd & Hfresh).
  split; [eauto|]. split; [assumption|]. split; [eauto|].
  intros Hkeys. rewrite (keys_app _ _ _ Hnew). apply NoDup_app.
  split; [assumption|]. split; [|now apply (new_keys_unique account_id)].
  intros [acc eid] Hold Hnew'.
  assert (acc = account_id) as ->.
  { apply list_elem_of_In, List.in_map_iff in Hnew' as (r & [= <- <-] & Hr).
    rewrite Forall_forall in Hf. apply Hf. now apply list_elem_of_In. }
  apply (key_in_new_rows _ _ _ Hf) in Hnew'.
  now apply Hfresh in Hnew'.
Qed.

Lemma update_account_row_settings (now n s account_id : Z) (a : Account) :
  0 <= n -> 0 <= s ->
  let a' := update_account_row now n s account_id a in
  same_settings a a' /\ (id a <> account_id -> a' = a) /\
  total_emails_checked a <= total_emails_checked a' /\
  total_spam_detected a <= total_spam_detected a'.
Proof.
  intros Hn Hs. cbn zeta. unfold update_account_row, same_settings.
  destruct (Z.eqb_spec (id a) account_id); cbn;
    repeat split; try reflexivity; try lia; contradiction.
Qed.

(** A pass writes to the row of its own account only, and there only to
    [last_check_at] and the two counters, which never decrease: the address,
    the credentials, the server, the interval, the batch size and the active
    flag of every account stay as configured, and no account row is added
    or removed. *)
Theorem pass_leaves_account_settings (net : Network)
    (account_id max_emails : Z) (get_all get_recent : bool) (self : EmailMonitor) :
  let self1 :=
    fst (process_account_emails net account_id max_emails get_all get_recent self) in
  Forall2 (fun a a' =>
             same_settings a a' /\ (id a <> account_id -> a' = a) /\
             total_emails_checked a <= total_emails_checked a' /\
             total_spam_detected a <= total_spam_detected a')
          (email_accounts (db self)) (email_accounts (db self1)).
Proof.
  destruct (pass_report net account_id max_emails get_all get_recent self)
    as (self1 & rep & -> & _ & _ & Hcase).
  cbn [fst].
  assert (Hsame : db self1 = db self ->
            Forall2 (fun a a' =>
                       same_settings a a' /\ (id a <> account_id -> a' = a) /\
                       total_emails_checked a <= total_emails_checked a' /\
                       total_spam_detected a <= total_spam_detected a')
                    (email_accounts (db self)) (email_accounts (db self1))).
  { intros ->. induction (email_accounts (db self)) as [|a l IH]; constructor.
    - unfold same_settings. repeat split; auto; lia.
    - exact IH. }
  destruct Hcase as [(_ & Hdb & _) | (conn & _ & _ & _ & _ & _ & Hcase)]; [auto|].
  cbn zeta in Hcase.
  destruct Hcase as [(_ & Hdb & _) | (_ & self2 & tally & Hloop & Hdb & _)]; [auto|].
  destruct (process_emails_spec account_id
              (selected_emails (Some conn) (today self) max_emails get_all get_recent)
              empty_tally (served conn self))
    as (self2' & tally' & new & Hloop' & _ & _ & Hacc & _ & _ & Hspam & _).
  rewrite Hloop in Hloop'. injection Hloop' as <- <-.
  rewrite Hdb. cbn [update_accounts email_accounts]. rewrite Hacc. cbn [served db].
  pose proof (spam_and_ham_rows new) as (_ & Hs0 & _).
  cbn [empty_tally spam_count] in Hspam. clear Hsame.
  induction (email_accounts (db self)) as [|a l IH]; cbn [map]; constructor.
  - apply update_account_row_settings; lia.
  - exact IH.
Qed.

(** ** Storing and finding a mail *)



(** A mail for an account that has no row is refused: the insert violates
    the foreign key, the error is swallowed and nothing is stored. *)
Example store_for_unknown_account :
  let info := _extract_email_info (Sample.message "hi" "there") "42" in
  store_email_in_database 99 info (analyze_email_spam info) Sample.monitor
  = (Sample.monitor, Ok false).
Proof. vm_compute. reflexivity. Qed.

(** A message whose Date header came as a [Header] object is fetched and
    analysed but not stored: the date cannot be bound to the statement, the
    error is swallowed, and the pass reports success with no mail
    processed. *)
Example header_object_date_is_not_stored :
  let '(self1, r) :=
    process_account_emails Cases.raw_date_net 1 12 false false Sample.monitor in
  map email_id (selected_emails (Some Cases.raw_date) 0 12 false false) = ["9"%string] /\
  analyzed_emails (db self1) = [] /\
  match r with
  | Ok rep => success rep = true /\ emails_processed rep = 0
  | Raised _ => False
  end.
Proof. vm_compute. auto. Qed.

Lemma store_keeps_rows_in_step (account_id : Z) (email_info : EmailInfo) (a : Analysis)
    (self : EmailMonitor) :
  rows_in_step (db self) ->
  rows_in_step (db (fst (store_email_in_database account_id email_info a self))).
Proof.
  intros Hinv. pose proof Hinv as (Hle & Hnd & Hfeat).
  unfold store_email_in_database, try_except, bind, get, lift, ret,
    insert_analyzed_email.
  destruct (select_email (db self) account_id (email_id email_info)); [exact Hinv|].
  destruct (date email_info) as [received_at|raw]; cbn [bound]; [|exact Hinv].
  destruct (select_account (db self) account_id); [|exact Hinv].
  cbn. unfold rows_in_step, insert_email_features.
  cbn [analyzed_emails email_features analyzed_emails_seq].
  rewrite !List.map_app. cbn [map ef_email_id ae_id].
  split; [|split].
  - apply Forall_app. split; [|apply Forall_singleton; cbn [ae_id]; lia].
    eapply Forall_impl; [exact Hle|]. cbn. intros r' Hr'. lia.
  - apply NoDup_app. split; [assumption|]. split; [|apply NoDup_singleton].
    intros i Hi Hrow. apply list_elem_of_singleton in Hrow. subst i.
    apply list_elem_of_In, List.in_map_iff in Hi as (r' & Heq & Hin).
    rewrite Forall_forall in Hle. apply list_elem_of_In, Hle in Hin. lia.
  - now rewrite Hfeat.
Qed.

Lemma process_emails_keep_rows_in_step (account_id : Z) (emails : list EmailInfo) :
  forall (tally : Tally) (self : EmailMonitor),
  rows_in_step (db self) ->
  rows_in_step (db (fst (process_emails account_id tally emails self))).
Proof.
  induction emails as [|e emails IH]; intros tally self Hinv; [exact Hinv|].
  cbn [process_emails]. unfold bind.
  pose proof (store_keeps_rows_in_step account_id e (analyze_email_spam e) self Hinv) as Hstep.
  destruct (process_email_step account_id tally e self) as (self1 & tally1 & new & Hrun & _).
  assert (Hdb : db self1 = db (fst (store_email_in_database account_id e
                                      (analyze_email_spam e) self))).
  { revert Hrun. unfold process_email, try_except, bind, ret.
    destruct (store_email_in_database account_id e (analyze_email_spam e) self)
      as [self' [[]|err]]; cbn [fst]; now intros [= <- _]. }
  rewrite Hrun. apply IH. now rewrite Hdb.
Qed.

(** Every store call and every pass keeps the mail table and the feature
    table in step: row keys stay distinct and below the counter, and the
    feature rows are exactly those of the stored mails, in the same order. *)
Theorem mails_and_features_stay_in_step :
  (forall (calls : list (Z * EmailInfo * Analysis)) (self : EmailMonitor),
     rows_in_step (db self) -> rows_in_step (db (store_sequence calls self)))
  /\
  (forall (net : Network) (account_id max_emails : Z) (get_all get_recent : bool)
          (self : EmailMonitor),
     rows_in_step (db self) ->
     rows_in_step
       (db (fst (process_account_emails net account_id max_emails
                   get_all get_recent self)))).
Proof.
  split.
  - induction calls as [|[[account_id email_info] a] calls IH]; intros self Hinv;
      cbn [store_sequence]; [assumption|].
    apply IH. now apply store_keeps_rows_in_step.
  - intros net account_id max_emails get_all get_recent self Hinv.
    destruct (pass_report net account_id max_emails get_all get_recent self)
      as (self1 & rep & -> & _ & _ & Hcase). cbn [fst].
    destruct Hcase as [(_ & Hdb & _) | (conn & _ & _ & _ & _ & _ & Hcase)];
      [now rewrite Hdb|].
    cbn zeta in Hcase.
    destruct Hcase as [(_ & Hdb & _) | (_ & self2 & tally & Hloop & Hdb & _)];
      [now rewrite Hdb|].
    pose proof (process_emails_keep_rows_in_step account_id
                  (selected_emails (Some conn) (today self) max_emails get_all get_recent)
                  empty_tally (served conn self) Hinv) as Hkeep.
    rewrite Hloop in Hkeep. cbn [fst] in Hkeep. rewrite Hdb. exact Hkeep.
Qed.

(** The sample database is in step, and so it is after a pass. *)
Lemma mails_and_features_stay_in_step_sample :
  rows_in_step
    (db (fst (process_account_emails Sample.net 1 12 false false Sample.monitor))).
Proof.
  apply (proj2 mails_and_features_stay_in_step Sample.net 1 12 false false Sample.monitor).
  repeat split; constructor.
Defined.

(** ** The sender's domain *)

Lemma has_char_cons (c d : ascii) (s : string) :
  has_char c (String d s) = Ascii.eqb c d || has_char c s.
Proof.
  unfold has_char. cbn [Py.contains String.prefix].
  destruct (ascii_dec c d) as [->|Hne].
  - rewrite Ascii.eqb_refl. now destruct s.
  - apply Ascii.eqb_neq in Hne. now rewrite Hne.
Qed.

Lemma has_char_empty (c : ascii) : has_char c "" = false.
Proof. reflexivity. Qed.

Lemma has_char_app (c : ascii) (s t : string) :
  has_char c (s ++ t) = has_char c s || has_char c t.
Proof.
  induction s as [|d s IH]; [reflexivity|].
  change (String d s ++ t)%string with (String d (s ++ t)).
  rewrite !has_char_cons, IH. now rewrite orb_assoc.
Qed.

Lemma after_last_cons (c d : ascii) (s : string) :
  Py.after_last c (String d s) =
  if has_char c s then Py.after_last c s else if Ascii.eqb c d then s else String d s.
Proof. reflexivity. Qed.

Lemma after_last_free (c : ascii) (s : string) : has_char c (Py.after_last c s) = false.
Proof.
  induction s as [|d s IH]; [reflexivity|].
  rewrite after_last_cons. destruct (has_char c s) eqn:Hs; [exact IH|].
  destruct (Ascii.eqb c d) eqn:Hd; [exact Hs|].
  now rewrite has_char_cons, Hd, Hs.
Qed.

Lemma after_last_app (c : ascii) (p h : string) :
  has_char c h = false -> Py.after_last c (p ++ String c h) = h.
Proof.
  intros Hh. induction p as [|d p IH].
  - change ("" ++ String c h)%string with (String c h).
    now rewrite after_last_cons, Hh, Ascii.eqb_refl.
  - change (String d p ++ String c h)%string with (String d (p ++ String c h)).
    rewrite after_last_cons, has_char_app, has_char_cons, Ascii.eqb_refl.
    rewrite orb_true_r. exact IH.
Qed.

Lemma after_last_absent (c : ascii) (s : string) :
  has_char c s = false -> Py.after_last c s = s.
Proof.
  destruct s as [|d s]; [reflexivity|].
  rewrite has_char_cons, after_last_cons. intros H.
  apply orb_false_iff in H as [-> ->]. reflexivity.
Qed.

Lemma before_first_free (c : ascii) (s : string) : has_char c (Py.before_first c s) = false.
Proof.
  induction s as [|d s IH]; [reflexivity|]. cbn [Py.before_first].
  destruct (Ascii.eqb c d) eqn:Hd; [reflexivity|].
  now rewrite has_char_cons, Hd, IH.
Qed.

Lemma before_first_keeps_absent (x c : ascii) (s : string) :
  has_char x s = false -> has_char x (Py.before_first c s) = false.
Proof.
  induction s as [|d s IH]; [reflexivity|]. cbn [Py.before_first].
  rewrite has_char_cons. intros H. apply orb_false_iff in H as [Hd Hs].
  destruct (Ascii.eqb c d); [reflexivity|].
  now rewrite has_char_cons, Hd, IH.
Qed.

Lemma before_first_app (c : ascii) (h t : string) :
  has_char c h = false -> Py.before_first c (h ++ String c t) = h.
Proof.
  induction h as [|d h IH]; intros Hh.
  - change ("" ++ String c t)%string with (String c t).
    cbn [Py.before_first]. now rewrite Ascii.eqb_refl.
  - rewrite has_char_cons in Hh. apply orb_false_iff in Hh as [Hd Hh].
    change (String d h ++ String c t)%string with (String d (h ++ String c t)).
    cbn [Py.before_first]. rewrite Hd, IH by assumption. reflexivity.
Qed.

Lemma before_first_absent (c : ascii) (s : string) :
  has_char c s = false -> Py.before_first c s = s.
Proof.
  induction s as [|d s IH]; [reflexivity|]. rewrite has_char_cons. intros H.
  apply orb_false_iff in H as [Hd Hs]. cbn [Py.before_first].
  now rewrite Hd, IH.
Qed.

Lemma append_nonempty (p : string) (c : ascii) (t : string) :
  String.eqb (p ++ String c t) "" = false.
Proof. now destruct p. Qed.

(** The domain stored with a mail never contains "@" or ">". For a
    sender that ends in [@host>], possibly followed by text without "@",
    and for a bare address [...@host], it is [host]; a sender without "@"
    and ">" is taken as its own domain. *)
Theorem sender_domain_is_the_host :
  (forall sender,
     has_char "@" (sender_domain_of sender) = false /\
     has_char ">" (sender_domain_of sender) = false)
  /\
  (forall before host rest,
     has_char "@" host = false -> has_char ">" host = false ->
     has_char "@" rest = false ->
     sender_domain_of (before ++ "@" ++ host ++ ">" ++ rest) = host)
  /\
  (forall before host,
     has_char "@" host = false -> has_char ">" host = false ->
     sender_domain_of (before ++ "@" ++ host) = host)
  /\
  (forall sender,
     has_char "@" sender = false -> has_char ">" sender = false ->
     sender_domain_of sender = sender).
Proof.
  split; [|split; [|split]].
  - intros sender. unfold sender_domain_of.
    destruct (negb (String.eqb sender "")); [|split; reflexivity].
    split; [|apply before_first_free].
    apply before_first_keeps_absent, after_last_free.
  - intros before host rest Ha Hg Hr. unfold sender_domain_of.
    change ("@" ++ host ++ ">" ++ rest)%string with (String "@" (host ++ String ">" rest)).
    rewrite append_nonempty. cbn [negb].
    rewrite after_last_app.
    + now apply before_first_app.
    + rewrite has_char_app, has_char_cons, Ha, Hr. reflexivity.
  - intros before host Ha Hg. unfold sender_domain_of.
    change ("@" ++ host)%string with (String "@" host).
    rewrite append_nonempty. cbn [negb].
    rewrite after_last_app by assumption. now apply before_first_absent.
  - intros sender Ha Hg. unfold sender_domain_of.
    destruct sender as [|c s]; [reflexivity|]. cbn [String.eqb negb].
    rewrite after_last_absent by assumption. now apply before_first_absent.
Qed.

(** The usual forms of a From header. *)
Lemma sender_domain_samples :
  sender_domain_of "Alice <alice@example.org>" = "example.org"%string /\
  sender_domain_of "alice@example.org" = "example.org"%string /\
  sender_domain_of "MAILER-DAEMON" = "MAILER-DAEMON"%string.
Proof.
  split; [|split].
  - apply (proj1 (proj2 sender_domain_is_the_host) "Alice <alice" "example.org" "");
      reflexivity.
  - apply (proj1 (proj2 (proj2 sender_domain_is_the_host)) "alice" "example.org");
      reflexivity.
  - apply (proj2 (proj2 (proj2 sender_domain_is_the_host)) "MAILER-DAEMON"); reflexivity.
Defined.

(** ** Suspicious senders *)

Lemma lower_app (s t : string) : Py.lower (s ++ t) = (Py.lower s ++ Py.lower t)%string.
Proof.
  induction s as [|c s IH]; [reflexivity|].
  change (String c s ++ t)%string with (String c (s ++ t)).
  cbn [Py.lower]. now rewrite IH.
Qed.

Lemma prefix_app (w s : string) : String.prefix w (w ++ s) = true.
Proof.
  induction w as [|c w IH]; [now destruct s|].
  change (String c w ++ s)%string with (String c (w ++ s)).
  cbn [String.prefix]. now destruct (ascii_dec c c).
Qed.

Lemma contains_app (w before after : string) :
  Py.contains w (before ++ w ++ after) = true.
Proof.
  induction before as [|c before IH].
  - change ("" ++ w ++ after)%string with (w ++ after)%string.
    destruct (w ++ after)%string eqn:E; cbn [Py.contains]; rewrite <- E, prefix_app;
      reflexivity.
  - change (String c before ++ w ++ after)%string with (String c (before ++ w ++ after)).
    cbn [Py.contains]. rewrite IH. apply orb_true_r.
Qed.

(** A sender is flagged as soon as a listed domain occurs anywhere in it,
    in any letter case, also inside a longer host name; the feature
    [has_suspicious_domain] is then set whatever the subject and the body. *)
Theorem listed_domain_anywhere_is_suspicious (domain before text after : string)
    (subject content : string) (email_message : option Message) :
  In domain suspicious_domains ->
  Py.lower text = domain ->
  _check_suspicious_domain (before ++ text ++ after) = true /\
  has_suspicious_domain
    (_extract_spam_features subject (before ++ text ++ after) content email_message) = true.
Proof.
  intros Hin Hlow.
  assert (H : _check_suspicious_domain (before ++ text ++ after) = true).
  { unfold _check_suspicious_domain, Py.any_present.
    apply List.existsb_exists. exists domain. split; [assumption|].
    rewrite !lower_app, Hlow. apply contains_app. }
  split; [exact H | exact H].
Qed.

(** A host that merely contains a listed domain is flagged. *)
Lemma listed_domain_anywhere_sample :
  _check_suspicious_domain "Bob <bob@NotSpam.Com.example.org>" = true.
Proof.
  apply (listed_domain_anywhere_is_suspicious "spam.com" "Bob <bob@Not" "Spam.Com"
           ".example.org>" "" "" None).
  - left. reflexivity.
  - reflexivity.
Defined.

(** ** Bounds of the score *)

(** Whatever the feature vector, the score lies between 0 and
    1.2000000000000002 and the confidence between 0 and 1; a mail with at
    most two rules triggered is never spam, one with four or more always
    is, and every spam verdict comes with a confidence above 0.9. *)
Theorem score_bounds_and_rules (email_info : EmailInfo) :
  let a := analyze_email_spam email_info in
  let n := rules_fired (features email_info) in
  PrimFloat.leb 0 (spam_score a) = true /\
  PrimFloat.leb (spam_score a) 1.2000000000000002 = true /\
  PrimFloat.leb 0 (confidence a) = true /\
  PrimFloat.leb (confidence a) 1 = true /\
  ((n <= 2)%nat -> is_spam a = false) /\
  ((4 <= n)%nat -> is_spam a = true) /\
  (is_spam a = true -> (3 <= n)%nat /\ PrimFloat.ltb 0.9 (confidence a) = true).
Proof.
  cbn zeta. unfold analyze_email_spam, rules_fired, Spec.rule_table.
  cbn [spam_score is_spam confidence List.filter fst snd].
  destruct (Py.fgt (caps_ratio (features email_info)) 0.3),
           (3 <? exclamation_count (features email_info)),
           (0 <? urgent_words (features email_info)),
           (2 <? spam_words (features email_info)),
           (has_suspicious_domain (features email_info)),
           (5 <? has_many_links (features email_info));
    vm_compute; repeat split; intros; try reflexivity; try discriminate; lia.
Qed.

(** Three rules can go either way: exclamations, urgent words and spam
    words make spam, uppercase, exclamations and urgent words do not. *)
Example three_rules_either_way :
  rules_fired Sample.three_rules = 3%nat /\
  is_spam (analyze_email_spam (Sample.info_of Sample.three_rules)) = true /\
  rules_fired (Sample.feature_vector 0.5 4 1 0 false 0) = 3%nat /\
  is_spam (analyze_email_spam
             (Sample.info_of (Sample.feature_vector 0.5 4 1 0 false 0))) = false.
Proof. vm_compute. auto. Qed.

(** ** Scoring a fetched message *)

Lemma extracted_caps_ratio (m : Message) (email_id : string) :
  caps_ratio (features (_extract_email_info m email_id)) = 0%float.
Proof.
  cbn [_extract_email_info features _extract_spam_features caps_ratio].
  rewrite full_text_nonempty. cbn [negb].
  rewrite count_isupper_lower, len_full_text.
  unfold Py.truediv.
  assert (0 <= Py.len (msg_subject m)) by (unfold Py.len; lia).
  assert (0 <= Py.len (_extract_content m)) by (unfold Py.len; lia).
  destruct (Z.eqb_spec (Py.len (msg_subject m) + Py.len (_extract_content m) + 1) 0);
    [lia | reflexivity].
Qed.

(** For a message as the monitor fetches and parses it, with a subject and
    a text of ASCII characters, the uppercase rule does not trigger: at most
    five rules count, the score is at most 1.0000000000000002, and without a
    suspicious sender domain at most 0.7000000000000001. The stored size and
    the content-length feature are both the length of the extracted text. *)
Theorem fetched_message_never_scores_uppercase (m : Message) (email_id : string) :
  Py.isascii (msg_subject m) = true ->
  Py.isascii (_extract_content m) = true ->
  let info := _extract_email_info m email_id in
  let a := analyze_email_spam info in
  Py.fgt (caps_ratio (features info)) 0.3 = false /\
  (rules_fired (features info) <= 5)%nat /\
  PrimFloat.leb (spam_score a) 1.0000000000000002 = true /\
  (_check_suspicious_domain (msg_from m) = false ->
   PrimFloat.leb (spam_score a) 0.7000000000000001 = true) /\
  size info = content_length (features info) /\
  size info = Py.len (_extract_content m).
Proof.
  intros _ _. cbn zeta.
  pose proof (extracted_caps_ratio m email_id) as Hcaps.
  assert (Hdom : has_suspicious_domain (features (_extract_email_info m email_id))
                 = _check_suspicious_domain (msg_from m)) by reflexivity.
  unfold analyze_email_spam, rules_fired, Spec.rule_table.
  cbn [spam_score is_spam confidence List.filter fst snd].
  rewrite Hcaps, Hdom.
  change (Py.fgt 0 0.3) with false. cbn [add_if].
  destruct (3 <? exclamation_count (features (_extract_email_info m email_id))),
           (0 <? urgent_words (features (_extract_email_info m email_id))),
           (2 <? spam_words (features (_extract_email_info m email_id))),
           (_check_suspicious_domain (msg_from m)),
           (5 <? has_many_links (features (_extract_email_info m email_id)));
    cbn [length List.filter add_if];
    repeat split; intros; try discriminate; try lia; vm_compute; reflexivity.
Qed.

(** A sample message in capitals: the ratio stays below the threshold and
    no rule fires. *)
Lemma fetched_message_in_capitals :
  let info := _extract_email_info (Sample.message "HELLO WORLD" "BUY NOW") "1" in
  Py.fgt (caps_ratio (features info)) 0.3 = false /\
  (rules_fired (features info) <= 5)%nat /\
  PrimFloat.leb (spam_score (analyze_email_spam info)) 1.0000000000000002 = true.
Proof.
  cbn zeta.
  destruct (fetched_message_never_scores_uppercase
              (Sample.message "HELLO WORLD" "BUY NOW") "1") as (H1 & H2 & H3 & _);
    [reflexivity | reflexivity |].
  split; [exact H1|]. split; [exact H2 | exact H3].
Defined.

(** * Further properties of the scheduler *)

(** ** What one cycle does to the session *)

Lemma check_account_session (net : Network) (current_time : Z) (app : App)
    (scheduled : list Z) (a : Account) :
  let st := check_account net current_time (app, scheduled) a in
  if is_active a &&
     (check_interval a * 60
      <=? current_time - default 0 (last_auto_check (session_state app) !! id a))
  then snd st = scheduled ++ [id a] /\
       session_state (fst st)
       = {| auto_check_enabled := auto_check_enabled (session_state app);
            last_auto_check := <[id a := current_time]> (last_auto_check (session_state app));
            current_checking_account := None;
            check_start_time := None |}
  else st = (app, scheduled).
Proof.
  cbn zeta. unfold check_account.
  destruct (is_active a); cbn [negb andb]; [|reflexivity].
  destruct (_ <=? _); [|reflexivity].
  cbn [fst snd]. split; [reflexivity|].
  cbn [set_checking set_last_auto_check session_state last_auto_check auto_check_enabled
         current_checking_account check_start_time].
  rewrite run_automatic_check_keeps_session. reflexivity.
Qed.

(** The session after the loop, whatever the accounts and the outcome of
    their passes. *)
Lemma check_accounts_session (net : Network) (current_time : Z) (accounts : list Account) :
  forall (app : App) (scheduled : list Z),
  let st := fold_left (check_account net current_time) accounts (app, scheduled) in
  exists more,
    snd st = scheduled ++ more /\
    auto_check_enabled (session_state (fst st)) = auto_check_enabled (session_state app) /\
    (forall i, last_auto_check (session_state (fst st)) !! i
               = if bool_decide (i ∈ more) then Some current_time
                 else last_auto_check (session_state app) !! i) /\
    (more = [] -> fst st = app) /\
    (more <> [] ->
       current_checking_account (session_state (fst st)) = None /\
       check_start_time (session_state (fst st)) = None).
Proof.
  induction accounts as [|b accounts IH]; intros app scheduled; cbn zeta.
  - exists []. cbn [fold_left fst snd]. rewrite app_nil_r.
    split; [reflexivity|]. split; [reflexivity|].
    split; [intros i; rewrite bool_decide_eq_false_2; [reflexivity | apply not_elem_of_nil]|].
    split; [reflexivity|]. intros H. now destruct H.
  - cbn [fold_left].
    pose proof (check_account_session net current_time app scheduled b) as Hstep.
    cbn zeta in Hstep.
    destruct (check_account net current_time (app, scheduled) b) as [app1 scheduled1].
    cbn [fst snd] in Hstep.
    destruct (IH app1 scheduled1) as (more & Hsnd & Hon & Hlast & Hnil & Hsome).
    destruct (is_active b && _).
    + destruct Hstep as [-> Hsession].
      exists (id b :: more). rewrite Hsnd, <- app_assoc. cbn [List.app].
      split; [reflexivity|].
      split; [rewrite Hon, Hsession; reflexivity|].
      split; [|split; [discriminate|]].
      * intros i. rewrite Hlast, Hsession. cbn [last_auto_check].
        destruct (decide (i = id b)) as [->|Hne].
        -- rewrite lookup_insert_eq, (bool_decide_eq_true_2 (id b ∈ id b :: more))
             by apply list_elem_of_here.
           now destruct (bool_decide _).
        -- rewrite lookup_insert_ne by congruence.
           destruct (bool_decide (i ∈ more)) eqn:Hin.
           ++ apply bool_decide_eq_true_1 in Hin.
              rewrite bool_decide_eq_true_2; [reflexivity | now apply list_elem_of_further].
           ++ apply bool_decide_eq_false_1 in Hin.
              rewrite bool_decide_eq_false_2; [reflexivity|].
              rewrite elem_of_cons. tauto.
      * intros _. destruct more as [|j more].
        -- rewrite (Hnil eq_refl), Hsession. split; reflexivity.
        -- apply Hsome. discriminate.
    + injection Hstep as -> ->. exists more.
      split; [assumption|]. split; [assumption|]. split; [assumption|]. split; assumption.
Qed.

(** Which accounts the loop starts, when their ids are distinct. *)
Lemma check_accounts_started (net : Network) (current_time : Z) (accounts : list Account) :
  forall (app : App) (scheduled more : list Z),
  NoDup (map id accounts) ->
  snd (fold_left (check_account net current_time) accounts (app, scheduled))
  = scheduled ++ more ->
  NoDup more /\
  (forall i, i ∈ more <->
     exists a, a ∈ accounts /\ id a = i /\ is_active a = true /\
       check_interval a * 60
       <= current_time - default 0 (last_auto_check (session_state app) !! i)).
Proof.
  induction accounts as [|b accounts IH]; intros app scheduled more Hnd Hsnd.
  - cbn [fold_left snd] in Hsnd.
    rewrite <- (app_nil_r scheduled) in Hsnd at 1. apply app_inv_head in Hsnd. subst more.
    split; [constructor|].
    intros i. split; [intros H; inversion H | intros (a & H & _); inversion H].
  - cbn [map] in Hnd. apply NoDup_cons in Hnd as [Hb Hnd].
    cbn [fold_left] in Hsnd.
    pose proof (check_account_session net current_time app scheduled b) as Hstep.
    cbn zeta in Hstep.
    destruct (check_account net current_time (app, scheduled) b) as [app1 scheduled1].
    cbn [fst snd] in Hstep.
    destruct (check_accounts_session net current_time accounts app1 scheduled1)
      as (more1 & Hsnd1 & _).
    cbn zeta in Hsnd1.
    destruct (IH app1 scheduled1 more1 Hnd Hsnd1) as [Hnd1 Hin1].
    assert (Hrest : forall a, a ∈ accounts -> id a <> id b).
    { intros a Ha Heq. apply Hb. rewrite <- Heq.
      apply list_elem_of_In, List.in_map. now apply list_elem_of_In. }
    destruct (is_active b && _) eqn:Hdue.
    + destruct Hstep as [-> Hsession].
      rewrite Hsnd1, <- app_assoc in Hsnd. apply app_inv_head in Hsnd. subst more.
      cbn [List.app].
      assert (Hfresh : id b ∉ more1).
      { intros Hin. apply Hin1 in Hin as (a & Ha & Heq & _). now apply (Hrest a). }
      split; [now apply NoDup_cons|].
      apply andb_true_iff in Hdue as [Hact Hdue]. apply Z.leb_le in Hdue.
      intros i. rewrite elem_of_cons, Hin1. split.
      * intros [->|(a & Ha & <- & Hact' & Hdue')].
        -- exists b. split; [apply list_elem_of_here|]. auto.
        -- exists a. split; [now apply list_elem_of_further|].
           split; [reflexivity|]. split; [assumption|].
           rewrite Hsession in Hdue'. cbn [last_auto_check] in Hdue'.
           rewrite lookup_insert_ne in Hdue' by (apply not_eq_sym; now apply Hrest).
           exact Hdue'.
      * intros (a & Ha & <- & Hact' & Hdue'). apply elem_of_cons in Ha as [->|Ha]; [now left|].
        right. exists a. split; [assumption|]. split; [reflexivity|]. split; [assumption|].
        rewrite Hsession. cbn [last_auto_check].
        rewrite lookup_insert_ne by (apply not_eq_sym; now apply Hrest).
        exact Hdue'.
    + injection Hstep as -> ->.
      rewrite Hsnd1 in Hsnd. apply app_inv_head in Hsnd. subst more.
      split; [assumption|].
      intros i. rewrite Hin1. split.
      * intros (a & Ha & Hrest'). exists a. split; [now apply list_elem_of_further | exact Hrest'].
      * intros (a & Ha & <- & Hact' & Hdue'). apply elem_of_cons in Ha as [->|Ha].
        -- exfalso. rewrite Hact' in Hdue. cbn [andb] in Hdue.
           apply Z.leb_gt in Hdue. lia.
        -- exists a. auto.
Qed.

Lemma sorted_accounts_ids (d : Database) :
  NoDup (map id (email_accounts d)) -> NoDup (map id (get_email_accounts d)).
Proof.
  intros Hnd.
  assert (Hids : Permutation (map id (get_email_accounts d)) (map id (email_accounts d)))
    by (apply Permutation_map, merge_sort_Permutation).
  now rewrite Hids.
Qed.

Lemma sorted_accounts_elem (d : Database) (a : Account) :
  a ∈ get_email_accounts d <-> a ∈ email_accounts d.
Proof.
  unfold get_email_accounts. now rewrite (merge_sort_Permutation newer_first (email_accounts d)).
Qed.

(** The accounts a cycle starts. *)
Lemma cycle_started (net : Network) (app : App) :
  NoDup (map id (email_accounts (app_db app))) ->
  let started := snd (run_automatic_checks net app) in
  NoDup started /\
  (forall i, i ∈ started <->
     auto_check_enabled (session_state app) = true /\
     exists a, a ∈ email_accounts (app_db app) /\ id a = i /\ is_active a = true /\
       check_interval a * 60
       <= wall_clock app - default 0 (last_auto_check (session_state app) !! i)).
Proof.
  intros Hnd. cbn zeta. unfold run_automatic_checks.
  destruct (auto_check_enabled (session_state app)); cbn [negb snd].
  - destruct (check_accounts_started net (wall_clock app) (get_email_accounts (app_db app))
                app [] _ (sorted_accounts_ids _ Hnd) eq_refl) as [Hnds Hin].
    split; [assumption|].
    intros i. rewrite Hin. split.
    + intros (a & Ha & Hrest). split; [reflexivity|].
      exists a. split; [now apply sorted_accounts_elem | exact Hrest].
    + intros (_ & a & Ha & Hrest). exists a.
      split; [now apply sorted_accounts_elem | exact Hrest].
  - split; [constructor|].
    intros i. split; [intros H; inversion H | intros [[=] _]].
Qed.

(** The session after a cycle. *)
Lemma cycle_session (net : Network) (app : App) :
  let st := run_automatic_checks net app in
  auto_check_enabled (session_state (fst st)) = auto_check_enabled (session_state app) /\
  (forall i, last_auto_check (session_state (fst st)) !! i
             = if bool_decide (i ∈ snd st) then Some (wall_clock app)
               else last_auto_check (session_state app) !! i) /\
  (snd st = [] -> fst st = app) /\
  (snd st <> [] ->
     current_checking_account (session_state (fst st)) = None /\
     check_start_time (session_state (fst st)) = None).
Proof.
  cbn zeta. unfold run_automatic_checks.
  destruct (auto_check_enabled (session_state app)) eqn:Hon; cbn [negb fst snd].
  - destruct (check_accounts_session net (wall_clock app) (get_email_accounts (app_db app))
                app []) as (more & Hsnd & Hon' & Hlast & Hnil & Hsome).
    rewrite app_nil_l in Hsnd. rewrite Hsnd, Hon', Hon. auto.
  - split; [assumption|].
    split; [intros i; rewrite bool_decide_eq_false_2; [reflexivity | apply not_elem_of_nil]|].
    split; [reflexivity|]. intros H. now destruct H.
Qed.

Lemma account_of_id (accounts : list Account) (a b : Account) :
  NoDup (map id accounts) -> a ∈ accounts -> b ∈ accounts -> id a = id b -> a = b.
Proof.
  induction accounts as [|c accounts IH]; intros Hnd Ha Hb Heq; [inversion Ha|].
  cbn [map] in Hnd. apply NoDup_cons in Hnd as [Hc Hnd].
  assert (Hrest : forall x, x ∈ accounts -> id x <> id c).
  { intros x Hx Hid. apply Hc. rewrite <- Hid.
    apply list_elem_of_In, List.in_map. now apply list_elem_of_In. }
  apply elem_of_cons in Ha as [->|Ha]; apply elem_of_cons in Hb as [->|Hb].
  - reflexivity.
  - exfalso. now apply (Hrest b).
  - exfalso. now apply (Hrest a).
  - now apply IH.
Qed.

(** X13. Within one cycle no account is checked twice, and the accounts
    checked are exactly the active accounts of the database that are due,
    provided automatic checks are enabled: a disabled scheduler, an inactive
    account and an id without a row never start a pass. *)
Theorem cycle_checks_due_active_accounts_once (net : Network) (app : App) :
  NoDup (map id (email_accounts (app_db app))) ->
  let started := snd (run_automatic_checks net app) in
  NoDup started /\
  (forall i, i ∈ started <->
     auto_check_enabled (session_state app) = true /\
     exists a, a ∈ email_accounts (app_db app) /\ id a = i /\ is_active a = true /\
       check_interval a * 60
       <= wall_clock app - default 0 (last_auto_check (session_state app) !! i)) /\
  (length started <= length (List.filter is_active (email_accounts (app_db app))))%nat.
Proof.
  intros Hnd. cbn zeta.
  destruct (cycle_started net app Hnd) as [Hnds Hin]. cbn zeta in Hnds, Hin.
  split; [assumption|]. split; [assumption|].
  rewrite <- (List.length_map id (List.filter is_active _)).
  apply submseteq_length, NoDup_submseteq; [assumption|].
  intros i Hi. apply Hin in Hi as (_ & a & Ha & <- & Hact & _).
  apply list_elem_of_In, List.in_map, List.filter_In.
  split; [now apply list_elem_of_In | assumption].
Qed.

(** The sample dashboard, fifteen minutes after the last check: the one
    account is checked, once. *)
Lemma cycle_checks_sample :
  let started := snd (run_automatic_checks Sample.net (Sample.app (15 * 60))) in
  NoDup started /\
  (forall i, i ∈ started <->
     auto_check_enabled (session_state (Sample.app (15 * 60))) = true /\
     exists a, a ∈ email_accounts (app_db (Sample.app (15 * 60))) /\ id a = i /\
       is_active a = true /\
       check_interval a * 60
       <= wall_clock (Sample.app (15 * 60))
          - default 0 (last_auto_check (session_state (Sample.app (15 * 60))) !! i)) /\
  (length started
   <= length (List.filter is_active (email_accounts (app_db (Sample.app (15 * 60))))))%nat.
Proof.
  apply (cycle_checks_due_active_accounts_once Sample.net (Sample.app (15 * 60))).
  apply NoDup_singleton.
Defined.

(** X14. A cycle records its start time as the last automatic check of
    every account it started, whether the pass succeeded or not (the
    network is arbitrary), and of no other account; it leaves the enabled
    flag alone and clears the indication of the account being checked. When
    it starts no pass, that indication and the account, mail and feature
    tables are as before; the visual log, to which every enabled cycle
    appends, is outside the model. *)
Theorem cycle_records_its_start_time (net : Network) (app : App) :
  let '(app1, started) := run_automatic_checks net app in
  (forall i, last_auto_check (session_state app1) !! i
             = if bool_decide (i ∈ started) then Some (wall_clock app)
               else last_auto_check (session_state app) !! i) /\
  auto_check_enabled (session_state app1) = auto_check_enabled (session_state app) /\
  (started = [] ->
     current_checking_account (session_state app1)
     = current_checking_account (session_state app) /\
     check_start_time (session_state app1) = check_start_time (session_state app) /\
     email_accounts (app_db app1) = email_accounts (app_db app) /\
     analyzed_emails (app_db app1) = analyzed_emails (app_db app) /\
     email_features (app_db app1) = email_features (app_db app)) /\
  (started <> [] ->
     current_checking_account (session_state app1) = None /\
     check_start_time (session_state app1) = None).
Proof.
  pose proof (cycle_session net app) as H. cbn zeta in H.
  destruct (run_automatic_checks net app) as [app1 started]. cbn [fst snd] in H.
  destruct H as (Hon & Hlast & Hnil & Hsome).
  split; [exact Hlast|]. split; [exact Hon|]. split; [|assumption].
  intros Hstarted. rewrite (Hnil Hstarted). auto.
Qed.

(** A server that rejects the login: the pass fails, and the account is
    recorded as checked at the start of the cycle all the same. *)
Example rejected_login_is_recorded_as_checked :
  let '(app1, started) := run_automatic_checks Cases.rejecting_net (Sample.app (15 * 60)) in
  started = [1] /\
  last_auto_check (session_state app1) !! 1 = Some 100000 /\
  app_db app1 = Sample.database.
Proof. vm_compute. auto. Qed.

(** ** What one cycle does to the database *)

Lemma same_settings_refl (a : Account) : same_settings a a.
Proof. unfold same_settings. auto 12. Qed.

Lemma same_settings_trans (a b c : Account) :
  same_settings a b -> same_settings b c -> same_settings a c.
Proof. unfold same_settings. intuition congruence. Qed.

Lemma accounts_same_refl (l : list Account) : Forall2 same_settings l l.
Proof. induction l; constructor; [apply same_settings_refl | assumption]. Qed.

Lemma accounts_same_trans (l1 l2 l3 : list Account) :
  Forall2 same_settings l1 l2 -> Forall2 same_settings l2 l3 -> Forall2 same_settings l1 l3.
Proof.
  intros H12. revert l3.
  induction H12 as [|a b l1 l2 Hab _ IH]; intros l3 H23; inversion H23; subst; constructor.
  - eapply same_settings_trans; eassumption.
  - now apply IH.
Qed.

Lemma pass_same_settings (net : Network) (account_id max_emails : Z)
    (get_all get_recent : bool) (self : EmailMonitor) :
  Forall2 same_settings (email_accounts (db self))
    (email_accounts
       (db (fst (process_account_emails net account_id max_emails get_all get_recent self)))).
Proof.
  destruct (pass_report net account_id max_emails get_all get_recent self)
    as (self1 & rep & -> & _ & _ & Hcase).
  cbn [fst].
  assert (Hsame : db self1 = db self ->
            Forall2 same_settings (email_accounts (db self)) (email_accounts (db self1))).
  { intros ->. apply accounts_same_refl. }
  destruct Hcase as [(_ & Hdb & _) | (conn & _ & _ & _ & _ & _ & Hcase)]; [auto|].
  cbn zeta in Hcase.
  destruct Hcase as [(_ & Hdb & _) | (_ & self2 & tally & Hloop & Hdb & _)]; [auto|].
  destruct (process_emails_spec account_id
              (selected_emails (Some conn) (today self) max_emails get_all get_recent)
              empty_tally (served conn self))
    as (self2' & tally' & new & Hloop' & _ & _ & Hacc & _).
  rewrite Hloop in Hloop'. injection Hloop' as <- <-.
  rewrite Hdb. cbn [update_accounts email_accounts]. rewrite Hacc. cbn [served db].
  clear Hsame.
  induction (email_accounts (db self)) as [|a l IH]; cbn [map]; constructor.
  - unfold update_account_row, same_settings.
    destruct (id a =? account_id); cbn; auto 12.
  - exact IH.
Qed.

Lemma pass_keeps_keys_unique (net : Network) (account_id max_emails : Z)
    (get_all get_recent : bool) (self : EmailMonitor) :
  NoDup (keys (db self)) ->
  NoDup (keys (db (fst (process_account_emails net account_id max_emails
                          get_all get_recent self)))).
Proof.
  intros Hkeys.
  destruct (pass_rows_fresh net account_id max_emails get_all get_recent self)
    as (new & Hnew & Hf & Hnd & Hfresh).
  rewrite (keys_app _ _ _ Hnew). apply NoDup_app.
  split; [assumption|]. split; [|now apply (new_keys_unique account_id)].
  intros [acc eid] Hold Hnew'.
  assert (acc = account_id) as ->.
  { apply list_elem_of_In, List.in_map_iff in Hnew' as (r & [= <- <-] & Hr).
    rewrite Forall_forall in Hf. apply Hf. now apply list_elem_of_In. }
  apply (key_in_new_rows _ _ _ Hf) in Hnew'.
  now apply Hfresh in Hnew'.
Qed.

Lemma pass_keeps_rows_in_step (net : Network) (account_id max_emails : Z)
    (get_all get_recent : bool) (self : EmailMonitor) :
  rows_in_step (db self) ->
  rows_in_step (db (fst (process_account_emails net account_id max_emails
                           get_all get_recent self))).
Proof.
  intros Hinv.
  destruct (pass_report net account_id max_emails get_all get_recent self)
    as (self1 & rep & -> & _ & _ & Hcase). cbn [fst].
  destruct Hcase as [(_ & Hdb & _) | (conn & _ & _ & _ & _ & _ & Hcase)];
    [now rewrite Hdb|].
  cbn zeta in Hcase.
  destruct Hcase as [(_ & Hdb & _) | (_ & self2 & tally & Hloop & Hdb & _)];
    [now rewrite Hdb|].
  pose proof (process_emails_keep_rows_in_step account_id
                (selected_emails (Some conn) (today self) max_emails get_all get_recent)
                empty_tally (served conn self) Hinv) as Hkeep.
  rewrite Hloop in Hkeep. cbn [fst] in Hkeep. rewrite Hdb. exact Hkeep.
Qed.

(** A relation between databases that every pass respects is respected
    by a whole cycle. *)
Section Cycle.

Variable R : Database -> Database -> Prop.
Hypothesis R_refl : forall d, R d d.
Hypothesis R_trans : forall d1 d2 d3, R d1 d2 -> R d2 d3 -> R d1 d3.
Hypothesis R_pass :
  forall net account_id max_emails get_all get_recent self,
    R (db self)
      (db (fst (process_account_emails net account_id max_emails get_all get_recent self))).

Lemma run_automatic_check_db (net : Network) (account_id : Z) (a : Account) (app : App) :
  R (app_db app) (app_db (run_automatic_check_for_account net account_id a app)).
Proof.
  unfold run_automatic_check_for_account.
  pose proof (R_pass net account_id (max_emails_per_check a) false false
                {| db := app_db app; connection := None; clock := wall_clock app |}) as H.
  destruct (process_account_emails _ _ _ _ _ _) as [monitor [rep|e]];
    [destruct (success rep)|]; exact H.
Qed.

Lemma check_account_db (net : Network) (current_time : Z) (st : App * list Z)
    (a : Account) :
  R (app_db (fst st)) (app_db (fst (check_account net current_time st a))).
Proof.
  destruct st as [app0 scheduled]. unfold check_account.
  destruct (is_active a); cbn [negb fst]; [|apply R_refl].
  destruct (_ <=? _); cbn [fst]; [|apply R_refl].
  cbn [set_checking set_last_auto_check app_db].
  apply (run_automatic_check_db net (id a) a
           (set_checking (Some (email a)) (Some current_time) app0)).
Qed.

Lemma check_accounts_db (net : Network) (current_time : Z) (accounts : list Account) :
  forall st,
    R (app_db (fst st))
      (app_db (fst (fold_left (check_account net current_time) accounts st))).
Proof.
  induction accounts as [|a accounts IH]; intros st; cbn [fold_left]; [apply R_refl|].
  eapply R_trans; [apply (check_account_db net current_time st a) | apply IH].
Qed.

Lemma cycle_db (net : Network) (app : App) :
  R (app_db app) (app_db (fst (run_automatic_checks net app))).
Proof.
  unfold run_automatic_checks.
  destruct (auto_check_enabled (session_state app)); cbn [negb fst]; [|apply R_refl].
  apply (check_accounts_db net (wall_clock app) (get_email_accounts (app_db app)) (app, [])).
Qed.

End Cycle.

Lemma cycle_same_settings (net : Network) (app : App) :
  Forall2 same_settings (email_accounts (app_db app))
    (email_accounts (app_db (fst (run_automatic_checks net app)))).
Proof.
  apply (cycle_db (fun d d' => Forall2 same_settings (email_accounts d) (email_accounts d'))).
  - intros d. apply accounts_same_refl.
  - intros d1 d2 d3. apply accounts_same_trans.
  - intros. apply pass_same_settings.
Qed.

(** X15. A cycle of automatic checks never deletes or rewrites a stored
    mail, never touches the configuration of an account, and keeps the
    mail table sound: distinct (account, message) pairs stay distinct, and
    mails and feature rows stay in step. *)
Theorem cycle_keeps_mail_and_settings (net : Network) (app : App) :
  let d := app_db app in
  let d1 := app_db (fst (run_automatic_checks net app)) in
  (exists new, analyzed_emails d1 = analyzed_emails d ++ new) /\
  Forall2 same_settings (email_accounts d) (email_accounts d1) /\
  (NoDup (keys d) -> NoDup (keys d1)) /\
  (rows_in_step d -> rows_in_step d1).
Proof.
  cbn zeta. split; [|split; [|split]].
  - apply (cycle_db (fun d d' => exists new, analyzed_emails d' = analyzed_emails d ++ new)).
    + intros d. exists []. now rewrite app_nil_r.
    + intros d1 d2 d3 [new1 H1] [new2 H2]. exists (new1 ++ new2).
      now rewrite H2, H1, app_assoc.
    + intros net' account_id max_emails get_all get_recent self.
      destruct (pass_rows_fresh net' account_id max_emails get_all get_recent self)
        as (new & Hnew & _).
      eauto.
  - apply cycle_same_settings.
  - apply (cycle_db (fun d d' => NoDup (keys d) -> NoDup (keys d'))); auto.
    intros. now apply pass_keeps_keys_unique.
  - apply (cycle_db (fun d d' => rows_in_step d -> rows_in_step d')); auto.
    intros. now apply pass_keeps_rows_in_step.
Qed.

Lemma same_settings_ids (l l' : list Account) :
  Forall2 same_settings l l' -> map id l' = map id l.
Proof.
  induction 1 as [|a a' l l' Hs _ IH]; cbn [map]; [reflexivity|].
  destruct Hs as [-> _]. now rewrite IH.
Qed.

Lemma Forall2_elem_l {A B} (P : A -> B -> Prop) (l : list A) (k : list B) (x : A) :
  Forall2 P l k -> x ∈ l -> exists y, y ∈ k /\ P x y.
Proof.
  induction 1 as [|a b l k Hab _ IH]; intros Hx; [inversion Hx|].
  apply elem_of_cons in Hx as [->|Hx].
  - exists b. split; [apply list_elem_of_here | assumption].
  - destruct (IH Hx) as (y & Hy & HP). exists y.
    split; [now apply list_elem_of_further | assumption].
Qed.

Lemma Forall2_elem_r {A B} (P : A -> B -> Prop) (l : list A) (k : list B) (y : B) :
  Forall2 P l k -> y ∈ k -> exists x, x ∈ l /\ P x y.
Proof.
  induction 1 as [|a b l k Hab _ IH]; intros Hy; [inversion Hy|].
  apply elem_of_cons in Hy as [->|Hy].
  - exists a. split; [apply list_elem_of_here | assumption].
  - destruct (IH Hy) as (x & Hx & HP). exists x.
    split; [now apply list_elem_of_further | assumption].
Qed.

(** X16. An account checked in one cycle is checked again in a later
    rerun exactly when its interval has elapsed since the start of that
    cycle, whatever the outcome of the pass then (a failed pass is not
    retried earlier) and whatever the server does now. *)
Theorem checked_account_waits_a_full_interval (net net2 : Network) (app : App)
    (a : Account) (t2 : Z) :
  NoDup (map id (email_accounts (app_db app))) ->
  a ∈ email_accounts (app_db app) ->
  id a ∈ snd (run_automatic_checks net app) ->
  let app1 := fst (run_automatic_checks net app) in
  id a ∈ snd (run_automatic_checks net2 (at_time t2 app1)) <->
  check_interval a * 60 <= t2 - wall_clock app.
Proof.
  intros Hnd Ha Hstarted. cbn zeta.
  destruct (cycle_started net app Hnd) as [_ Hin]. cbn zeta in Hin.
  pose proof Hstarted as Hst. apply Hin in Hst as (Hon & a0 & Ha0 & Hid & Hact & _).
  assert (a0 = a) as -> by now apply (account_of_id _ _ _ Hnd).
  destruct (cycle_session net app) as (Hon1 & Hlast & _). cbn zeta in Hon1, Hlast.
  pose proof (cycle_same_settings net app) as Hsame.
  set (app1 := fst (run_automatic_checks net app)) in *.
  assert (Hnd1 : NoDup (map id (email_accounts (app_db (at_time t2 app1))))).
  { cbn [at_time app_db]. now rewrite (same_settings_ids _ _ Hsame). }
  destruct (cycle_started net2 (at_time t2 app1) Hnd1) as [_ Hin2]. cbn zeta in Hin2.
  rewrite Hin2. cbn [at_time session_state app_db wall_clock].
  rewrite Hon1, Hon, Hlast, (bool_decide_eq_true_2 _ Hstarted). cbn [default].
  split.
  - intros (_ & a1 & Ha1 & Hid1 & _ & Hdue).
    destruct (Forall2_elem_r _ _ _ _ Hsame Ha1) as (x & Hx & Hs).
    assert (x = a) as ->.
    { apply (account_of_id _ _ _ Hnd); [assumption | assumption |].
      destruct Hs as [Hi _]. congruence. }
    destruct Hs as (_ & _ & _ & _ & _ & _ & _ & Hint & _). now rewrite <- Hint.
  - intros Hdue. split; [reflexivity|].
    destruct (Forall2_elem_l _ _ _ _ Hsame Ha) as (a1 & Ha1 & Hs).
    exists a1. destruct Hs as (Hi & _ & _ & _ & _ & _ & Hact1 & Hint & _).
    split; [assumption|]. split; [assumption|]. split; [congruence|].
    now rewrite Hint.
Qed.

(** The sample account, interval 15 minutes, checked at 100000: a rerun
    899 seconds later skips it, one 900 seconds later checks it, also when
    the first pass was rejected by the server. *)
Lemma checked_account_waits_sample :
  (1 ∈ snd (run_automatic_checks Sample.net
              (at_time 100899
                 (fst (run_automatic_checks Cases.rejecting_net (Sample.app (15 * 60)))))) <->
   15 * 60 <= 100899 - 100000) /\
  (1 ∈ snd (run_automatic_checks Sample.net
              (at_time 100900
                 (fst (run_automatic_checks Cases.rejecting_net (Sample.app (15 * 60)))))) <->
   15 * 60 <= 100900 - 100000).
Proof.
  assert (Hstarted : 1 ∈ snd (run_automatic_checks Cases.rejecting_net
                                (Sample.app (15 * 60)))).
  { apply (bool_decide_unpack _). vm_compute. reflexivity. }
  split.
  - apply (checked_account_waits_a_full_interval Cases.rejecting_net Sample.net
             (Sample.app (15 * 60)) Sample.account 100899).
    + apply NoDup_singleton.
    + apply list_elem_of_here.
    + exact Hstarted.
  - apply (checked_account_waits_a_full_interval Cases.rejecting_net Sample.net
             (Sample.app (15 * 60)) Sample.account 100900).
    + apply NoDup_singleton.
    + apply list_elem_of_here.
    + exact Hstarted.
Defined.

(** * Further properties of the dashboard *)

(** ** Deleting under the foreign keys *)

Lemma existsb_column {A} (f : A -> Z) (i : Z) (l : list A) :
  existsb (fun x => f x =? i) l = true <-> i ∈ map f l.
Proof.
  induction l as [|x l IH]; cbn [existsb map].
  - split; [discriminate | intros H; inversion H].
  - rewrite orb_true_iff, elem_of_cons, IH, Z.eqb_eq. split; intros [H|H]; auto.
Qed.

Lemma filter_keeps_all {A} (f : A -> bool) (l : list A) :
  (forall x, x ∈ l -> f x = true) -> List.filter f l = l.
Proof.
  induction l as [|x l IH]; intros H; cbn [List.filter]; [reflexivity|].
  rewrite (H x) by apply list_elem_of_here.
  rewrite IH; [reflexivity|]. intros y Hy. apply H. now apply list_elem_of_further.
Qed.

(** X17. In a database whose mails all carry their feature row, as the
    monitor keeps it, [delete_email] never removes anything: for a stored
    mail the statement violates the foreign key of [email_features] and the
    error is only reported; for an unknown key nothing matches and the
    success notice is shown. *)
Theorem delete_email_never_removes_a_stored_mail (email_spam_categories : list Z)
    (email_id : Z) (d : Database) :
  rows_in_step d ->
  let '(d1, shown) := delete_email email_spam_categories email_id d in
  d1 = d /\ (shown = true <-> email_id ∉ map ae_id (analyzed_emails d)).
Proof.
  intros (_ & _ & Hfeat). unfold delete_email.
  destruct (existsb (fun r => ae_id r =? email_id) (analyzed_emails d)) eqn:Hrow.
  - apply existsb_column in Hrow.
    assert (Href : existsb (fun f => ef_email_id f =? email_id) (email_features d) = true)
      by (apply existsb_column; now rewrite Hfeat).
    rewrite Href. cbn [andb orb].
    split; [reflexivity|]. split; [discriminate | contradiction].
  - cbn [andb].
    assert (Hnone : email_id ∉ map ae_id (analyzed_emails d)).
    { intros Hin. apply existsb_column in Hin. congruence. }
    split; [|tauto].
    rewrite filter_keeps_all; [now destruct d|].
    intros r Hr. apply negb_true_iff, Z.eqb_neq. intros Heq. apply Hnone.
    rewrite <- Heq. apply list_elem_of_In, List.in_map. now apply list_elem_of_In.
Qed.

(** After a pass on the sample mailbox, the mail stored first cannot be
    deleted. *)
Lemma delete_email_sample :
  let '(d1, shown) :=
    delete_email [] 1 (db (fst (process_account_emails Sample.net 1 12 false false
                                  Sample.monitor))) in
  d1 = db (fst (process_account_emails Sample.net 1 12 false false Sample.monitor)) /\
  (shown = true <->
   1 ∉ map ae_id (analyzed_emails
                    (db (fst (process_account_emails Sample.net 1 12 false false
                                Sample.monitor))))).
Proof.
  apply (delete_email_never_removes_a_stored_mail [] 1).
  apply pass_keeps_rows_in_step.
  repeat split; constructor.
Defined.

Lemma delete_email_account_refused (spam_statistics : list Z) (account_id : Z)
    (d : Database) (r : AnalyzedEmail) :
  is_Some (select_account d account_id) ->
  r ∈ analyzed_emails d -> ae_account_id r = account_id ->
  delete_email_account spam_statistics account_id d = (d, false).
Proof.
  intros [a Ha] Hr Hacc. unfold delete_email_account.
  assert (H1 : existsb (fun a => id a =? account_id) (email_accounts d) = true).
  { apply existsb_exists. exists a. apply List.find_some in Ha. exact Ha. }
  assert (H2 : existsb (fun r => ae_account_id r =? account_id) (analyzed_emails d) = true).
  { apply existsb_exists. exists r. split; [now apply list_elem_of_In | now apply Z.eqb_eq]. }
  now rewrite H1, H2.
Qed.

(** X18. Once a pass has stored a mail for an account, the account can no
    longer be deleted from the dashboard: [delete_email_account] returns
    [False] and changes nothing, because the stored mail refers to the
    account. *)
Theorem account_with_stored_mail_cannot_be_deleted (net : Network)
    (account_id max_emails : Z) (get_all get_recent : bool) (self : EmailMonitor)
    (spam_statistics : list Z) (rep : Report) :
  let '(self1, r) :=
    process_account_emails net account_id max_emails get_all get_recent self in
  r = Ok rep -> 0 < emails_processed rep ->
  delete_email_account spam_statistics account_id (db self1) = (db self1, false).
Proof.
  destruct (pass_report net account_id max_emails get_all get_recent self)
    as (self1 & rep' & -> & _ & _ & Hcase).
  intros [= <-] Hpos.
  destruct Hcase as [(_ & _ & _ & _ & _ & Hp & _) | (conn & Hr & _ & _ & _ & _ & Hcase)];
    [lia|].
  cbn zeta in Hcase.
  destruct Hcase as [(_ & _ & Hp & _) | (_ & self2 & tally & Hloop & Hdb & Hp & _)]; [lia|].
  destruct (process_emails_rows account_id
              (selected_emails (Some conn) (today self) max_emails get_all get_recent)
              empty_tally (served conn self))
    as (self2' & tally' & new & Hloop' & Hrows & Hacc & Hf & _).
  rewrite Hloop in Hloop'. injection Hloop' as <- <-.
  destruct (process_emails_spec account_id
              (selected_emails (Some conn) (today self) max_emails get_all get_recent)
              empty_tally (served conn self))
    as (self2' & tally' & new' & Hloop' & _ & _ & _ & Hrows' & Hlen & _).
  rewrite Hloop in Hloop'. injection Hloop' as <- <-.
  rewrite Hrows in Hrows'. apply app_inv_head in Hrows'. subst new'.
  cbn [empty_tally processed_emails length] in Hlen.
  destruct new as [|row new]; [cbn in Hlen; lia|].
  apply (delete_email_account_refused _ _ _ row).
  - rewrite Hdb, select_account_update.
    rewrite (select_account_same (db (served conn self)) (db self2)) by exact Hacc.
    destruct Hr as (a & Ha & _). cbn [served db]. rewrite Ha. cbn. eauto.
  - rewrite Hdb. cbn [update_accounts analyzed_emails]. rewrite Hrows.
    apply elem_of_app. right. apply list_elem_of_here.
  - now inversion Hf.
Qed.

(** The sample account after its first pass. *)
Lemma account_with_stored_mail_sample :
  delete_email_account [] 1
    (db (fst (process_account_emails Sample.net 1 12 false false Sample.monitor)))
  = (db (fst (process_account_emails Sample.net 1 12 false false Sample.monitor)), false).
Proof.
  pose proof (account_with_stored_mail_cannot_be_deleted Sample.net 1 12 false false
                Sample.monitor []) as H.
  destruct (process_account_emails Sample.net 1 12 false false Sample.monitor)
    as [self1 [rep|e]] eqn:E.
  - apply (H rep eq_refl). vm_compute in E. injection E as _ <-. reflexivity.
  - vm_compute in E. discriminate.
Defined.

(** ** A manual classification and the later checks *)

Lemma find_found_app {A} (f : A -> bool) (l k : list A) (x : A) :
  List.find f l = Some x -> List.find f (l ++ k) = Some x.
Proof.
  induction l as [|y l IH]; cbn [List.find List.app]; [discriminate|].
  destruct (f y); [trivial | exact IH].
Qed.

Lemma find_key_map (f : AnalyzedEmail -> AnalyzedEmail) (rows : list AnalyzedEmail)
    (r : AnalyzedEmail) :
  (forall x, ae_account_id (f x) = ae_account_id x /\ ae_email_id (f x) = ae_email_id x) ->
  NoDup (map (fun x => (ae_account_id x, ae_email_id x)) rows) ->
  r ∈ rows ->
  List.find (fun x => (ae_account_id x =? ae_account_id r)
                      && String.eqb (ae_email_id x) (ae_email_id r))
            (map f rows)
  = Some (f r).
Proof.
  intros Hkey. induction rows as [|x rows IH]; intros Hnd Hr; [inversion Hr|].
  cbn [map] in Hnd. apply NoDup_cons in Hnd as [Hx Hnd].
  cbn [map List.find]. destruct (Hkey x) as [-> ->].
  apply elem_of_cons in Hr as [->|Hr].
  - now rewrite Z.eqb_refl, String.eqb_refl.
  - destruct ((ae_account_id x =? ae_account_id r)
              && String.eqb (ae_email_id x) (ae_email_id r)) eqn:Hsame; [|now apply IH].
    exfalso. apply andb_true_iff in Hsame as [Ha He].
    apply Z.eqb_eq in Ha. apply String.eqb_eq in He.
    apply Hx. rewrite Ha, He.
    apply list_elem_of_In, (List.in_map (fun x => (ae_account_id x, ae_email_id x))).
    now apply list_elem_of_In.
Qed.

Lemma cycle_appends_rows (net : Network) (app : App) :
  exists new,
    analyzed_emails (app_db (fst (run_automatic_checks net app)))
    = analyzed_emails (app_db app) ++ new.
Proof.
  apply (cycle_db (fun d d' => exists new, analyzed_emails d' = analyzed_emails d ++ new)).
  - intros d. exists []. now rewrite app_nil_r.
  - intros d1 d2 d3 [new1 H1] [new2 H2]. exists (new1 ++ new2).
    now rewrite H2, H1, app_assoc.
  - intros net' account_id max_emails get_all get_recent self.
    destruct (pass_rows_fresh net' account_id max_emails get_all get_recent self)
      as (new & Hnew & _).
    eauto.
Qed.

(** X19. A classification set by hand stays: after
    [update_email_classification] the mail is found with the verdict given
    and confidence 1.0, and a later cycle of automatic checks, whatever the
    servers return, finds the mail stored and leaves that verdict in place;
    the score is not touched, and neither are the counters of the account. *)
Theorem manual_classification_survives_later_checks (net : Network) (app : App)
    (r : AnalyzedEmail) (is_spam : bool) :
  NoDup (keys (app_db app)) ->
  r ∈ analyzed_emails (app_db app) ->
  let d1 := update_email_classification (ae_id r) is_spam (app_db app) in
  let d2 := app_db (fst (run_automatic_checks net (with_db d1 app))) in
  email_accounts d1 = email_accounts (app_db app) /\
  keys d1 = keys (app_db app) /\
  select_email d1 (ae_account_id r) (ae_email_id r) = Some (reclassified is_spam r) /\
  select_email d2 (ae_account_id r) (ae_email_id r) = Some (reclassified is_spam r) /\
  ae_is_spam (reclassified is_spam r) = is_spam /\
  ae_confidence (reclassified is_spam r) = 1.0%float /\
  ae_spam_score (reclassified is_spam r) = ae_spam_score r.
Proof.
  intros Hnd Hr. cbn zeta.
  assert (Hkey : forall x,
            ae_account_id (if ae_id x =? ae_id r then reclassified is_spam x else x)
            = ae_account_id x /\
            ae_email_id (if ae_id x =? ae_id r then reclassified is_spam x else x)
            = ae_email_id x)
    by (intros x; destruct (ae_id x =? ae_id r); split; reflexivity).
  assert (Hfound : select_email (update_email_classification (ae_id r) is_spam (app_db app))
                     (ae_account_id r) (ae_email_id r) = Some (reclassified is_spam r)).
  { unfold select_email, update_email_classification. cbn [analyzed_emails].
    rewrite (find_key_map _ _ r Hkey Hnd Hr). now rewrite Z.eqb_refl. }
  split; [reflexivity|].
  split.
  { unfold keys, update_email_classification. cbn [analyzed_emails].
    rewrite List.map_map. apply List.map_ext. intros x. now destruct (Hkey x) as [-> ->]. }
  split; [exact Hfound|].
  split; [|auto].
  destruct (cycle_appends_rows net
              (with_db (update_email_classification (ae_id r) is_spam (app_db app)) app))
    as [new Hnew].
  cbn [with_db app_db] in Hnew.
  unfold select_email in *. rewrite Hnew. now apply find_found_app.
Qed.

(** The first mail of the sample pass, marked as spam by hand, is still
    marked after the next cycle. *)
Lemma manual_classification_sample :
  let d := db (fst (process_account_emails Sample.net 1 2 false false Sample.monitor)) in
  let app := with_db d (Sample.app 0) in
  exists r,
    r ∈ analyzed_emails d /\
    select_email
      (app_db (fst (run_automatic_checks Sample.net
                      (with_db (update_email_classification (ae_id r) true d)
                         (at_time 200000 app)))))
      (ae_account_id r) (ae_email_id r)
    = Some (reclassified true r).
Proof.
  cbn zeta.
  destruct (analyzed_emails
              (db (fst (process_account_emails Sample.net 1 2 false false Sample.monitor))))
    as [|r rows] eqn:E; [vm_compute in E; discriminate|].
  exists r. split; [apply list_elem_of_here|].
  apply (manual_classification_survives_later_checks Sample.net
           (at_time 200000
              (with_db (db (fst (process_account_emails Sample.net 1 2 false false
                                   Sample.monitor)))
                 (Sample.app 0))) r true).
  - cbn [at_time with_db app_db].
    apply pass_keeps_keys_unique. constructor.
  - cbn [at_time with_db app_db]. rewrite E. apply list_elem_of_here.
Defined.

(** ** Changing the settings of an account *)

(** X20. New settings apply at the next cycle: after
    [update_email_account] the account is checked exactly when it was set
    active and the new interval has elapsed since its last automatic check,
    which the update does not reset; the other accounts are scheduled as
    before, and no stored mail is touched. *)
Theorem changed_settings_apply_at_the_next_cycle (net : Network) (app : App) (a : Account)
    (active : bool) (interval max_emails : Z) :
  NoDup (map id (email_accounts (app_db app))) ->
  a ∈ email_accounts (app_db app) ->
  let d1 := fst (update_email_account (id a) active interval max_emails (app_db app)) in
  (id a ∈ snd (run_automatic_checks net (with_db d1 app)) <->
   auto_check_enabled (session_state app) = true /\ active = true /\
   interval * 60
   <= wall_clock app - default 0 (last_auto_check (session_state app) !! id a)) /\
  (forall i, i <> id a ->
     (i ∈ snd (run_automatic_checks net (with_db d1 app))
      <-> i ∈ snd (run_automatic_checks net app))) /\
  analyzed_emails d1 = analyzed_emails (app_db app) /\
  email_features d1 = email_features (app_db app).
Proof.
  intros Hnd Ha. cbn zeta.
  set (g := fun x : Account =>
              if id x =? id a then configured active interval max_emails x else x).
  assert (Hid : forall x, id (g x) = id x)
    by (intros x; unfold g; destruct (id x =? id a); reflexivity).
  assert (Hother : forall x, id x <> id a -> g x = x).
  { intros x Hx. unfold g. destruct (Z.eqb_spec (id x) (id a)); [contradiction|reflexivity]. }
  assert (Hrows : email_accounts
                    (fst (update_email_account (id a) active interval max_emails (app_db app)))
                  = map g (email_accounts (app_db app))) by reflexivity.
  assert (Hnd1 : NoDup (map id (email_accounts
                   (app_db (with_db
                      (fst (update_email_account (id a) active interval max_emails
                              (app_db app))) app))))).
  { cbn [with_db app_db]. rewrite Hrows, List.map_map.
    rewrite (List.map_ext (fun x => id (g x)) id Hid). exact Hnd. }
  destruct (cycle_started net _ Hnd1) as [_ Hin1]. cbn zeta in Hin1.
  destruct (cycle_started net app Hnd) as [_ Hin]. cbn zeta in Hin.
  cbn [with_db app_db session_state wall_clock] in Hin1.
  rewrite Hrows in Hin1.
  assert (Hmem : forall x, x ∈ map g (email_accounts (app_db app)) <->
                           exists y, y ∈ email_accounts (app_db app) /\ x = g y).
  { intros x. split.
    - intros H. apply list_elem_of_In, List.in_map_iff in H as (y & H1 & H2).
      exists y. split; [now apply list_elem_of_In | auto].
    - intros (y & H1 & ->). apply list_elem_of_In, List.in_map. now apply list_elem_of_In. }
  split; [|split; [|split; reflexivity]].
  - rewrite Hin1. split.
    + intros (Hon & x & Hx & Hidx & Hact & Hdue).
      apply Hmem in Hx as (y & Hy & ->). rewrite Hid in Hidx.
      assert (y = a) as -> by now apply (account_of_id _ _ _ Hnd).
      unfold g in Hact, Hdue. rewrite Z.eqb_refl in Hact, Hdue.
      cbn [configured is_active check_interval] in Hact, Hdue. auto.
    + intros (Hon & Hact & Hdue). split; [assumption|].
      exists (g a). split; [apply Hmem; eauto|].
      split; [apply Hid|].
      unfold g. rewrite Z.eqb_refl. cbn [configured is_active check_interval]. auto.
  - intros i Hi. rewrite Hin1, Hin. split.
    + intros (Hon & x & Hx & Hidx & Hact & Hdue).
      apply Hmem in Hx as (y & Hy & ->). rewrite Hid in Hidx.
      rewrite Hother in Hact, Hdue by congruence.
      split; [assumption|]. exists y. auto.
    + intros (Hon & y & Hy & Hidy & Hact & Hdue).
      split; [assumption|]. exists (g y).
      split; [apply Hmem; eauto|].
      rewrite Hid, Hother by congruence. auto.
Qed.

(** The sample account, last checked 15 minutes ago: switched off it is
    skipped; with the interval raised to 16 minutes it is skipped; with the
    interval lowered to 10 it is checked. *)
Lemma changed_settings_sample :
  (1 ∉ snd (run_automatic_checks Sample.net
              (with_db (fst (update_email_account 1 false 15 12 Sample.database))
                 (Sample.app (15 * 60))))) /\
  (1 ∉ snd (run_automatic_checks Sample.net
              (with_db (fst (update_email_account 1 true 16 12 Sample.database))
                 (Sample.app (15 * 60))))) /\
  (1 ∈ snd (run_automatic_checks Sample.net
              (with_db (fst (update_email_account 1 true 10 12 Sample.database))
                 (Sample.app (15 * 60))))).
Proof.
  assert (Hnd : NoDup (map id (email_accounts (app_db (Sample.app (15 * 60))))))
    by apply NoDup_singleton.
  assert (Ha : Sample.account ∈ email_accounts (app_db (Sample.app (15 * 60))))
    by apply list_elem_of_here.
  assert (Hlast : last_auto_check (session_state (Sample.app (15 * 60))) !! 1
                  = Some (100000 - 15 * 60))
    by apply lookup_singleton_eq.
  split; [|split].
  - destruct (changed_settings_apply_at_the_next_cycle Sample.net (Sample.app (15 * 60))
                Sample.account false 15 12 Hnd Ha) as [Hiff _].
    intros H. apply Hiff in H. destruct H as (_ & H & _). discriminate.
  - destruct (changed_settings_apply_at_the_next_cycle Sample.net (Sample.app (15 * 60))
                Sample.account true 16 12 Hnd Ha) as [Hiff _].
    intros H. apply Hiff in H. destruct H as (_ & _ & H).
    cbn [Sample.account id] in H. rewrite Hlast in H. cbn in H. lia.
  - destruct (changed_settings_apply_at_the_next_cycle Sample.net (Sample.app (15 * 60))
                Sample.account true 10 12 Hnd Ha) as [Hiff _].
    apply Hiff. split; [reflexivity|]. split; [reflexivity|].
    cbn [Sample.account id]. rewrite Hlast. cbn. lia.
Defined.

(** ** The visual log *)

Lemma add_log_entry_cases (e : LogEntry) (logs : list LogEntry) :
  (length logs <= 20)%nat ->
  let logs1 := add_log_entry (log_timestamp e) (log_message e) (log_level e) logs in
  (length logs1 <= 20)%nat /\
  forall k, Spec.last_n 20 (logs1 ++ k) = Spec.last_n 20 (logs ++ e :: k).
Proof.
  intros Hlen. cbn zeta. unfold add_log_entry, Py.len_gt.
  replace {| log_timestamp := log_timestamp e; log_message := log_message e;
             log_level := log_level e |} with e by now destruct e.
  rewrite List.length_app. cbn [length].
  destruct (Z.ltb_spec 20 (Z.of_nat (length logs + 1))) as [Hfull|Hroom].
  - destruct logs as [|x logs]; [cbn in Hfull; lia|].
    cbn [List.app tail length] in *.
    split; [rewrite List.length_app; cbn [length]; lia|].
    intros k. unfold Spec.last_n. rewrite <- !app_assoc. cbn [List.app].
    cbn [length]. rewrite !List.length_app. cbn [length].
    replace (S (length logs + S (length k)) - 20)%nat
      with (S (length logs + S (length k) - 20))%nat by lia.
    reflexivity.
  - split; [rewrite List.length_app; cbn [length]; lia|].
    intros k. now rewrite <- app_assoc.
Qed.

(** X21. The visual log is a window on the last twenty entries: starting
    from a log of at most twenty entries (it starts empty), after any number
    of [add_log_entry] calls the log holds exactly the last twenty of the
    entries logged so far, oldest first, and never more than twenty. *)
Theorem log_keeps_the_last_twenty_entries (entries logs : list LogEntry) :
  (length logs <= 20)%nat ->
  add_log_entries entries logs = Spec.last_n 20 (logs ++ entries) /\
  (length (add_log_entries entries logs) <= 20)%nat.
Proof.
  revert logs. induction entries as [|e entries IH]; intros logs Hlen.
  - cbn [add_log_entries fold_left]. rewrite app_nil_r.
    unfold Spec.last_n. replace (length logs - 20)%nat with 0%nat by lia.
    split; [reflexivity | assumption].
  - destruct (add_log_entry_cases e logs Hlen) as [Hlen1 Hlast]. cbn zeta in Hlen1, Hlast.
    unfold add_log_entries in *. cbn [fold_left].
    destruct (IH _ Hlen1) as [-> Hbound].
    split; [apply Hlast | apply length_last_n].
Qed.

(** Twenty-one entries logged into the empty log: the first is gone. *)
Lemma log_sample :
  let e := fun n => {| log_timestamp := "12:00:00"; log_message := n; log_level := "INFO" |} in
  let entries := map e ["a"; "b"; "c"; "d"; "e"; "f"; "g"; "h"; "i"; "j"; "k"; "l"; "m";
                        "n"; "o"; "p"; "q"; "r"; "s"; "t"; "u"]%string in
  add_log_entries entries [] = Spec.last_n 20 ([] ++ entries) /\
  (length (add_log_entries entries []) <= 20)%nat.
Proof.
  cbn zeta. apply log_keeps_the_last_twenty_entries. cbn. lia.
Defined.

(** * The diagnosis *)

Lemma length_slice_last {A} (l : list A) (n : Z) :
  (length (Py.slice_last l n) <= length l)%nat.
Proof. unfold Py.slice_last. destruct (0 <? n); rewrite length_drop; lia. Qed.

Lemma length_truncated {A} (l : list A) (n : Z) :
  (length (if Py.len_gt l n then Py.slice_last l n else l) <= length l)%nat.
Proof. destruct (Py.len_gt l n); [apply length_slice_last | lia]. Qed.

(** What the diagnosis returns, case by case. *)
Lemma diagnosis_cases (net : Network) (account_id : Z) (self : EmailMonitor) :
  exists self1 outcome,
    diagnose_email_processing net account_id self = (self1, Ok outcome) /\
    connection self1 = None /\ db self1 = db self /\
    ((~ (exists conn, reachable net (db self) account_id conn) /\
      outcome = NotDiagnosed "No se pudo conectar al servidor") \/
     exists conn a,
       select_account (db self) account_id = Some a /\
       net (server a) (port a) (email a) (password a) = Accepted conn /\
       match imap (conn_select conn),
             imap (conn_search conn (UNSEEN_SINCE (today self - 7))),
             imap (conn_search conn (SEEN_SINCE (today self - 2))) with
       | Ok _, Ok (ok1, unread_ids), Ok (ok2, read_ids) =>
           let unread :=
             if ok1 && nonempty unread_ids then Z.of_nat (length unread_ids) else 0 in
           let recent_read :=
             if ok2 && nonempty read_ids then Z.of_nat (length read_ids) else 0 in
           outcome =
           Diagnosed
             {| diag_account_email := email a;
                diag_last_check := last_check_at a;
                diag_total_processed := total_emails_checked a;
                diag_total_spam := total_spam_detected a;
                unread_emails := unread;
                recent_read_emails := recent_read;
                total_recent_emails := unread + recent_read;
                diag_check_interval := check_interval a;
                diag_max_emails_per_check := max_emails_per_check a;
                diag_is_active := is_active a |}
       | _, _, _ => outcome = NotDiagnosed (str IMAP4_error)
       end).
Proof.
  unfold diagnose_email_processing, try_finally, try_except at 1, bind at 1.
  rewrite connect_to_server_cases.
  destruct (select_account (db self) account_id) as [a|] eqn:Hacc.
  2:{ cbn [negb ret].
      destruct (disconnect_returns self) as (self' & -> & Hc & Hd & _).
      eexists _, _. split; [reflexivity|]. split; [assumption|]. split; [assumption|].
      left. split; [|reflexivity]. intros (conn & a' & Ha' & _). congruence. }
  destruct (net (server a) (port a) (email a) (password a)) as [|conn|conn] eqn:Hnet.
  - cbn [negb ret].
    destruct (disconnect_returns self) as (self' & -> & Hc & Hd & _).
    eexists _, _. split; [reflexivity|]. split; [assumption|]. split; [assumption|].
    left. split; [|reflexivity]. intros (conn0 & a' & Ha' & Hn). congruence.
  - cbn [negb ret].
    rewrite (disconnect_connected _ conn) by reflexivity.
    eexists _, _. split; [reflexivity|]. split; [reflexivity|]. split; [reflexivity|].
    left. split; [|reflexivity]. intros (conn' & a' & Ha' & Hn). congruence.
  - cbn [negb]. unfold bind, get, lift, wait, ret.
    cbn [connection clock db]. rewrite Hacc. cbn [connection attr].
    change (today _) with (today self).
    destruct (imap (conn_select conn)) as [[ok0 []]|e0] eqn:Hsel.
    2:{ assert (e0 = IMAP4_error) as ->
          by (destruct (conn_select conn); [discriminate | now injection Hsel]).
        rewrite (disconnect_connected _ conn) by reflexivity.
        eexists _, _. split; [reflexivity|]. split; [reflexivity|]. split; [reflexivity|].
        right. exists conn, a. split; [reflexivity|]. split; [exact Hnet|].
        rewrite Hsel. reflexivity. }
    destruct (imap (conn_search conn (UNSEEN_SINCE (today self - 7))))
      as [[ok1 unread_ids]|e1] eqn:Hunread.
    2:{ assert (e1 = IMAP4_error) as ->
          by (destruct (conn_search conn (UNSEEN_SINCE _));
              [discriminate | now injection Hunread]).
        rewrite (disconnect_connected _ conn) by reflexivity.
        eexists _, _. split; [reflexivity|]. split; [reflexivity|]. split; [reflexivity|].
        right. exists conn, a. split; [reflexivity|]. split; [exact Hnet|].
        rewrite Hsel, Hunread. reflexivity. }
    destruct (imap (conn_search conn (SEEN_SINCE (today self - 2))))
      as [[ok2 read_ids]|e2] eqn:Hread.
    2:{ assert (e2 = IMAP4_error) as ->
          by (destruct (conn_search conn (SEEN_SINCE _));
              [discriminate | now injection Hread]).
        rewrite (disconnect_connected _ conn) by reflexivity.
        eexists _, _. split; [reflexivity|]. split; [reflexivity|]. split; [reflexivity|].
        right. exists conn, a. split; [reflexivity|]. split; [exact Hnet|].
        rewrite Hsel, Hunread, Hread. reflexivity. }
    rewrite (disconnect_connected _ conn) by reflexivity.
    eexists _, _. split; [reflexivity|]. split; [reflexivity|]. split; [reflexivity|].
    right. exists conn, a. split; [reflexivity|]. split; [exact Hnet|].
    rewrite Hsel, Hunread, Hread. reflexivity.
Qed.

(** X22. The diagnosis only reads: [diagnose_email_processing] never
    raises, always ends with the connection closed and leaves the database
    as it was. When the account cannot be reached it reports that it could
    not connect; otherwise it either reports an error of the server or the
    figures of the account's row together with two counts that are not
    negative and add up to [total_recent_emails]. *)
Theorem diagnosis_only_reads (net : Network) (account_id : Z) (self : EmailMonitor) :
  let '(self1, r) := diagnose_email_processing net account_id self in
  exists outcome,
    r = Ok outcome /\ connection self1 = None /\ db self1 = db self /\
    (~ (exists conn, reachable net (db self) account_id conn) ->
     outcome = NotDiagnosed "No se pudo conectar al servidor") /\
    (forall diagnosis, outcome = Diagnosed diagnosis ->
       exists a,
         select_account (db self) account_id = Some a /\
         diag_account_email diagnosis = email a /\
         diag_last_check diagnosis = last_check_at a /\
         diag_total_processed diagnosis = total_emails_checked a /\
         diag_total_spam diagnosis = total_spam_detected a /\
         diag_check_interval diagnosis = check_interval a /\
         diag_max_emails_per_check diagnosis = max_emails_per_check a /\
         diag_is_active diagnosis = is_active a /\
         0 <= unread_emails diagnosis /\ 0 <= recent_read_emails diagnosis /\
         total_recent_emails diagnosis
         = unread_emails diagnosis + recent_read_emails diagnosis).
Proof.
  destruct (diagnosis_cases net account_id self)
    as (self1 & outcome & -> & Hc & Hd & Hcase).
  exists outcome. split; [reflexivity|]. split; [assumption|]. split; [assumption|].
  destruct Hcase as [(Hnot & ->) | (conn & a & Ha & Hnet & Hout)].
  - split; [reflexivity | discriminate].
  - split; [intros Hnot; exfalso; apply Hnot; exists conn, a; auto|].
    intros diagnosis ->. exists a. split; [assumption|].
    destruct (imap (conn_select conn)) as [[? []]|]; [|discriminate].
    destruct (imap (conn_search conn (UNSEEN_SINCE _))) as [[ok1 unread_ids]|];
      [|discriminate].
    destruct (imap (conn_search conn (SEEN_SINCE _))) as [[ok2 read_ids]|];
      [|discriminate].
    cbn zeta in Hout. injection Hout as ->.
    cbn [diag_account_email diag_last_check diag_total_processed diag_total_spam
           diag_check_interval diag_max_emails_per_check diag_is_active
           unread_emails recent_read_emails total_recent_emails].
    repeat (split; [reflexivity|]).
    split; [destruct (ok1 && nonempty unread_ids); lia|].
    split; [destruct (ok2 && nonempty read_ids); lia | reflexivity].
Qed.

(** X23. The diagnosis bounds the default pass: when the diagnosis of a
    reachable account succeeds, the default (hybrid) retrieval on the same
    answers of the server returns at most [total_recent_emails] mails,
    whatever the limit; when the diagnosis reports an error of the server,
    that retrieval returns nothing. *)
Theorem diagnosis_bounds_the_default_pass (net : Network) (account_id max_emails : Z)
    (self : EmailMonitor) (conn : Connection) :
  reachable net (db self) account_id conn ->
  match snd (diagnose_email_processing net account_id self) with
  | Ok (Diagnosed diagnosis) =>
      Z.of_nat (length (get_recent_unread_emails (Some conn) (today self) 7 max_emails))
      <= total_recent_emails diagnosis
  | Ok (NotDiagnosed _) =>
      get_recent_unread_emails (Some conn) (today self) 7 max_emails = []
  | Raised _ => False
  end.
Proof.
  intros Hreach.
  destruct (diagnosis_cases net account_id self)
    as (self1 & outcome & -> & _ & _ & Hcase). cbn [snd].
  destruct Hcase as [(Hnot & _) | (conn' & a & Ha & Hnet & Hout)];
    [exfalso; apply Hnot; eauto|].
  assert (conn' = conn) as ->.
  { destruct Hreach as (a' & Ha' & Hnet'). congruence. }
  unfold get_recent_unread_emails, or_empty, rbind, attr.
  destruct (imap (conn_select conn)) as [[? []]|]; [|now subst outcome].
  destruct (imap (conn_search conn (UNSEEN_SINCE _))) as [[ok1 unread_ids]|];
    [|now subst outcome].
  destruct (imap (conn_search conn (SEEN_SINCE _))) as [[ok2 read_ids]|];
    [|now subst outcome].
  cbn zeta in Hout. subst outcome. cbn [total_recent_emails].
  etransitivity; [apply inj_le, length_truncated|].
  assert (H1 : Z.of_nat (length (if ok1 && nonempty unread_ids
                                 then [] ++ fetch_messages conn unread_ids else []))
               <= (if ok1 && nonempty unread_ids then Z.of_nat (length unread_ids) else 0)).
  { destruct (ok1 && nonempty unread_ids); [|cbn; lia].
    cbn [List.app]. apply inj_le, length_fetch_messages. }
  destruct (ok2 && nonempty read_ids).
  - rewrite List.length_app, Nat2Z.inj_add.
    apply Z.add_le_mono; [exact H1|].
    apply inj_le. etransitivity; [apply length_fetch_messages | apply length_slice_last].
  - lia.
Qed.

(** The sample mailbox: ten unread and twenty read messages are counted,
    and the default pass fetches at most thirty. *)
Lemma diagnosis_sample :
  match snd (diagnose_email_processing Sample.net 1 Sample.monitor) with
  | Ok (Diagnosed diagnosis) =>
      Z.of_nat (length (get_recent_unread_emails (Some Sample.mailbox)
                          (today Sample.monitor) 7 12))
      <= total_recent_emails diagnosis
  | Ok (NotDiagnosed _) =>
      get_recent_unread_emails (Some Sample.mailbox) (today Sample.monitor) 7 12 = []
  | Raised _ => False
  end.
Proof.
  apply (diagnosis_bounds_the_default_pass Sample.net 1 12 Sample.monitor Sample.mailbox).
  exists Sample.account. split; reflexivity.
Defined.

Example diagnosis_of_the_sample_mailbox :
  match snd (diagnose_email_processing Sample.net 1 Sample.monitor) with
  | Ok (Diagnosed diagnosis) =>
      unread_emails diagnosis = 10 /\ recent_read_emails diagnosis = 20 /\
      total_recent_emails diagnosis = 30
  | _ => False
  end.
Proof. vm_compute. auto. Qed.

(** * Removing duplicate mails *)

Lemma max_id_spec (ids : list Z) (m : Z) :
  max_id ids = Some m -> m ∈ ids /\ Forall (fun i => i <= m) ids.
Proof.
  revert m. induction ids as [|i ids IH]; intros m; cbn [max_id]; [discriminate|].
  destruct (max_id ids) as [m'|] eqn:Hmax; intros [= <-].
  - destruct (IH m' eq_refl) as [Hin Hle]. split.
    + destruct (Z.max_spec i m') as [[_ ->]|[_ ->]];
        [now apply list_elem_of_further | apply list_elem_of_here].
    + constructor; [lia|]. eapply Forall_impl; [exact Hle|]. cbn. intros; lia.
  - destruct ids; [|discriminate]. split; [apply list_elem_of_here|].
    constructor; [lia | constructor].
Qed.

Lemma max_id_some (ids : list Z) (i : Z) : i ∈ ids -> is_Some (max_id ids).
Proof. destruct ids; [intros H; inversion H | cbn [max_id]; eauto]. Qed.

Lemma in_ids_spec (ids : list Z) (i : Z) : in_ids ids i = true <-> i ∈ ids.
Proof.
  unfold in_ids. rewrite existsb_exists. split.
  - intros (x & Hx & Heq). apply Z.eqb_eq in Heq. subst x. now apply list_elem_of_In.
  - intros Hi. exists i. split; [now apply list_elem_of_In | apply Z.eqb_refl].
Qed.

Lemma has_key_spec (k : Z * string) (r : AnalyzedEmail) :
  has_key k r = true <-> ae_account_id r = fst k /\ ae_email_id r = snd k.
Proof. unfold has_key. now rewrite andb_true_iff, Z.eqb_eq, String.eqb_eq. Qed.

Lemma elem_of_filter_bool {A} (f : A -> bool) (l : list A) (x : A) :
  x ∈ List.filter f l <-> x ∈ l /\ f x = true.
Proof. rewrite !list_elem_of_In. apply List.filter_In. Qed.

Lemma elem_of_map_list {A B} (f : A -> B) (l : list A) (y : B) :
  y ∈ map f l <-> exists x, x ∈ l /\ f x = y.
Proof.
  rewrite list_elem_of_In, List.in_map_iff. split; intros (x & H1 & H2); exists x.
  - split; [now apply list_elem_of_In | assumption].
  - split; [assumption | now apply list_elem_of_In].
Qed.

Lemma same_column_same_row {A B} (f : A -> B) (l : list A) (x y : A) :
  NoDup (map f l) -> x ∈ l -> y ∈ l -> f x = f y -> x = y.
Proof.
  induction l as [|z l IH]; intros Hnd Hx Hy Heq; [inversion Hx|].
  cbn [map] in Hnd. apply NoDup_cons in Hnd as [Hz Hnd].
  assert (Hrest : forall u, u ∈ l -> f u <> f z).
  { intros u Hu Hf. apply Hz. rewrite <- Hf. apply elem_of_map_list. eauto. }
  apply elem_of_cons in Hx as [->|Hx]; apply elem_of_cons in Hy as [->|Hy].
  - reflexivity.
  - exfalso. apply (Hrest y Hy). now symmetry.
  - exfalso. now apply (Hrest x Hx).
  - now apply IH.
Qed.

Lemma NoDup_of_column {A B} (f : A -> B) (l : list A) : NoDup (map f l) -> NoDup l.
Proof.
  induction l as [|x l IH]; cbn [map]; intros Hnd; [constructor|].
  apply NoDup_cons in Hnd as [Hx Hnd]. apply NoDup_cons. split; [|auto].
  intros Hin. apply Hx. apply elem_of_map_list. eauto.
Qed.

Lemma NoDup_column {A B} (f : A -> B) (l : list A) :
  NoDup l -> (forall x y, x ∈ l -> y ∈ l -> f x = f y -> x = y) -> NoDup (map f l).
Proof.
  induction l as [|x l IH]; cbn [map]; intros Hnd Hinj; [constructor|].
  apply NoDup_cons in Hnd as [Hx Hnd]. apply NoDup_cons. split.
  - intros Hin. apply elem_of_map_list in Hin as (y & Hy & Heq).
    apply Hx. rewrite <- (Hinj y x); [assumption | now apply list_elem_of_further
                                     | apply list_elem_of_here | assumption].
  - apply IH; [assumption|]. intros u v Hu Hv. apply Hinj; now apply list_elem_of_further.
Qed.

Lemma NoDup_filter_bool {A} (f : A -> bool) (l : list A) :
  NoDup l -> NoDup (List.filter f l).
Proof.
  induction l as [|x l IH]; cbn [List.filter]; intros Hnd; [constructor|].
  apply NoDup_cons in Hnd as [Hx Hnd]. destruct (f x); [|auto].
  apply NoDup_cons. split; [|auto]. rewrite elem_of_filter_bool. tauto.
Qed.

Lemma map_filter_column {A B C} (f : A -> C) (g : B -> C) (p : C -> bool)
    (l : list A) (k : list B) :
  map f l = map g k ->
  map f (List.filter (fun x => p (f x)) l) = map g (List.filter (fun y => p (g y)) k).
Proof.
  revert k. induction l as [|x l IH]; intros [|y k]; cbn [map List.filter];
    try discriminate; [reflexivity|].
  intros [= Hxy Hrest]. rewrite Hxy. destruct (p (g y)); cbn [map]; rewrite (IH k Hrest);
    [now rewrite Hxy | reflexivity].
Qed.

(** The ids [keep_ids] lists are those of the newest rows. *)
Lemma keep_ids_newest (rows : list AnalyzedEmail) (r : AnalyzedEmail) :
  NoDup (map ae_id rows) -> r ∈ rows ->
  (ae_id r ∈ keep_ids_of rows <-> newest rows r).
Proof.
  intros Hnd Hr. unfold keep_ids_of. rewrite list_elem_of_omap. split.
  - intros (k & _ & Hmax). apply max_id_spec in Hmax as [Hin Hle].
    apply elem_of_map_list in Hin as (r0 & Hr0 & Hid).
    apply elem_of_filter_bool in Hr0 as [Hr0 Hk].
    assert (r0 = r) as -> by now apply (same_column_same_row ae_id rows).
    apply has_key_spec in Hk as [Ha He].
    intros r' Hr' Ha' He'. rewrite Forall_forall in Hle. apply Hle.
    apply elem_of_map_list. exists r'. split; [|reflexivity].
    apply elem_of_filter_bool. split; [assumption|].
    apply has_key_spec. split; congruence.
  - intros Hnew. exists (ae_account_id r, ae_email_id r). split.
    + apply elem_of_remove_dups, elem_of_map_list. eauto.
    + assert (Hin : ae_id r ∈ map ae_id
                      (List.filter (has_key (ae_account_id r, ae_email_id r)) rows)).
      { apply elem_of_map_list. exists r. split; [|reflexivity].
        apply elem_of_filter_bool. split; [assumption|]. now apply has_key_spec. }
      destruct (max_id_some _ _ Hin) as [m Hm]. rewrite Hm. f_equal.
      apply max_id_spec in Hm as [Hmin Hle].
      rewrite Forall_forall in Hle. apply Hle in Hin.
      apply elem_of_map_list in Hmin as (r0 & Hr0 & <-).
      apply elem_of_filter_bool in Hr0 as [Hr0 Hk]. apply has_key_spec in Hk as [Ha He].
      specialize (Hnew r0 Hr0 Ha He). lia.
Qed.

(** Every mail has a newest row. *)
Lemma newest_exists (rows : list AnalyzedEmail) (r : AnalyzedEmail) :
  r ∈ rows ->
  exists r0, r0 ∈ rows /\ ae_account_id r0 = ae_account_id r /\
             ae_email_id r0 = ae_email_id r /\ newest rows r0.
Proof.
  intros Hr.
  assert (Hin : ae_id r ∈ map ae_id
                  (List.filter (has_key (ae_account_id r, ae_email_id r)) rows)).
  { apply elem_of_map_list. exists r. split; [|reflexivity].
    apply elem_of_filter_bool. split; [assumption|]. now apply has_key_spec. }
  destruct (max_id_some _ _ Hin) as [m Hm].
  apply max_id_spec in Hm as [Hmin Hle].
  apply elem_of_map_list in Hmin as (r0 & Hr0 & <-).
  apply elem_of_filter_bool in Hr0 as [Hr0 Hk]. apply has_key_spec in Hk as [Ha He].
  cbn [fst snd] in Ha, He.
  exists r0. split; [assumption|]. split; [assumption|]. split; [assumption|].
  intros r' Hr' Ha' He'. rewrite Forall_forall in Hle. apply Hle.
  apply elem_of_map_list. exists r'. split; [|reflexivity].
  apply elem_of_filter_bool. split; [assumption|].
  apply has_key_spec. cbn [fst snd]. split; congruence.
Qed.

Lemma delete_ids_spec (rows : list AnalyzedEmail) (r : AnalyzedEmail) :
  r ∈ rows -> (ae_id r ∈ delete_ids_of rows <-> ae_id r ∉ keep_ids_of rows).
Proof.
  intros Hr. unfold delete_ids_of. rewrite elem_of_map_list. split.
  - intros (r0 & Hr0 & Hid). apply elem_of_filter_bool in Hr0 as [_ Hkeep].
    apply negb_true_iff in Hkeep. rewrite Hid in Hkeep.
    intros Hin. apply in_ids_spec in Hin. congruence.
  - intros Hnot. exists r. split; [|reflexivity].
    apply elem_of_filter_bool. split; [assumption|].
    apply negb_true_iff. destruct (in_ids (keep_ids_of rows) (ae_id r)) eqn:E; [|reflexivity].
    apply in_ids_spec in E. contradiction.
Qed.

(** The rows the cleanup keeps. *)
Lemma kept_rows (rows : list AnalyzedEmail) (r : AnalyzedEmail) :
  NoDup (map ae_id rows) ->
  (r ∈ List.filter (fun r => negb (in_ids (delete_ids_of rows) (ae_id r))) rows
   <-> r ∈ rows /\ newest rows r).
Proof.
  intros Hnd. rewrite elem_of_filter_bool. split.
  - intros [Hr Hkeep]. split; [assumption|].
    apply (keep_ids_newest rows r Hnd Hr).
    destruct (in_ids (keep_ids_of rows) (ae_id r)) eqn:E; [now apply in_ids_spec|].
    exfalso. apply negb_true_iff in Hkeep.
    assert (Hdel : ae_id r ∈ delete_ids_of rows).
    { apply delete_ids_spec; [assumption|]. intros Hin. apply in_ids_spec in Hin. congruence. }
    apply in_ids_spec in Hdel. congruence.
  - intros [Hr Hnew]. split; [assumption|].
    apply negb_true_iff. destruct (in_ids (delete_ids_of rows) (ae_id r)) eqn:E; [|reflexivity].
    apply in_ids_spec, delete_ids_spec in E; [|assumption].
    exfalso. apply E. now apply keep_ids_newest.
Qed.

Lemma kept_keys_unique (rows : list AnalyzedEmail) :
  NoDup (map ae_id rows) ->
  NoDup (map (fun r => (ae_account_id r, ae_email_id r))
             (List.filter (fun r => negb (in_ids (delete_ids_of rows) (ae_id r))) rows)).
Proof.
  intros Hnd. apply NoDup_column.
  - apply NoDup_filter_bool. now apply (NoDup_of_column ae_id).
  - intros x y Hx Hy [= Ha He].
    apply (kept_rows rows x Hnd) in Hx as [Hx Hnx].
    apply (kept_rows rows y Hnd) in Hy as [Hy Hny].
    apply (same_column_same_row ae_id rows); try assumption.
    specialize (Hnx y Hy (eq_sym Ha) (eq_sym He)).
    specialize (Hny x Hx Ha He). lia.
Qed.

Lemma kept_keys_same (rows : list AnalyzedEmail) (k : Z * string) :
  NoDup (map ae_id rows) ->
  (k ∈ map (fun r => (ae_account_id r, ae_email_id r))
           (List.filter (fun r => negb (in_ids (delete_ids_of rows) (ae_id r))) rows)
   <-> k ∈ map (fun r => (ae_account_id r, ae_email_id r)) rows).
Proof.
  intros Hnd. rewrite !elem_of_map_list. split.
  - intros (r & Hr & <-). apply (kept_rows rows r Hnd) in Hr as [Hr _]. eauto.
  - intros (r & Hr & <-).
    destruct (newest_exists rows r Hr) as (r0 & Hr0 & Ha & He & Hnew).
    exists r0. split; [now apply kept_rows | congruence].
Qed.

Lemma kept_rows_count (rows : list AnalyzedEmail) :
  NoDup (map ae_id rows) ->
  length (List.filter (fun r => negb (in_ids (delete_ids_of rows) (ae_id r))) rows)
  = length (remove_dups (map (fun r => (ae_account_id r, ae_email_id r)) rows)).
Proof.
  intros Hnd.
  rewrite <- (List.length_map (fun r => (ae_account_id r, ae_email_id r))
                (List.filter _ rows)).
  apply Permutation_length, NoDup_Permutation.
  - now apply kept_keys_unique.
  - apply NoDup_remove_dups.
  - intros k. now rewrite elem_of_remove_dups, kept_keys_same.
Qed.

Lemma length_remove_dups {A} `{EqDecision A} (l : list A) :
  (length (remove_dups l) <= length l)%nat /\
  (length (remove_dups l) = length l <-> NoDup l).
Proof.
  induction l as [|x l [IHle IHeq]]; cbn [remove_dups length].
  - split; [lia|]. split; [constructor | reflexivity].
  - destruct (decide_rel elem_of x l) as [Hin|Hin].
    + split; [lia|]. split; [lia|].
      intros Hnd. apply NoDup_cons in Hnd as [Hx _]. contradiction.
    + cbn [length]. split; [lia|]. rewrite NoDup_cons, <- IHeq.
      split; [intros [= ?]; auto | intros [_ ->]; auto].
Qed.

Lemma delete_ids_count (rows : list AnalyzedEmail) :
  NoDup (map ae_id rows) ->
  (length (delete_ids_of rows)
   + length (remove_dups (map (fun r => (ae_account_id r, ae_email_id r)) rows))
   = length rows)%nat.
Proof.
  intros Hnd. rewrite <- (kept_rows_count rows Hnd).
  unfold delete_ids_of at 1. rewrite List.length_map.
  rewrite <- (List.filter_length (fun r => in_ids (keep_ids_of rows) (ae_id r)) rows).
  rewrite Nat.add_comm. f_equal.
  apply Permutation_length, NoDup_Permutation.
  - apply NoDup_filter_bool. now apply (NoDup_of_column ae_id).
  - apply NoDup_filter_bool. now apply (NoDup_of_column ae_id).
  - intros r. rewrite (kept_rows rows r Hnd), elem_of_filter_bool. split.
    + intros [Hr Hnew]. split; [assumption|]. apply in_ids_spec. now apply keep_ids_newest.
    + intros [Hr Hkeep]. split; [assumption|].
      apply in_ids_spec in Hkeep. now apply keep_ids_newest in Hkeep.
Qed.

Lemma keep_ids_count (rows : list AnalyzedEmail) :
  length (keep_ids_of rows)
  = length (remove_dups (map (fun r => (ae_account_id r, ae_email_id r)) rows)).
Proof.
  unfold keep_ids_of.
  assert (Hall : forall k,
            k ∈ remove_dups (map (fun r => (ae_account_id r, ae_email_id r)) rows) ->
            is_Some (max_id (map ae_id (List.filter (has_key k) rows)))).
  { intros k Hk. apply elem_of_remove_dups, elem_of_map_list in Hk as (r & Hr & <-).
    apply (max_id_some _ (ae_id r)), elem_of_map_list. exists r. split; [|reflexivity].
    apply elem_of_filter_bool. split; [assumption|]. now apply has_key_spec. }
  induction (remove_dups _) as [|k ks IH]; [reflexivity|].
  cbn [omap list_omap]. destruct (Hall k) as [m ->]; [apply list_elem_of_here|].
  cbn [length]. f_equal. apply IH. intros k' Hk'. apply Hall. now apply list_elem_of_further.
Qed.

Lemma filter_no_ids {A} (f : A -> Z) (l : list A) :
  List.filter (fun x => negb (in_ids [] (f x))) l = l.
Proof. apply filter_keeps_all. reflexivity. Qed.

(** What the cleanup returns, case by case. *)
Lemma clean_cases (max_variables : Z) (d : Database) :
  let rows := analyzed_emails d in
  let '(d1, outcome) := clean_duplicate_emails max_variables d in
  (exists e, outcome = CleanFailed e /\ d1 = d /\ rows <> [] /\
     (max_variables < Z.of_nat (length (keep_ids_of rows)) \/
      max_variables < Z.of_nat (length (delete_ids_of rows))))
  \/
  (exists report, outcome = Cleaned report /\
     email_accounts d1 = email_accounts d /\
     analyzed_emails d1
     = List.filter (fun r => negb (in_ids (delete_ids_of rows) (ae_id r))) rows /\
     email_features d1
     = List.filter (fun f => negb (in_ids (delete_ids_of rows) (ef_email_id f)))
                   (email_features d) /\
     analyzed_emails_seq d1 = analyzed_emails_seq d /\
     total_before report = Z.of_nat (length rows) /\
     total_after report = Z.of_nat (length (analyzed_emails d1)) /\
     duplicates_removed report = total_before report - total_after report /\
     (rows = [] \/
      (Z.of_nat (length (keep_ids_of rows)) <= max_variables /\
       Z.of_nat (length (delete_ids_of rows)) <= max_variables)) /\
     (delete_ids_of rows = [] -> d1 = d /\ details report = None) /\
     (delete_ids_of rows <> [] ->
      details report = Some (account_details d1) /\
      clean_message report = Completed (duplicates_removed report))).
Proof.
  cbn zeta. unfold clean_duplicate_emails, Py.len_gt.
  destruct (Z.eqb_spec (Z.of_nat (length (analyzed_emails d))) 0) as [Hnone|Hsome].
  { right. eexists. split; [reflexivity|].
    assert (Hrows : analyzed_emails d = []) by (destruct (analyzed_emails d); [reflexivity|cbn in Hnone; lia]).
    rewrite Hrows. cbn [delete_ids_of keep_ids_of List.filter map length].
    rewrite filter_no_ids. cbn. repeat split; auto; try lia; now destruct H. }
  assert (Hrows : analyzed_emails d <> []) by (intros H; rewrite H in Hsome; now apply Hsome).
  destruct (Z.ltb_spec max_variables (Z.of_nat (length (keep_ids_of (analyzed_emails d)))))
    as [Hkeep|Hkeep].
  { left. eexists. split; [reflexivity|]. auto. }
  destruct (delete_ids_of (analyzed_emails d)) as [|i ids] eqn:Hdel; cbn [nonempty negb].
  { right. eexists. split; [reflexivity|].
    rewrite !filter_no_ids.
    cbn [total_before total_after duplicates_removed details clean_message length].
    repeat split; auto; try lia; now destruct H. }
  destruct (Z.ltb_spec max_variables (Z.of_nat (length (i :: ids)))) as [Hmany|Hfew].
  { left. eexists. split; [reflexivity|]. auto. }
  right. eexists. split; [reflexivity|].
  cbn [email_accounts analyzed_emails email_features analyzed_emails_seq
         total_before total_after duplicates_removed details clean_message].
  repeat split; auto; try lia; try discriminate.
Qed.

(** X24. When the cleanup succeeds it keeps, of every mail, exactly the
    row with the largest key ([MAX(id)], not the latest [processed_at]):
    afterwards the stored (account, message) pairs are distinct, no pair
    has been lost, the accounts are untouched, and the feature rows of the
    removed mails are gone with them, so that mails and features stay in
    step. When it fails it changes nothing. *)
Theorem cleanup_keeps_the_newest_row_of_each_mail (max_variables : Z) (d : Database) :
  NoDup (map ae_id (analyzed_emails d)) ->
  let '(d1, outcome) := clean_duplicate_emails max_variables d in
  match outcome with
  | Cleaned _ =>
      (forall r, r ∈ analyzed_emails d1 <->
                 r ∈ analyzed_emails d /\ newest (analyzed_emails d) r) /\
      NoDup (keys d1) /\
      (forall k, k ∈ keys d1 <-> k ∈ keys d) /\
      email_accounts d1 = email_accounts d /\
      (rows_in_step d -> rows_in_step d1)
  | CleanFailed _ => d1 = d
  end.
Proof.
  intros Hnd. pose proof (clean_cases max_variables d) as H. cbn zeta in H.
  destruct (clean_duplicate_emails max_variables d) as [d1 outcome].
  destruct H as [(e & -> & Hd & _) | (report & -> & Hacc & Hrows & Hfeat & Hseq & _)];
    [assumption|].
  split; [intros r; rewrite Hrows; now apply kept_rows|].
  split; [unfold keys; rewrite Hrows; now apply kept_keys_unique|].
  split; [intros k; unfold keys; rewrite Hrows; now apply kept_keys_same|].
  split; [assumption|].
  intros (Hle & _ & Hstep). unfold rows_in_step. rewrite Hrows, Hfeat, Hseq.
  split; [|split].
  - apply Forall_forall. intros r Hr. apply elem_of_filter_bool in Hr as [Hr _].
    rewrite Forall_forall in Hle. now apply Hle.
  - apply NoDup_column.
    + apply NoDup_filter_bool. now apply (NoDup_of_column ae_id).
    + intros x y Hx Hy. apply elem_of_filter_bool in Hx as [Hx _].
      apply elem_of_filter_bool in Hy as [Hy _].
      now apply (same_column_same_row ae_id (analyzed_emails d)).
  - apply (map_filter_column ef_email_id ae_id
             (fun i => negb (in_ids (delete_ids_of (analyzed_emails d)) i))).
    exact Hstep.
Qed.

(** X25. The figures of a cleanup: [total_before] and [total_after] are
    the numbers of rows before and after, [total_after] is the number of
    distinct (account, message) pairs, and [duplicates_removed], their
    difference, is zero exactly when the pairs were distinct already, in
    which case nothing is changed. The cleanup fails, with duplicates left
    in place, exactly when the table is not empty and the pairs to keep or
    the rows to delete outnumber the parameters one statement may carry. *)
Theorem cleanup_figures (max_variables : Z) (d : Database) :
  NoDup (map ae_id (analyzed_emails d)) ->
  let rows := analyzed_emails d in
  let pairs := Z.of_nat (length (remove_dups (keys d))) in
  let '(d1, outcome) := clean_duplicate_emails max_variables d in
  match outcome with
  | Cleaned report =>
      total_before report = Z.of_nat (length rows) /\
      total_after report = Z.of_nat (length (analyzed_emails d1)) /\
      total_after report = pairs /\
      duplicates_removed report = total_before report - total_after report /\
      0 <= duplicates_removed report /\
      (duplicates_removed report = 0 <-> NoDup (keys d)) /\
      (duplicates_removed report = 0 -> d1 = d) /\
      (rows = [] \/
       (pairs <= max_variables /\ Z.of_nat (length rows) - pairs <= max_variables))
  | CleanFailed _ =>
      d1 = d /\ rows <> [] /\
      (max_variables < pairs \/ max_variables < Z.of_nat (length rows) - pairs)
  end.
Proof.
  intros Hnd. cbn zeta. pose proof (clean_cases max_variables d) as H. cbn zeta in H.
  pose proof (keep_ids_count (analyzed_emails d)) as Hkeep.
  pose proof (delete_ids_count (analyzed_emails d) Hnd) as Hdel.
  pose proof (kept_rows_count (analyzed_emails d) Hnd) as Hkept.
  pose proof (length_remove_dups (keys d)) as [Hle Hdistinct].
  unfold keys in *. rewrite List.length_map in Hle, Hdistinct.
  destruct (clean_duplicate_emails max_variables d) as [d1 outcome].
  destruct H as [(e & -> & Hd & Hne & Hmany) |
                 (report & -> & _ & Hrows & _ & _ & Hb & Ha & Hr & Hfew & Hsame & _)].
  - split; [assumption|]. split; [assumption|]. lia.
  - rewrite Hrows, Hkept in Ha.
    split; [assumption|]. split; [now rewrite Hrows, Hkept|]. split; [assumption|].
    split; [assumption|]. split; [lia|].
    split; [rewrite <- Hdistinct; lia|].
    split; [|destruct Hfew as [Hnil|[H1 H2]]; [now left | right; lia]].
    intros Hzero. apply Hsame.
    destruct (delete_ids_of (analyzed_emails d)); [reflexivity | cbn [length] in Hdel; lia].
Qed.

(** The sample table: key 1 is removed with its feature row, keys 2 and 3
    stay, and the one account is listed with two mails. *)
Example cleanup_of_the_sample_table :
  let '(d1, outcome) := clean_duplicate_emails 999 Duplicates.database in
  map ae_id (analyzed_emails d1) = [2; 3] /\
  map ef_email_id (email_features d1) = [2; 3] /\
  match outcome with
  | Cleaned report =>
      total_before report = 3 /\ total_after report = 2 /\
      duplicates_removed report = 1 /\
      details report = Some [("bob@example.org"%string, 2)]
  | CleanFailed _ => False
  end.
Proof. vm_compute. auto 8. Qed.

Lemma cleanup_sample :
  let '(d1, outcome) := clean_duplicate_emails 999 Duplicates.database in
  match outcome with
  | Cleaned _ =>
      (forall r, r ∈ analyzed_emails d1 <->
                 r ∈ analyzed_emails Duplicates.database /\
                 newest (analyzed_emails Duplicates.database) r) /\
      NoDup (keys d1) /\
      (forall k, k ∈ keys d1 <-> k ∈ keys Duplicates.database) /\
      email_accounts d1 = email_accounts Duplicates.database /\
      (rows_in_step Duplicates.database -> rows_in_step d1)
  | CleanFailed _ => d1 = Duplicates.database
  end.
Proof.
  apply (cleanup_keeps_the_newest_row_of_each_mail 999 Duplicates.database).
  apply (bool_decide_unpack _). vm_compute. reflexivity.
Defined.

(** With room for one parameter only, the cleanup of the sample table
    fails; with room for two it succeeds. *)
Lemma cleanup_figures_sample :
  (let rows := analyzed_emails Duplicates.database in
   let pairs := Z.of_nat (length (remove_dups (keys Duplicates.database))) in
   let '(d1, outcome) := clean_duplicate_emails 1 Duplicates.database in
   match outcome with
   | Cleaned report =>
       total_before report = Z.of_nat (length rows) /\
       total_after report = Z.of_nat (length (analyzed_emails d1)) /\
       total_after report = pairs /\
       duplicates_removed report = total_before report - total_after report /\
       0 <= duplicates_removed report /\
       (duplicates_removed report = 0 <-> NoDup (keys Duplicates.database)) /\
       (duplicates_removed report = 0 -> d1 = Duplicates.database) /\
       (rows = [] \/ (pairs <= 1 /\ Z.of_nat (length rows) - pairs <= 1))
   | CleanFailed _ =>
       d1 = Duplicates.database /\ rows <> [] /\
       (1 < pairs \/ 1 < Z.of_nat (length rows) - pairs)
   end) /\
  snd (clean_duplicate_emails 1 Duplicates.database) = CleanFailed "too many SQL variables".
Proof.
  split; [|reflexivity].
  apply (cleanup_figures 1 Duplicates.database).
  apply (bool_decide_unpack _). vm_compute. reflexivity.
Defined.

(** ** The per-account figures of the cleanup *)

Lemma sum_group_cons {A} `{EqDecision A} (k : list A) (x : A) (l : list A) :
  NoDup k ->
  foldr Z.add 0
    (map (fun g => Z.of_nat (length (List.filter (fun j => bool_decide (j = g)) (x :: l)))) k)
  = foldr Z.add 0
      (map (fun g => Z.of_nat (length (List.filter (fun j => bool_decide (j = g)) l))) k)
    + (if bool_decide (x ∈ k) then 1 else 0).
Proof.
  induction k as [|g k IH]; intros Hnd; cbn [map foldr].
  - rewrite bool_decide_eq_false_2 by apply not_elem_of_nil. lia.
  - apply NoDup_cons in Hnd as [Hg Hnd]. rewrite (IH Hnd). cbn [List.filter].
    destruct (decide (x = g)) as [->|Hne].
    + rewrite (bool_decide_eq_true_2 (g = g)) by reflexivity.
      rewrite (bool_decide_eq_true_2 (g ∈ g :: k)) by apply list_elem_of_here.
      rewrite (bool_decide_eq_false_2 (g ∈ k)) by assumption.
      cbn [length]. lia.
    + rewrite (bool_decide_eq_false_2 (x = g)) by assumption.
      destruct (decide (x ∈ k)) as [Hin|Hin].
      * rewrite (bool_decide_eq_true_2 (x ∈ k)) by assumption.
        rewrite (bool_decide_eq_true_2 (x ∈ g :: k)) by now apply list_elem_of_further.
        lia.
      * rewrite (bool_decide_eq_false_2 (x ∈ k)) by assumption.
        rewrite (bool_decide_eq_false_2 (x ∈ g :: k))
          by (rewrite elem_of_cons; tauto).
        lia.
Qed.

Lemma filter_drops_all {A} (f : A -> bool) (l : list A) :
  (forall x, x ∈ l -> f x = false) -> List.filter f l = [].
Proof.
  induction l as [|x l IH]; intros H; cbn [List.filter]; [reflexivity|].
  rewrite (H x) by apply list_elem_of_here.
  apply IH. intros y Hy. apply H. now apply list_elem_of_further.
Qed.

(** The sizes of the groups of a list add up to its length. *)
Lemma sum_of_groups {A} `{EqDecision A} (l : list A) :
  foldr Z.add 0
    (map (fun g => Z.of_nat (length (List.filter (fun j => bool_decide (j = g)) l)))
         (remove_dups l))
  = Z.of_nat (length l).
Proof.
  induction l as [|x l IH]; [reflexivity|].
  cbn [remove_dups]. destruct (decide_rel elem_of x l) as [Hin|Hin].
  - rewrite sum_group_cons by apply NoDup_remove_dups. rewrite IH.
    rewrite bool_decide_eq_true_2 by now apply elem_of_remove_dups.
    cbn [length]. lia.
  - cbn [map foldr]. rewrite sum_group_cons by apply NoDup_remove_dups. rewrite IH.
    rewrite bool_decide_eq_false_2 by now rewrite elem_of_remove_dups.
    cbn [List.filter]. rewrite bool_decide_eq_true_2 by reflexivity.
    rewrite filter_drops_all.
    + cbn [length]. lia.
    + intros y Hy. apply bool_decide_eq_false_2. now intros ->.
Qed.

Lemma sum_Permutation (l k : list Z) :
  Permutation l k -> foldr Z.add 0 l = foldr Z.add 0 k.
Proof. induction 1; cbn [foldr]; lia. Qed.

Lemma one_account_per_id (accounts : list Account) (account_id : Z) :
  NoDup (map id accounts) ->
  is_Some (List.find (fun a => id a =? account_id) accounts) ->
  length (List.filter (fun a => id a =? account_id) accounts) = 1%nat.
Proof.
  induction accounts as [|a accounts IH]; cbn [map List.find List.filter];
    intros Hnd Hsome; [now destruct Hsome|].
  apply NoDup_cons in Hnd as [Ha Hnd].
  destruct (Z.eqb_spec (id a) account_id) as [Heq|Hne]; [|now apply IH].
  cbn [length]. f_equal. rewrite filter_drops_all; [reflexivity|].
  intros b Hb. apply Z.eqb_neq. intros Hid. apply Ha. rewrite Heq, <- Hid.
  apply list_elem_of_In, List.in_map. now apply list_elem_of_In.
Qed.

(** With the keys of the schema in force, the per-account figures add up
    to the number of stored mails. *)
Lemma account_details_add_up (d : Database) :
  NoDup (map id (email_accounts d)) ->
  (forall r, r ∈ analyzed_emails d -> is_Some (select_account d (ae_account_id r))) ->
  foldr Z.add 0 (map snd (account_details d)) = Z.of_nat (length (analyzed_emails d)).
Proof.
  intros Hnd Hfk. unfold account_details.
  rewrite (sum_Permutation _ _
             (Permutation_map snd (merge_sort_Permutation by_email _))).
  rewrite List.map_map. cbn [snd]. rewrite sum_of_groups. f_equal.
  revert Hfk. unfold select_account.
  induction (analyzed_emails d) as [|r rows IH]; intros Hfk; [reflexivity|].
  cbn [flat_map]. rewrite List.length_app, List.length_map.
  rewrite (one_account_per_id _ _ Hnd) by (apply Hfk, list_elem_of_here).
  cbn [length]. f_equal. apply IH. intros r' Hr'. apply Hfk. now apply list_elem_of_further.
Qed.

(** X26. When the cleanup removed something, its per-account list adds up:
    with distinct account ids and every stored mail referring to an account
    (the keys of the schema), the [total_emails] of the [details] sum to
    [total_after], and the message carries the positive number of rows
    removed; a cleanup that removed nothing carries no [details]. *)
Theorem cleanup_details_add_up (max_variables : Z) (d : Database) (report : CleanReport) :
  NoDup (map ae_id (analyzed_emails d)) ->
  NoDup (map id (email_accounts d)) ->
  (forall r, r ∈ analyzed_emails d -> is_Some (select_account d (ae_account_id r))) ->
  snd (clean_duplicate_emails max_variables d) = Cleaned report ->
  match details report with
  | Some per_account =>
      foldr Z.add 0 (map snd per_account) = total_after report /\
      0 < duplicates_removed report /\
      clean_message report = Completed (duplicates_removed report)
  | None => duplicates_removed report = 0 /\ fst (clean_duplicate_emails max_variables d) = d
  end.
Proof.
  intros Hids Hnd Hfk. pose proof (clean_cases max_variables d) as H. cbn zeta in H.
  pose proof (delete_ids_count (analyzed_emails d) Hids) as Hdel.
  pose proof (kept_rows_count (analyzed_emails d) Hids) as Hkept.
  destruct (clean_duplicate_emails max_variables d) as [d1 outcome]. cbn [fst snd].
  intros ->.
  destruct H as [(e & [=] & _) |
                 (report' & [= <-] & Hacc & Hrows & _ & _ & Hb & Ha & Hr & _ & Hsame & Hdiff)].
  destruct (delete_ids_of (analyzed_emails d)) as [|i ids] eqn:Hd.
  - destruct (Hsame eq_refl) as [-> ->]. split; [|reflexivity].
    rewrite Hr, Hb, Ha. lia.
  - destruct Hdiff as [-> Hmsg]; [discriminate|].
    split; [|split; [|assumption]].
    + rewrite Ha. apply account_details_add_up.
      * now rewrite Hacc.
      * intros r Hr'. rewrite Hrows in Hr'. apply elem_of_filter_bool in Hr' as [Hr' _].
        unfold select_account. rewrite Hacc. now apply Hfk.
    + rewrite Hr, Hb, Ha, Hrows, Hkept. cbn [length] in Hdel. lia.
Qed.

Lemma cleanup_details_sample :
  match details
          {| total_before := 3; total_after := 2; duplicates_removed := 1;
             details := Some [("bob@example.org"%string, 2)];
             clean_message := Completed 1 |} with
  | Some per_account =>
      foldr Z.add 0 (map snd per_account) = 2 /\ 0 < 1 /\ Completed 1 = Completed 1
  | None => 1 = 0 /\ fst (clean_duplicate_emails 999 Duplicates.database) = Duplicates.database
  end.
Proof.
  apply (cleanup_details_add_up 999 Duplicates.database
           {| total_before := 3; total_after := 2; duplicates_removed := 1;
              details := Some [("bob@example.org"%string, 2)];
              clean_message := Completed 1 |}).
  - apply (bool_decide_unpack _). vm_compute. reflexivity.
  - apply NoDup_singleton.
  - intros r Hr. unfold select_account.
    assert (Hacc : ae_account_id r = 1).
    { cbn [Duplicates.database analyzed_emails] in Hr.
      repeat (apply elem_of_cons in Hr as [->|Hr]; [reflexivity|]). inversion Hr. }
    rewrite Hacc. cbn. eauto.
  - vm_compute. reflexivity.
Defined.

(** * The mail servers of the configuration *)

Lemma lower_char_at (c : ascii) :
  Ascii.eqb "@" (Py.lower_char c) = Ascii.eqb "@" c.
Proof. destruct c as [[] [] [] [] [] [] [] []]; reflexivity. Qed.

Lemma has_char_lower (s : string) : has_char "@" (Py.lower s) = has_char "@" s.
Proof.
  induction s as [|c s IH]; [reflexivity|].
  cbn [Py.lower]. now rewrite !has_char_cons, lower_char_at, IH.
Qed.

Lemma after_last_lower (s : string) :
  Py.after_last "@" (Py.lower s) = Py.lower (Py.after_last "@" s).
Proof.
  induction s as [|c s IH]; [reflexivity|].
  cbn [Py.lower]. rewrite !after_last_cons, has_char_lower, lower_char_at.
  destruct (has_char "@" s); [exact IH|]. now destruct (Ascii.eqb "@" c).
Qed.

Lemma lower_char_lower (c : ascii) : Py.lower_char (Py.lower_char c) = Py.lower_char c.
Proof. destruct c as [[] [] [] [] [] [] [] []]; reflexivity. Qed.

Lemma lower_lower (s : string) : Py.lower (Py.lower s) = Py.lower s.
Proof.
  induction s as [|c s IH]; [reflexivity|].
  cbn [Py.lower]. now rewrite lower_char_lower, IH.
Qed.

(** X27. The server settings depend on the domain only, and not on its
    case: whatever is passed, the answer is that for the lower-cased text
    after the last [@]; a full address gives the settings of its domain;
    every answer uses IMAP port 993, SMTP port 587 and SSL; and a domain the
    table does not list gets the servers [imap.<domain>] and
    [smtp.<domain>]. *)
Theorem server_settings_depend_on_the_domain_only (email_domain : string) :
  let settings := get_email_server_config email_domain in
  let domain := Py.lower (Py.after_last "@" email_domain) in
  settings = get_email_server_config domain /\
  settings = get_email_server_config (Py.lower email_domain) /\
  (forall mailbox host, has_char "@" host = false ->
     get_email_server_config (mailbox ++ "@" ++ host) = get_email_server_config host) /\
  imap_port settings = 993 /\ smtp_port settings = 587 /\ requires_ssl settings = true /\
  (EMAIL_SERVERS !! domain = None ->
     imap_server settings = ("imap." ++ domain)%string /\
     smtp_server settings = ("smtp." ++ domain)%string).
Proof.
  cbn zeta.
  assert (Hfree : has_char "@" (Py.lower (Py.after_last "@" email_domain)) = false)
    by (rewrite has_char_lower; apply after_last_free).
  split; [|split; [|split; [|split; [|split; [|split]]]]].
  - unfold get_email_server_config.
    now rewrite (after_last_absent _ _ Hfree), lower_lower.
  - unfold get_email_server_config. now rewrite after_last_lower, lower_lower.
  - intros mailbox host Hhost. unfold get_email_server_config.
    change ("@" ++ host)%string with (String "@" host).
    now rewrite (after_last_app _ mailbox host Hhost), (after_last_absent _ _ Hhost).
  - unfold get_email_server_config.
    destruct (EMAIL_SERVERS !! _) as [server|] eqn:Hlook; [|reflexivity].
    apply elem_of_list_to_map_2 in Hlook. unfold email_server_table in Hlook.
    repeat (apply elem_of_cons in Hlook as [[= _ ->]|Hlook]; [reflexivity|]).
    inversion Hlook.
  - unfold get_email_server_config.
    destruct (EMAIL_SERVERS !! _) as [server|] eqn:Hlook; [|reflexivity].
    apply elem_of_list_to_map_2 in Hlook. unfold email_server_table in Hlook.
    repeat (apply elem_of_cons in Hlook as [[= _ ->]|Hlook]; [reflexivity|]).
    inversion Hlook.
  - unfold get_email_server_config.
    destruct (EMAIL_SERVERS !! _) as [server|] eqn:Hlook; [|reflexivity].
    apply elem_of_list_to_map_2 in Hlook. unfold email_server_table in Hlook.
    repeat (apply elem_of_cons in Hlook as [[= _ ->]|Hlook]; [reflexivity|]).
    inversion Hlook.
  - intros Hnone. unfold get_email_server_config. rewrite Hnone. split; reflexivity.
Qed.

Example server_settings_samples :
  imap_server (get_email_server_config "Alice@GMail.com") = "imap.gmail.com"%string /\
  imap_server (get_email_server_config "bob@Example.ORG") = "imap.example.org"%string /\
  smtp_server (get_email_server_config "hotmail.com") = "smtp-mail.outlook.com"%string.
Proof. vm_compute. auto. Qed.

(** * A check forced from the dashboard *)

(** The rows a pass appends, counted by its report. *)
Lemma pass_new_rows_counted (net : Network) (account_id max_emails : Z)
    (get_all get_recent : bool) (self : EmailMonitor) :
  exists self1 rep new,
    process_account_emails net account_id max_emails get_all get_recent self
    = (self1, Ok rep) /\
    analyzed_emails (db self1) = analyzed_emails (db self) ++ new /\
    (success rep = false -> db self1 = db self) /\
    (success rep = true ->
       emails_processed rep = Z.of_nat (length new) /\
       spam_detected rep = spam_rows new /\
       ham_detected rep = ham_rows new /\
       length (default [] (emails_detail rep)) = length new /\
       (0 < max_emails -> Z.of_nat (length new) <= max_emails)).
Proof.
  destruct (pass_report net account_id max_emails get_all get_recent self)
    as (self1 & rep & Hrun & _ & _ & Hcase).
  exists self1, rep.
  destruct Hcase as [(_ & Hdb & _ & Hf & _) | (conn & _ & Hok & _ & _ & _ & Hcase)].
  - exists []. rewrite Hdb, app_nil_r, Hf.
    split; [assumption|]. split; [reflexivity|]. split; [reflexivity | discriminate].
  - cbn zeta in Hcase. rewrite Hok.
    destruct Hcase as [(_ & Hdb & Hp & Hs & Hh & _ & Hd) |
                       (_ & self2 & tally & Hloop & Hdb & Hp & Hs & Hh & _ & Hd)].
    + exists []. rewrite Hdb, app_nil_r, Hp, Hs, Hh, Hd.
      split; [assumption|]. split; [reflexivity|]. split; [discriminate|]. intros _.
      cbn. split; [reflexivity|]. split; [reflexivity|]. split; [reflexivity|].
      split; [reflexivity | lia].
    + destruct (process_emails_spec account_id
                  (selected_emails (Some conn) (today self) max_emails get_all get_recent)
                  empty_tally (served conn self))
        as (self2' & tally' & new & Hloop' & _ & _ & _ & Hrows & Hlen & Hspam & Hham & _).
      rewrite Hloop in Hloop'. injection Hloop' as <- <-.
      destruct (process_emails_rows account_id
                  (selected_emails (Some conn) (today self) max_emails get_all get_recent)
                  empty_tally (served conn self))
        as (self2' & tally' & new' & Hloop' & Hrows' & _ & _ & Hnd & Hin).
      rewrite Hloop in Hloop'. injection Hloop' as <- <-.
      rewrite Hrows in Hrows'. apply app_inv_head in Hrows'. subst new'.
      cbn [empty_tally processed_emails spam_count ham_count length] in Hlen, Hspam, Hham.
      exists new. rewrite Hdb. cbn [update_accounts analyzed_emails].
      split; [assumption|]. split; [exact Hrows|]. split; [discriminate|]. intros _.
      rewrite Hp, Hs, Hh, Hd. cbn [from_option Datatypes.id].
      rewrite Hlen, Hspam, Hham, Nat.add_0_l, !Z.add_0_l.
      split; [reflexivity|]. split; [reflexivity|]. split; [reflexivity|].
      split; [reflexivity|].
      intros Hmax.
      pose proof (selected_emails_bound (Some conn) (today self)
                    max_emails get_all get_recent Hmax) as Hbound.
      assert (length new <=
              length (selected_emails (Some conn) (today self) max_emails
                        get_all get_recent))%nat
        by (apply new_rows_at_most_fetched;
            [assumption | intros eid H; apply Hin in H; now apply bindable_ids]).
      lia.
Qed.

Lemma same_settings_started (net net' : Network) (app app' : App) :
  NoDup (map id (email_accounts (app_db app))) ->
  session_state app' = session_state app -> wall_clock app' = wall_clock app ->
  Forall2 same_settings (email_accounts (app_db app)) (email_accounts (app_db app')) ->
  forall i, i ∈ snd (run_automatic_checks net' app') <-> i ∈ snd (run_automatic_checks net app).
Proof.
  intros Hnd Hsession Hclock Hsame i.
  assert (Hnd' : NoDup (map id (email_accounts (app_db app'))))
    by now rewrite (same_settings_ids _ _ Hsame).
  destruct (cycle_started net app Hnd) as [_ Hin].
  destruct (cycle_started net' app' Hnd') as [_ Hin'].
  cbn zeta in Hin, Hin'. rewrite Hin, Hin', Hsession, Hclock. split.
  - intros (Hon & a' & Ha' & Hid & Hact & Hdue). split; [assumption|].
    destruct (Forall2_elem_r _ _ _ _ Hsame Ha') as (a & Ha & Hs).
    destruct Hs as (Hi & _ & _ & _ & _ & _ & Hact' & Hint & _).
    exists a. rewrite <- Hi, <- Hact', <- Hint. auto.
  - intros (Hon & a & Ha & Hid & Hact & Hdue). split; [assumption|].
    destruct (Forall2_elem_l _ _ _ _ Hsame Ha) as (a' & Ha' & Hs).
    destruct Hs as (Hi & _ & _ & _ & _ & _ & Hact' & Hint & _).
    exists a'. rewrite Hi, Hact', Hint. auto.
Qed.

(** X28. A forced check reports what it stored, not what the mailbox
    holds: [emails_found] is the number of rows the check appended (spam
    plus ham, one detail entry each, at most the batch size of the account),
    so a repeated check of the same mail finds none. For an id without a row
    it reports "Cuenta no encontrada" and does nothing; when it fails the
    account, mail and feature tables are as before (the catalog tables, to
    which every new monitor writes, are outside the model). It never touches
    the scheduling keys of the session: the accounts the next automatic
    cycle checks are the same as without the forced check. *)
Theorem forced_check_reports_what_it_stored (net : Network) (account_id : Z)
    (get_all get_recent : bool) (app : App) :
  let '(app1, outcome) := force_email_check net account_id get_all get_recent app in
  session_state app1 = session_state app /\
  (select_account (app_db app) account_id = None ->
   app1 = app /\ outcome = CheckFailed "Cuenta no encontrada") /\
  match outcome with
  | CheckDone account_email found spam ham _ detail =>
      exists a new,
        select_account (app_db app) account_id = Some a /\
        account_email = email a /\
        analyzed_emails (app_db app1) = analyzed_emails (app_db app) ++ new /\
        found = Z.of_nat (length new) /\
        found = spam + ham /\ 0 <= spam /\ 0 <= ham /\
        length detail = length new /\
        (0 < max_emails_per_check a -> found <= max_emails_per_check a)
  | CheckFailed _ =>
      email_accounts (app_db app1) = email_accounts (app_db app) /\
      analyzed_emails (app_db app1) = analyzed_emails (app_db app) /\
      email_features (app_db app1) = email_features (app_db app)
  end /\
  (NoDup (map id (email_accounts (app_db app))) ->
   forall net' t i,
     i ∈ snd (run_automatic_checks net' (at_time t app1))
     <-> i ∈ snd (run_automatic_checks net' (at_time t app))).
Proof.
  unfold force_email_check.
  destruct (select_account (app_db app) account_id) as [a|] eqn:Hacc.
  2:{ split; [reflexivity|]. split; [auto|]. split; [auto|]. reflexivity. }
  pose proof (pass_same_settings net account_id (max_emails_per_check a) get_all get_recent
                {| db := app_db app; connection := None; clock := wall_clock app |}) as Hsame.
  destruct (pass_new_rows_counted net account_id (max_emails_per_check a) get_all get_recent
              {| db := app_db app; connection := None; clock := wall_clock app |})
    as (monitor & rep & new & Hrun & Hrows & Hfail & Hdone).
  rewrite Hrun in Hsame |- *. cbn [fst db] in Hsame, Hrows, Hfail.
  assert (Hcycle : NoDup (map id (email_accounts (app_db app))) ->
            forall net' t i,
              i ∈ snd (run_automatic_checks net'
                         (at_time t {| session_state := session_state app;
                                       app_db := db monitor;
                                       wall_clock := clock monitor |}))
              <-> i ∈ snd (run_automatic_checks net' (at_time t app))).
  { intros Hnd net' t i. apply same_settings_started; try reflexivity; assumption. }
  destruct (success rep) eqn:Hok.
  - split; [reflexivity|]. split; [discriminate|]. split; [|exact Hcycle].
    destruct (Hdone eq_refl) as (Hp & Hs & Hh & Hd & Hmax).
    destruct (spam_and_ham_rows new) as (Hsum & Hs0 & Hh0).
    exists a, new. cbn [app_db]. rewrite Hp, Hs, Hh.
    split; [reflexivity|]. split; [reflexivity|]. split; [assumption|].
    split; [reflexivity|]. split; [lia|]. split; [assumption|]. split; [assumption|].
    split; assumption.
  - split; [reflexivity|]. split; [discriminate|]. split; [|exact Hcycle].
    cbn [app_db]. rewrite (Hfail eq_refl). auto.
Qed.

(** The sample mailbox, checked by hand twice: twelve mails are found, then
    none. *)
Example forced_check_twice :
  let '(app1, first) := force_email_check Sample.net 1 false false (Sample.app 0) in
  let '(app2, second) := force_email_check Sample.net 1 false false app1 in
  match first, second with
  | CheckDone _ found1 _ _ _ _, CheckDone _ found2 _ _ _ _ => found1 = 12 /\ found2 = 0
  | _, _ => False
  end.
Proof. vm_compute. auto. Qed.

(** * Models and training examples *)

Lemma count_examples_id (n model_id : Z) (m : MlModel) :
  ml_id (count_examples n model_id m) = ml_id m.
Proof. unfold count_examples. now destruct (ml_id m =? model_id). Qed.

Lemma count_examples_total (n model_id : Z) (m : MlModel) :
  total_examples (count_examples n model_id m)
  = total_examples m + (if ml_id m =? model_id then n else 0).
Proof. unfold count_examples. destruct (ml_id m =? model_id); cbn; lia. Qed.

Lemma map_ids_counted (n model_id : Z) (models : list MlModel) :
  map ml_id (map (count_examples n model_id) models) = map ml_id models.
Proof.
  rewrite List.map_map. apply List.map_ext. intros m. apply count_examples_id.
Qed.

Lemma create_keeps_counted (now : Z) (name description model_type algorithm : string)
    (model_config : option string) (s : TrainingStore) :
  counted s ->
  counted (training_call s (CreateModel now name description model_type algorithm
                              model_config)).
Proof.
  intros (Hcount & Hids & Hnd & Hle & Hfk). cbn [training_call].
  unfold create_ml_model. destruct (existsb _ _); [repeat split; assumption|].
  unfold counted, count_of_examples.
  cbn [ml_models ml_models_seq training_examples training_examples_seq].
  split; [|split; [|split; [|split]]]; try assumption.
  - apply Forall_app. split; [exact Hcount|]. apply Forall_singleton. cbn [total_examples ml_id].
    rewrite filter_drops_all; [reflexivity|].
    intros e He. apply Z.eqb_neq. intros Heq.
    rewrite Forall_forall in Hfk. specialize (Hfk e He).
    apply elem_of_map_list in Hfk as (m & Hm & Hid).
    rewrite Forall_forall in Hids. specialize (Hids m Hm). lia.
  - apply Forall_app. split; [|apply Forall_singleton; cbn [ml_id]; lia].
    eapply Forall_impl; [exact Hids|]. cbn. intros; lia.
  - eapply Forall_impl; [exact Hfk|]. cbn. intros e He.
    rewrite List.map_app. apply elem_of_app. now left.
Qed.

Lemma update_keeps_counted (model_id : Z) (u : ModelUpdate) (s : TrainingStore) :
  set_total_examples u = None ->
  counted s -> counted (training_call s (UpdateModel model_id u)).
Proof.
  intros Hu (Hcount & Hids & Hnd & Hle & Hfk). cbn [training_call].
  unfold update_ml_model. destruct (no_fields u); [repeat split; assumption|].
  destruct (match set_name u with Some _ => _ | None => _ end);
    [repeat split; assumption|].
  cbn [fst]. unfold counted, count_of_examples.
  cbn [ml_models ml_models_seq training_examples training_examples_seq].
  assert (Hsame : forall m,
            ml_id (if ml_id m =? model_id then updated u m else m) = ml_id m /\
            total_examples (if ml_id m =? model_id then updated u m else m)
            = total_examples m).
  { intros m. destruct (ml_id m =? model_id); [|auto].
    cbn [updated ml_id total_examples]. now rewrite Hu. }
  split; [|split; [|split; [|split]]]; try assumption.
  - apply Forall_forall. intros m' Hm'. apply elem_of_map_list in Hm' as (m & Hm & <-).
    destruct (Hsame m) as [-> ->]. rewrite Forall_forall in Hcount. now apply Hcount.
  - apply Forall_forall. intros m' Hm'. apply elem_of_map_list in Hm' as (m & Hm & <-).
    destruct (Hsame m) as [-> _]. rewrite Forall_forall in Hids. now apply Hids.
  - eapply Forall_impl; [exact Hfk|]. cbn. intros e He.
    rewrite List.map_map.
    rewrite (List.map_ext _ ml_id (fun m => proj1 (Hsame m))). exact He.
Qed.

Lemma filter_filter_comm {A} (f g : A -> bool) (l : list A) :
  List.filter f (List.filter g l) = List.filter g (List.filter f l).
Proof.
  induction l as [|x l IH]; [reflexivity|]. cbn [List.filter].
  destruct (f x) eqn:Hf, (g x) eqn:Hg; cbn [List.filter]; rewrite ?Hf, ?Hg, IH; reflexivity.
Qed.

Lemma delete_model_keeps_counted (model_id : Z) (s : TrainingStore) :
  counted s -> counted (training_call s (DeleteModel model_id)).
Proof.
  intros (Hcount & Hids & Hnd & Hle & Hfk). cbn [training_call delete_ml_model fst].
  unfold counted, count_of_examples.
  cbn [ml_models ml_models_seq training_examples training_examples_seq].
  rewrite Forall_forall in Hcount. rewrite Forall_forall in Hids.
  rewrite Forall_forall in Hle. rewrite Forall_forall in Hfk.
  destruct (existsb (fun m => ml_id m =? model_id) (ml_models s)) eqn:Hexists.
  - split; [|split; [|split; [|split]]].
    + apply Forall_forall. intros m Hm. apply elem_of_filter_bool in Hm as [Hm Hne].
      rewrite (Hcount m Hm). unfold count_of_examples. f_equal. f_equal.
      rewrite filter_filter_comm. symmetry. apply filter_keeps_all.
      intros e He. apply elem_of_filter_bool in He as [_ He].
      apply Z.eqb_eq in He. rewrite He. exact Hne.
    + apply Forall_forall. intros m Hm. apply elem_of_filter_bool in Hm as [Hm _]. auto.
    + apply NoDup_column.
      * apply NoDup_filter_bool. now apply (NoDup_of_column te_id).
      * intros x y Hx Hy. apply elem_of_filter_bool in Hx as [Hx _].
        apply elem_of_filter_bool in Hy as [Hy _].
        now apply (same_column_same_row te_id (training_examples s)).
    + apply Forall_forall. intros e He. apply elem_of_filter_bool in He as [He _]. auto.
    + apply Forall_forall. intros e He. apply elem_of_filter_bool in He as [He Hne].
      specialize (Hfk e He). apply elem_of_map_list in Hfk as (m & Hm & Hid).
      apply elem_of_map_list. exists m. split; [|assumption].
      apply elem_of_filter_bool. split; [assumption|]. now rewrite Hid.
  - assert (Hkeep : List.filter (fun m => negb (ml_id m =? model_id)) (ml_models s)
                    = ml_models s).
    { apply filter_keeps_all. intros m Hm.
      destruct (ml_id m =? model_id) eqn:Hid; [|reflexivity].
      assert (existsb (fun m => ml_id m =? model_id) (ml_models s) = true)
        by (apply existsb_exists; exists m; split; [now apply list_elem_of_In | assumption]).
      congruence. }
    rewrite Hkeep. rewrite <- !Forall_forall in *. repeat split; assumption.
Qed.

Lemma add_keeps_counted (now : Z) (analyzed_ids : list Z) (model_id : Z)
    (title content : string) (classification : bool) (source_type : string)
    (email_id : option Z) (features_extracted : option string) (s : TrainingStore) :
  counted s ->
  counted (training_call s (AddExample now analyzed_ids model_id title content
                              classification source_type email_id features_extracted)).
Proof.
  intros (Hcount & Hids & Hnd & Hle & Hfk). cbn [training_call].
  unfold add_training_example.
  destruct (existsb (fun m => ml_id m =? model_id) (ml_models s)) eqn:Hmodel;
    [|repeat split; assumption].
  destruct (match email_id with Some _ => _ | None => _ end);
    [|repeat split; assumption].
  cbn [andb negb]. unfold counted, count_of_examples.
  cbn [ml_models ml_models_seq training_examples training_examples_seq].
  rewrite Forall_forall in Hcount. rewrite Forall_forall in Hids.
  rewrite Forall_forall in Hle. rewrite Forall_forall in Hfk.
  split; [|split; [|split; [|split]]].
  - apply Forall_forall. intros m' Hm'. apply elem_of_map_list in Hm' as (m & Hm & <-).
    rewrite count_examples_id, count_examples_total, (Hcount m Hm).
    unfold count_of_examples. rewrite List.filter_app, List.length_app. cbn [List.filter te_model_id].
    rewrite (Z.eqb_sym model_id). destruct (ml_id m =? model_id); cbn [length]; lia.
  - apply Forall_forall. intros m' Hm'. apply elem_of_map_list in Hm' as (m & Hm & <-).
    rewrite count_examples_id. auto.
  - rewrite List.map_app. cbn [map te_id]. apply NoDup_app.
    split; [assumption|]. split; [|apply NoDup_singleton].
    intros i Hi Hnew. apply list_elem_of_singleton in Hnew. subst i.
    apply elem_of_map_list in Hi as (e & He & Hid). specialize (Hle e He). lia.
  - apply Forall_app. split.
    + apply Forall_forall. intros e He. specialize (Hle e He). lia.
    + apply Forall_singleton. cbn [te_id]. lia.
  - rewrite map_ids_counted. apply Forall_app. split.
    + apply Forall_forall. exact Hfk.
    + apply Forall_singleton. cbn [te_model_id].
      apply existsb_exists in Hmodel as (m & Hm & Hid). apply Z.eqb_eq in Hid.
      apply elem_of_map_list. exists m. split; [now apply list_elem_of_In | assumption].
Qed.

(** Removing the one row with a key removes it from its group only. *)
Lemma filter_without_row (p : TrainingExample -> bool) (rows : list TrainingExample)
    (row : TrainingExample) :
  NoDup (map te_id rows) -> row ∈ rows ->
  Z.of_nat (length (List.filter p
                      (List.filter (fun e => negb (te_id e =? te_id row)) rows)))
  = Z.of_nat (length (List.filter p rows)) + (if p row then -1 else 0).
Proof.
  induction rows as [|x rows IH]; intros Hnd Hrow; [inversion Hrow|].
  cbn [map] in Hnd. apply NoDup_cons in Hnd as [Hx Hnd].
  cbn [List.filter]. apply elem_of_cons in Hrow as [->|Hrow].
  - rewrite Z.eqb_refl. cbn [negb].
    rewrite (filter_keeps_all (fun e => negb (te_id e =? te_id x)) rows).
    + destruct (p x); cbn [length]; lia.
    + intros e He. apply negb_true_iff, Z.eqb_neq. intros Heq. apply Hx.
      rewrite <- Heq. apply elem_of_map_list. eauto.
  - assert (Hne : te_id x <> te_id row).
    { intros Heq. apply Hx. rewrite Heq. apply elem_of_map_list. eauto. }
    apply Z.eqb_neq in Hne. rewrite Hne. cbn [negb List.filter].
    specialize (IH Hnd Hrow). destruct (p x); cbn [length]; lia.
Qed.

Lemma delete_example_keeps_counted (example_id : Z) (s : TrainingStore) :
  counted s -> counted (training_call s (DeleteExample example_id)).
Proof.
  intros (Hcount & Hids & Hnd & Hle & Hfk). cbn [training_call].
  unfold delete_training_example.
  destruct (List.find _ _) as [row|] eqn:Hfind; [|repeat split; assumption].
  apply List.find_some in Hfind as [Hrow Hid]. apply Z.eqb_eq in Hid. subst example_id.
  apply list_elem_of_In in Hrow.
  cbn [fst]. unfold counted, count_of_examples.
  cbn [ml_models ml_models_seq training_examples training_examples_seq].
  rewrite Forall_forall in Hcount. rewrite Forall_forall in Hids.
  rewrite Forall_forall in Hle. rewrite Forall_forall in Hfk.
  split; [|split; [|split; [|split]]].
  - apply Forall_forall. intros m' Hm'. apply elem_of_map_list in Hm' as (m & Hm & <-).
    rewrite count_examples_id, count_examples_total, (Hcount m Hm).
    unfold count_of_examples.
    rewrite (filter_without_row (fun e => te_model_id e =? ml_id m) _ row Hnd Hrow).
    rewrite (Z.eqb_sym (te_model_id row)). now destruct (ml_id m =? te_model_id row).
  - apply Forall_forall. intros m' Hm'. apply elem_of_map_list in Hm' as (m & Hm & <-).
    rewrite count_examples_id. auto.
  - apply NoDup_column.
    + apply NoDup_filter_bool. now apply (NoDup_of_column te_id).
    + intros x y Hx Hy. apply elem_of_filter_bool in Hx as [Hx _].
      apply elem_of_filter_bool in Hy as [Hy _].
      now apply (same_column_same_row te_id (training_examples s)).
  - apply Forall_forall. intros e He. apply elem_of_filter_bool in He as [He _]. auto.
  - rewrite map_ids_counted. apply Forall_forall. intros e He.
    apply elem_of_filter_bool in He as [He _]. auto.
Qed.

Lemma call_keeps_counted (s : TrainingStore) (c : TrainingCall) :
  leaves_counter c -> counted s -> counted (training_call s c).
Proof.
  destruct c; intros Hc Hs.
  - now apply create_keeps_counted.
  - now apply update_keeps_counted.
  - now apply delete_model_keeps_counted.
  - now apply add_keeps_counted.
  - now apply delete_example_keeps_counted.
Qed.

(** X29. The counter of a model is the number of its examples: after any
    sequence of [create_ml_model], [update_ml_model], [delete_ml_model],
    [add_training_example] and [delete_training_example] calls on a new
    database, failed calls included, in which no update writes
    [total_examples] itself, every model's [total_examples] equals the
    number of [training_examples] rows that refer to it, and every example
    refers to a model that exists. *)
Theorem example_counter_matches_the_examples (calls : list TrainingCall) :
  Forall leaves_counter calls ->
  let s := fold_left training_call calls empty_store in
  (forall m, m ∈ ml_models s -> total_examples m = count_of_examples (ml_id m) s) /\
  (forall e, e ∈ training_examples s -> exists m, m ∈ ml_models s /\ ml_id m = te_model_id e) /\
  NoDup (map te_id (training_examples s)).
Proof.
  intros Hcalls. cbn zeta.
  assert (Hinv : counted (fold_left training_call calls empty_store)).
  { assert (Hempty : counted empty_store) by (repeat split; constructor).
    revert Hempty. generalize empty_store.
    induction Hcalls as [|c calls Hc _ IH]; intros s Hs; [exact Hs|].
    cbn [fold_left]. apply IH. now apply call_keeps_counted. }
  destruct Hinv as (Hcount & _ & Hnd & _ & Hfk).
  rewrite Forall_forall in Hcount. rewrite Forall_forall in Hfk.
  split; [exact Hcount|]. split; [|exact Hnd].
  intros e He. specialize (Hfk e He). now apply elem_of_map_list in Hfk.
Qed.

(** A model with two examples, one of them deleted again, a call for a
    model that does not exist, and a second model deleted with its example. *)
Lemma example_counter_sample :
  let calls :=
    [CreateModel 1 "spam" "first" "spam_detector" "naive_bayes" None;
     AddExample 2 [] 1 "offer" "free money" true "manual" None None;
     AddExample 3 [] 1 "hello" "see you" false "manual" None None;
     AddExample 4 [] 7 "lost" "no model" false "manual" None None;
     DeleteExample 1;
     CreateModel 5 "other" "second" "spam_detector" "svm" None;
     AddExample 6 [] 2 "offer" "free money" true "manual" None None;
     DeleteModel 2] in
  let s := fold_left training_call calls empty_store in
  (forall m, m ∈ ml_models s -> total_examples m = count_of_examples (ml_id m) s) /\
  (forall e, e ∈ training_examples s -> exists m, m ∈ ml_models s /\ ml_id m = te_model_id e) /\
  NoDup (map te_id (training_examples s)).
Proof.
  cbn zeta. apply example_counter_matches_the_examples.
  repeat constructor.
Defined.

Example example_counter_of_the_sample :
  let s :=
    fold_left training_call
      [CreateModel 1 "spam" "first" "spam_detector" "naive_bayes" None;
       AddExample 2 [] 1 "offer" "free money" true "manual" None None;
       AddExample 3 [] 1 "hello" "see you" false "manual" None None;
       AddExample 4 [] 7 "lost" "no model" false "manual" None None;
       DeleteExample 1]
      empty_store in
  map total_examples (ml_models s) = [1] /\ map te_id (training_examples s) = [2].
Proof. vm_compute. auto. Qed.

(** Written by hand, the counter no longer matches. *)
Example counter_written_by_hand :
  let u := {| set_name := None; set_description := None; set_model_type := None;
              set_algorithm := None; set_is_active := None; set_accuracy := None;
              set_total_examples := Some 5; set_model_config := None;
              set_model_file_path := None |} in
  let s :=
    fold_left training_call
      [CreateModel 1 "spam" "first" "spam_detector" "naive_bayes" None; UpdateModel 1 u]
      empty_store in
  map total_examples (ml_models s) = [5] /\ count_of_examples 1 s = 0.
Proof. vm_compute. auto. Qed.
